(** * BiteBoard product creator: a shallow embedding and its properties

    The development follows the two source files

    - [backend/scripts/product_creator/categories.py]
    - [backend/scripts/product_creator/Product_Creator.py]

    Python text is a sequence of Unicode code points, Python values that
    travel through JSON are a small tagged union, the remote platform is
    a transition system that answers one HTTP request at a time, and the
    functions that talk to it live in a state-and-exception monad whose
    state records every request that was sent. *)

From Stdlib Require Import ZArith NArith List String Ascii Lia Bool.
From Stdlib Require Import DecimalString.
From stdpp Require Import base option list gmap.
Import ListNotations.

Set Warnings "-register-all".
Open Scope Z_scope.

(** ** Python text *)

(** A Python [str] is a list of code points. *)
Definition pystr := list N.

(** [py "abc"] is the [str] whose code points are the bytes of an ASCII
    literal. *)
Fixpoint py (s : string) : pystr :=
  match s with
  | EmptyString => []
  | String a r => N_of_ascii a :: py r
  end.

(** [pyq] reads a literal in which the apostrophe stands for the double
    quote, so that JSON text can be written down: [pyq "['a']"] is the
    five characters of a one-element JSON array. *)
Definition pyq (s : string) : pystr :=
  map (λ c, if (c =? 39)%N then 34%N else c) (py s).

Module Str.

(** [str.isspace] on one code point: the characters CPython's
    [_PyUnicode_IsWhitespace] accepts. *)
Definition isspace (c : N) : bool :=
  ((9 <=? c) && (c <=? 13) || (28 <=? c) && (c <=? 32)
   || (c =? 133) || (c =? 160) || (c =? 5760)
   || (8192 <=? c) && (c <=? 8202)
   || (c =? 8232) || (c =? 8233) || (c =? 8239) || (c =? 8287)
   || (c =? 12288))%N.

Fixpoint drop_while (p : N → bool) (s : pystr) : pystr :=
  match s with
  | [] => []
  | c :: r => if p c then drop_while p r else s
  end.

Definition lstrip (s : pystr) : pystr := drop_while isspace s.
Definition rstrip (s : pystr) : pystr := rev (drop_while isspace (rev s)).
(** [s.strip()] *)
Definition strip (s : pystr) : pystr := rstrip (lstrip s).

(** [s.rstrip(chars)] for a one-character argument. *)
Definition rstrip_char (c : N) (s : pystr) : pystr :=
  rev (drop_while (N.eqb c) (rev s)).

(** [s.split()]: the maximal runs of non-whitespace characters.  [cur]
    is the run being read, reversed. *)
Fixpoint split_ws_aux (cur : pystr) (s : pystr) : list pystr :=
  match s with
  | [] => if cur is [] then [] else [rev cur]
  | c :: r =>
      if isspace c
      then (if cur is [] then split_ws_aux [] r
            else rev cur :: split_ws_aux [] r)
      else split_ws_aux (c :: cur) r
  end.
Definition split_ws (s : pystr) : list pystr := split_ws_aux [] s.

(** [sep.join(parts)] *)
Fixpoint join (sep : pystr) (parts : list pystr) : pystr :=
  match parts with
  | [] => []
  | [p] => p
  | p :: r => p ++ sep ++ join sep r
  end.

(** [s.startswith(p)] *)
Fixpoint startswith (p s : pystr) : bool :=
  match p, s with
  | [], _ => true
  | _ :: _, [] => false
  | a :: p', b :: s' => (a =? b)%N && startswith p' s'
  end.

(** [s.endswith(p)] *)
Definition endswith (p s : pystr) : bool := startswith (rev p) (rev s).

(** [sub in s] *)
Fixpoint contains (sub s : pystr) : bool :=
  startswith sub s ||
  match s with
  | [] => false
  | _ :: r => contains sub r
  end.

(** [s.replace(old, new)] for a non-empty [old]: occurrences are
    replaced left to right without overlap.  [skip] counts the
    characters of a matched occurrence still to be dropped. *)
Fixpoint replace_aux (old new : pystr) (skip : nat) (s : pystr) : pystr :=
  match s with
  | [] => []
  | c :: r =>
      match skip with
      | S k => replace_aux old new k r
      | O =>
          if startswith old s
          then new ++ replace_aux old new (Nat.pred (length old)) r
          else c :: replace_aux old new O r
      end
  end.
Definition replace (old new s : pystr) : pystr := replace_aux old new O s.

(** [s.split(sep)[-1]] for a one-character separator: the text after
    the last occurrence of [sep], or all of [s]. *)
Fixpoint last_segment_aux (sep : N) (cur : pystr) (s : pystr) : pystr :=
  match s with
  | [] => rev cur
  | c :: r =>
      if (c =? sep)%N then last_segment_aux sep [] r
      else last_segment_aux sep (c :: cur) r
  end.
Definition last_segment (sep : N) (s : pystr) : pystr :=
  last_segment_aux sep [] s.

(** Lower-casing of the ASCII letters, every other code point kept. *)
Definition ascii_lower_char (c : N) : N :=
  if ((65 <=? c) && (c <=? 90))%N then (c + 32)%N else c.
Definition ascii_lower (s : pystr) : pystr := map ascii_lower_char s.

(** Decimal rendering of an integer: [str(n)] for an [int]. *)
Definition of_Z (z : Z) : pystr := py (NilZero.string_of_int (Z.to_int z)).

End Str.

(** ** Python values *)

(** The values that cross the JSON boundary: what [json.loads] produces
    and what request fields carry.  A float is kept as the numeral it was
    read from. *)
Inductive pyval :=
| PyNone
| PyBool (b : bool)
| PyInt (z : Z)
| PyFloat (numeral : pystr)
| PyStr (s : pystr)
| PyList (items : list pyval)
| PyDict (fields : list (pystr * pyval)).

(** Builtins of the Python runtime that the development does not define:
    they are taken as they are.
    - [py_lower] is [str.lower].
    - [py_int] is [int(s)] on a [str]; [None] stands for [ValueError].
    - [py_repr] is [str(v)] for a float, a list or a dict.
    - [py_bool_float] is [bool(x)] for the float read from a numeral.
    - [url_quote] is [urllib.parse.quote]. *)
Class PyBuiltins := {
  py_lower : pystr → pystr;
  py_int : pystr → option Z;
  py_repr : pyval → pystr;
  py_bool_float : pystr → bool;
  url_quote : pystr → pystr;
}.

(** [str(v)] *)
Definition py_str `{PyBuiltins} (v : pyval) : pystr :=
  match v with
  | PyStr s => s
  | PyInt z => Str.of_Z z
  | PyNone => py "None"
  | PyBool true => py "True"
  | PyBool false => py "False"
  | _ => py_repr v
  end.

(** [bool(v)] *)
Definition py_truthy `{PyBuiltins} (v : pyval) : bool :=
  match v with
  | PyNone => false
  | PyBool b => b
  | PyInt z => negb (z =? 0)
  | PyFloat n => py_bool_float n
  | PyStr s => if s is [] then false else true
  | PyList l => if l is [] then false else true
  | PyDict kv => if kv is [] then false else true
  end.

(** A runtime that is exact on ASCII text and on plain decimal numerals;
    it is used to run the model on concrete inputs. *)
Module Reference.

Fixpoint digits_value (acc : N) (s : pystr) : option N :=
  match s with
  | [] => Some acc
  | c :: r =>
      if ((48 <=? c) && (c <=? 57))%N
      then digits_value (acc * 10 + (c - 48))%N r
      else None
  end.

(** Optional sign followed by at least one ASCII digit. *)
Definition int_of_str (s : pystr) : option Z :=
  match s with
  | 45%N :: ((_ :: _) as d) => (λ n, - Z.of_N n) <$> digits_value 0%N d
  | 43%N :: ((_ :: _) as d) => Z.of_N <$> digits_value 0%N d
  | _ :: _ => Z.of_N <$> digits_value 0%N s
  | [] => None
  end.

(** A numeral denotes a non-zero float when a digit other than 0 occurs
    before its exponent. *)
Fixpoint mantissa_nonzero (s : pystr) : bool :=
  match s with
  | [] => false
  | c :: r =>
      if ((c =? 101) || (c =? 69))%N then false
      else ((49 <=? c) && (c <=? 57))%N || mantissa_nonzero r
  end.

#[export] Instance builtins : PyBuiltins := {|
  py_lower := Str.ascii_lower;
  py_int := int_of_str;
  py_repr := λ _, py "<object>";
  py_bool_float := mantissa_nonzero;
  url_quote := λ s, s;
|}.

End Reference.

(** ** categories.py *)

Module Categories.

(** [CATEGORIES] *)
Definition CATEGORIES : list pystr := map py [
"All"; "Latest"; "Best Sellers"; "Express"; "Super Express"; "Seasonal";
"Themes"; "Events & Charities"; "Brands"; "Eco"; "Biscuits, Cakes & Pies";
"Cereals & Cereal Bars"; "Chewing Gum"; "Chocolate"; "Crisps";
"Dried Fruits"; "Drinks"; "Flapjacks"; "Honey";
"Jams, Marmalades & Spreads"; "Lollipops"; "Popcorn"; "Pretzels";
"Protein"; "Savoury Snacks"; "Soup"; "Sprinkles"; "Sweets"; "Mints";
"Vegan"; "Packaging" ]%string.

(** [SUBCATEGORIES], in the order of the source. *)
Definition SUBCATEGORIES : list pystr := map py [
"Black Friday"; "Christmas"; "Easter"; "Eid"; "Halloween"; "New Year";
"Ramadan"; "Summer"; "Valentines Day"; "Achievement"; "Anniversary";
"Appreciation"; "Awards"; "Back To School"; "British"; "Carnival";
"Celebrations"; "Community"; "Countdown to Launch"; "Customers";
"Diversity & Inclusion"; "Empowerment"; "Football"; "Heroes"; "Ideas";
"Loyalty"; "Meet The Team"; "Mental Health"; "Milestones";
"Product Launch"; "Referral Rewards"; "Sale"; "Saver Offers"; "Staff";
"Success"; "Support"; "Sustainability"; "Thank You"; "University";
"Volunteer"; "Wellbeing"; "We Miss You"; "Cancer Research"; "Careers Week";
"Mental Health Awareness"; "Movember"; "Pride"; "Volunteers Week";
"Wimbledon"; "World Bee Day"; "World Blood Donor Day";
"World Cup - Football"; "World Cup - Rugby"; "Cadbury"; "Haribo"; "Heinz";
"Jordans"; "Kelloggs"; "Mars"; "McVities"; "Nature Valley"; "Nestle";
"Swizzels"; "Walkers"; "Biscuits - Box"; "Biscuits - Single"; "Cake - Box";
"Cake Bars - Single"; "Cakes - Round"; "Cakes - Traybake";
"Cupcakes - Box"; "Cupcakes - Single"; "Pies - Box"; "Pies - Single";
"Breakfast Cereals"; "Cereal Bars"; "Porridge"; "Mint"; "Balls"; "Bars";
"Coins"; "Hearts"; "Neapolitans"; "Single Shapes"; "Truffles"; "Apricots";
"Bananas"; "Dates"; "Coffee"; "Fizzy"; "Hot Chocolate"; "Still"; "Tea";
"Water"; "Marmalade"; "Marmite"; "Nutella"; "Jams"; "Chocolate"; "Sugar";
"Microwave"; "Popped"; "Nuts"; "Bags"; "Packs"; "Shapes"; "Vermicelli";
"Boiled/Compressed"; "Jellies"; "Sweets"; "Treats"; "Bottle"; "Card";
"Card Box - A Box"; "Card Box - Rectangle"; "Card Box - Shape";
"Card Box - Square"; "Eco"; "Header Card"; "Jar"; "Label"; "Nets";
"Organza Bag"; "Popcorn Box"; "Plastic Box"; "Tin"; "Tub"; "Wrap" ]%string.

(** [SUBCATEGORY_2_FIRST_ITEM] *)
Definition SUBCATEGORY_2_FIRST_ITEM : pystr := py "Sweets".

(** [l.index(x)]; [None] stands for [ValueError]. *)
Definition index (x : pystr) (l : list pystr) : option nat :=
  fst <$> list_find (λ c, c = x) l.

(** [_subcategory_2_start_index()] *)
Definition _subcategory_2_start_index : nat :=
  match index SUBCATEGORY_2_FIRST_ITEM SUBCATEGORIES with
  | Some i => i
  | None => length SUBCATEGORIES
  end.

(** A slice bound as Python reads it: a negative bound counts from the
    end, and the result is clamped to the list. *)
Definition slice_bound (len : nat) (i : Z) : nat :=
  Z.to_nat (Z.min (Z.of_nat len) (Z.max 0 (if i <? 0 then i + Z.of_nat len else i))).

(** [l[a:b]] *)
Definition py_slice {A} (a b : Z) (l : list A) : list A :=
  let a' := slice_bound (length l) a in
  let b' := slice_bound (length l) b in
  take (b' - a') (drop a' l).

Section WithBuiltins.
Context `{PyBuiltins}.

(** [" ".join(s.replace("\u00a0", " ").split())] *)
Definition normalize_ws (s : pystr) : pystr :=
  Str.join [32%N] (Str.split_ws (Str.replace [160%N] [32%N] s)).

(** The [for i, choice in enumerate(SUBCATEGORIES)] loop of
    [get_subcategory_metafield_key]: the first index whose normalised
    choice equals [s_norm], or equals it up to case. *)
Definition find_normalized (s_norm s_lower : pystr) : option nat :=
  fst <$> list_find
    (λ choice, let c_norm := normalize_ws choice in
               c_norm = s_norm ∨ py_lower c_norm = s_lower)
    SUBCATEGORIES.

(** The index that [get_subcategory_metafield_key] settles on for the
    stripped label [s]; [None] when the loop leaves [found] unset. *)
Definition resolve_index (s : pystr) : option nat :=
  let s_norm := normalize_ws s in
  if decide (s ∈ SUBCATEGORIES) then index s SUBCATEGORIES
  else if decide (s_norm ∈ SUBCATEGORIES) then index s_norm SUBCATEGORIES
  else find_normalized s_norm (py_lower s_norm).

(** The resolution as the specification words it, for comparison
    with [resolve_index]: an exact match first, else a match of the
    whitespace-normalised label, else the first choice that equals
    the normalised label up to case. *)
Definition resolve_as_specified (s : pystr) : option nat :=
  match index s SUBCATEGORIES with
  | Some i => Some i
  | None =>
      match index (normalize_ws s) SUBCATEGORIES with
      | Some i => Some i
      | None =>
          fst <$> list_find
            (λ choice, py_lower (normalize_ws choice) = py_lower (normalize_ws s))
            SUBCATEGORIES
      end
  end.

(** The bucket of a resolved index: primary before the sentinel,
    secondary from the sentinel on, primary when nothing resolved. *)
Definition bucket_of (resolved : option nat) : pystr :=
  match resolved with
  | Some i =>
      if (i <? _subcategory_2_start_index)%nat then py "subcategory"
      else py "subcategory_2"
  | None => py "subcategory"
  end.

(** [get_subcategory_metafield_key(subcategory)], on the text
    [str(subcategory)]. *)
Definition get_subcategory_metafield_key (subcategory : pystr) : pystr :=
  let s := Str.strip subcategory in
  if s is [] then py "subcategory"
  else
    match resolve_index s with
    | None => py "subcategory"
    | Some index =>
        let boundary := _subcategory_2_start_index in
        if (index <? boundary)%nat then py "subcategory"
        else py "subcategory_2"
    end.

(** [get_metafield_choices(metafield_key)] *)
Definition get_metafield_choices (metafield_key : pystr) : list pystr :=
  if decide (metafield_key = py "custom_category") then CATEGORIES
  else if decide (metafield_key = py "subcategory") then
    take _subcategory_2_start_index SUBCATEGORIES
  else if decide (metafield_key = py "subcategory_2") then
    drop _subcategory_2_start_index SUBCATEGORIES
  else if Str.startswith (py "subcategory_") metafield_key then
    match py_int (Str.last_segment 95%N metafield_key) with
    | Some n =>
        let chunk_index := n - 1 in
        let start_idx := chunk_index * 128 in
        let end_idx := start_idx + 128 in
        py_slice start_idx end_idx SUBCATEGORIES
    | None => []
    end
  else [].

End WithBuiltins.

End Categories.

(** ** Exceptions and outcomes *)

(** The exception classes that occur.  [InvalidOperation] is
    [decimal.InvalidOperation], a subclass of [ArithmeticError];
    [CollaboratorError] is whatever an external collaborator raises. *)
Inductive exn :=
| ValueError | TypeError | KeyError | AttributeError | ImportError
| InvalidOperation | JSONDecodeError | ConnectionError | CollaboratorError.

#[export] Instance exn_eq_dec : EqDecision exn.
Proof. solve_decision. Defined.

(** What evaluating an expression leads to. *)
Inductive outcome (A : Type) :=
| Returns (a : A)
| Raises (e : exn).
Arguments Returns {A} a.
Arguments Raises {A} e.

(** ** The [decimal] module, as far as [format_price] uses it *)

Module PyDecimal.

(** A [Decimal]: sign, coefficient and exponent, or a special value.
    The payload of a NaN is its digit string. *)
Inductive decimal :=
| Finite (neg : bool) (coeff : N) (exp : Z)
| Infinite (neg : bool)
| NaN (neg : bool) (signaling : bool) (diag : pystr).

Definition is_digit (c : N) : bool := ((48 <=? c) && (c <=? 57))%N.

(** The longest prefix of ASCII digits, and what follows it. *)
Fixpoint span_digits (s : pystr) : pystr * pystr :=
  match s with
  | c :: r =>
      if is_digit c then let '(d, t) := span_digits r in (c :: d, t)
      else ([], s)
  | [] => ([], [])
  end.

Definition digits_value (d : pystr) : N :=
  fold_left (λ acc c, acc * 10 + (c - 48))%N d 0%N.

(** The digits of a coefficient: [str(n)]. *)
Definition digits_of (n : N) : pystr := Str.of_Z (Z.of_N n).

(** The exponent part [E[-+]?\d+] followed by the end of the text. *)
Definition parse_exponent (s : pystr) : option Z :=
  match s with
  | [] => Some 0
  | e :: r =>
      if ((e =? 101) || (e =? 69))%N then
        let '(neg, r') :=
          match r with
          | 45%N :: t => (true, t)
          | 43%N :: t => (false, t)
          | _ => (false, r)
          end in
        match span_digits r' with
        | ((_ :: _) as d, []) =>
            let v := Z.of_N (digits_value d) in
            Some (if neg then - v else v)
        | _ => None
        end
      else None
  end.

(** The numeric alternative of the parser: digits with an optional
    fraction, at least one digit in all, then an optional exponent. *)
Definition parse_finite (neg : bool) (s : pystr) : option decimal :=
  let '(intpart, r1) := span_digits s in
  let '(fracpart, r2) :=
    match r1 with
    | 46%N :: t => span_digits t
    | _ => ([], r1)
    end in
  if (if intpart is [] then (if fracpart is [] then true else false) else false)
  then None
  else
    e ← parse_exponent r2;
    Some (Finite neg (digits_value (intpart ++ fracpart))
                 (e - Z.of_nat (length fracpart))).

(** The special alternatives: [Inf], [Infinity], [NaN] and [sNaN] with
    optional payload digits, in any letter case. *)
Definition parse_special (neg : bool) (s : pystr) : option decimal :=
  let l := Str.ascii_lower s in
  if decide (l = py "inf") then Some (Infinite neg)
  else if decide (l = py "infinity") then Some (Infinite neg)
  else
    let '(sig, r) :=
      match l with
      | 115%N :: t => (true, t)
      | _ => (false, l)
      end in
    if Str.startswith (py "nan") r then
      match span_digits (drop 3 r) with
      | (d, []) => Some (NaN neg sig (Str.drop_while (N.eqb 48) d))
      | _ => None
      end
    else None.

(** [Decimal(s)] for a [str]: surrounding whitespace and underscores
    are dropped, then the whole text has to be a numeric string.
    Digits are the ASCII digits. *)
Definition of_str (s : pystr) : outcome decimal :=
  let t := Str.replace [95%N] [] (Str.strip s) in
  let '(neg, body) :=
    match t with
    | 45%N :: r => (true, r)
    | 43%N :: r => (false, r)
    | _ => (false, t)
    end in
  match parse_finite neg body with
  | Some d => Returns d
  | None =>
      match parse_special neg body with
      | Some d => Returns d
      | None => Raises InvalidOperation
      end
  end.

(** Precision and largest exponent of the default context. *)
Definition prec : Z := 28.
Definition Emax : Z := 999999.

(** [d.adjusted()] of a finite, non-zero decimal. *)
Definition adjusted (coeff : N) (exp : Z) : Z :=
  exp + Z.of_nat (length (digits_of coeff)) - 1.

(** [_rescale(exp, ROUND_HALF_UP)] on a non-zero coefficient: zeros are
    appended when the exponent does not grow, else the dropped digits
    round away from zero when the first of them is 5 or more. *)
Definition rescale_half_up (coeff : N) (e target : Z) : N :=
  if target <=? e then (coeff * 10 ^ Z.to_N (e - target))%N
  else
    let unit := (10 ^ Z.to_N (target - e))%N in
    let q := (coeff / unit)%N in
    if (unit <=? 2 * (coeff mod unit))%N then (q + 1)%N else q.

(** [_fix_nan]: a payload longer than the precision keeps its last
    [prec] digits, without leading zeros. *)
Definition fix_nan (diag : pystr) : pystr :=
  if (Z.to_nat prec <? length diag)%nat
  then Str.drop_while (N.eqb 48) (drop (length diag - Z.to_nat prec) diag)
  else diag.

(** [d.quantize(Decimal('0.01'), rounding=ROUND_HALF_UP)] under the
    default context. *)
Definition quantize_cents (d : decimal) : outcome decimal :=
  let target := -2 in
  match d with
  | NaN neg true _ => Raises InvalidOperation
  | NaN neg false diag => Returns (NaN neg false (fix_nan diag))
  | Infinite _ => Raises InvalidOperation
  | Finite neg 0%N _ => Returns (Finite neg 0 target)
  | Finite neg coeff e =>
      if Emax <? adjusted coeff e then Raises InvalidOperation
      else if prec <? adjusted coeff e - target + 1 then Raises InvalidOperation
      else
        let c := rescale_half_up coeff e target in
        if Emax <? adjusted c target then Raises InvalidOperation
        else if prec <? Z.of_nat (length (digits_of c)) then Raises InvalidOperation
        else Returns (Finite neg c target)
  end.

(** [str(d)] for the values [quantize_cents] returns: a NaN, or a
    finite decimal whose exponent is -2, printed without exponent. *)
Definition to_str (d : decimal) : pystr :=
  match d with
  | NaN neg sig diag =>
      (if neg then py "-" else []) ++ (if sig then py "sNaN" else py "NaN") ++ diag
  | Infinite neg => (if neg then py "-" else []) ++ py "Infinity"
  | Finite neg coeff e =>
      let ds := digits_of coeff in
      let dotplace := (Z.of_nat (length ds) + e) in
      let body :=
        if dotplace <=? 0
        then py "0." ++ repeat 48%N (Z.to_nat (- dotplace)) ++ ds
        else take (Z.to_nat dotplace) ds ++ py "." ++ drop (Z.to_nat dotplace) ds in
      (if neg then py "-" else []) ++ body
  end.

End PyDecimal.

(** ** Product_Creator.py: [format_price] *)

Section FormatPrice.
Context `{PyBuiltins}.

(** [format_price(price)]: the [except (ValueError, TypeError)] clause
    handles only those two classes; any other exception leaves the
    function. *)
Definition format_price (price : pyval) : outcome pystr :=
  let body :=
    match PyDecimal.of_str (py_str price) with
    | Raises e => Raises e
    | Returns decimal_price =>
        match PyDecimal.quantize_cents decimal_price with
        | Raises e => Raises e
        | Returns formatted => Returns (PyDecimal.to_str formatted)
        end
    end in
  match body with
  | Raises e =>
      if decide (e = ValueError ∨ e = TypeError) then Returns (py_str price)
      else Raises e
  | r => r
  end.

End FormatPrice.

(** ** The [json] module *)

Module Json.

(** The whitespace the decoder skips: space, tab, line feed, carriage
    return. *)
Definition is_ws (c : N) : bool :=
  ((c =? 32) || (c =? 9) || (c =? 10) || (c =? 13))%N.
Definition skip_ws (s : pystr) : pystr := Str.drop_while is_ws s.

Definition hex_value (c : N) : option N :=
  if ((48 <=? c) && (c <=? 57))%N then Some (c - 48)%N
  else if ((97 <=? c) && (c <=? 102))%N then Some (c - 87)%N
  else if ((65 <=? c) && (c <=? 70))%N then Some (c - 55)%N
  else None.

(** The code unit written by four hexadecimal digits. *)
Definition hex4 (a b c d : N) : option N :=
  va ← hex_value a; vb ← hex_value b; vc ← hex_value c; vd ← hex_value d;
  Some (((va * 16 + vb) * 16 + vc) * 16 + vd)%N.

Definition is_high_surrogate (u : N) : bool := ((55296 <=? u) && (u <=? 56319))%N.
Definition is_low_surrogate (u : N) : bool := ((56320 <=? u) && (u <=? 57343))%N.
Definition join_surrogates (hi lo : N) : N :=
  (65536 + ((hi - 55296) * 1024 + (lo - 56320)))%N.

(** The character a one-letter escape stands for. *)
Definition simple_escape (e : N) : option N :=
  if (e =? 34)%N then Some 34%N            (* quote *)
  else if (e =? 92)%N then Some 92%N       (* backslash *)
  else if (e =? 47)%N then Some 47%N       (* slash *)
  else if (e =? 98)%N then Some 8%N        (* b: backspace *)
  else if (e =? 102)%N then Some 12%N      (* f: form feed *)
  else if (e =? 110)%N then Some 10%N      (* n: line feed *)
  else if (e =? 114)%N then Some 13%N      (* r: carriage return *)
  else if (e =? 116)%N then Some 9%N       (* t: tab *)
  else None.

(** The body of a string, after its opening quote: the decoded text
    and what follows the closing quote.  Control characters are
    refused (strict mode); a high surrogate escape directly followed by
    a low surrogate escape is one character. *)
Fixpoint scan_string (s : pystr) : option (pystr * pystr) :=
  match s with
  | [] => None
  | c :: r =>
      if (c =? 34)%N then Some ([], r)
      else if (c =? 92)%N then
        match r with
        | [] => None
        | e :: r1 =>
            if (e =? 117)%N then
              match r1 with
              | a :: b :: c4 :: d :: r2 =>
                  match hex4 a b c4 d with
                  | None => None
                  | Some uni =>
                      let single := '(t, rest) ← scan_string r2; Some (uni :: t, rest) in
                      if is_high_surrogate uni then
                        match r2 with
                        | b1 :: u1 :: r3 =>
                            if ((b1 =? 92) && (u1 =? 117))%N then
                              match r3 with
                              | a2 :: b2 :: c2 :: d2 :: r4 =>
                                  match hex4 a2 b2 c2 d2 with
                                  | None => None
                                  | Some uni2 =>
                                      if is_low_surrogate uni2
                                      then '(t, rest) ← scan_string r4;
                                           Some (join_surrogates uni uni2 :: t, rest)
                                      else single
                                  end
                              | _ => None
                              end
                            else single
                        | _ => single
                        end
                      else single
                  end
              | _ => None
              end
            else
              match simple_escape e with
              | Some ch => '(t, rest) ← scan_string r1; Some (ch :: t, rest)
              | None => None
              end
        end
      else if (c <? 32)%N then None
      else '(t, rest) ← scan_string r; Some (c :: t, rest)
  end.

(** A number: an optional minus sign, then a single 0 or a run of
    digits that does not start with 0, then an optional fraction (a dot
    and digits), then an optional exponent (e or E, an optional sign,
    digits).  It is an [int] when it has neither fraction nor exponent,
    else a float, kept as its numeral. *)
Definition scan_number (s : pystr) : option (pyval * pystr) :=
  let '(neg, r0) :=
    match s with
    | 45%N :: r => (true, r)
    | _ => (false, s)
    end in
  let '(intpart, r1) :=
    match r0 with
    | 48%N :: r => ([48%N], r)
    | _ => PyDecimal.span_digits r0
    end in
  if intpart is [] then None
  else
    let '(frac, r2) :=
      match r1 with
      | 46%N :: r =>
          match PyDecimal.span_digits r with
          | ((_ :: _) as d, t) => (46%N :: d, t)
          | _ => ([], r1)
          end
      | _ => ([], r1)
      end in
    let '(exp, r3) :=
      match r2 with
      | e :: r =>
          if ((e =? 101) || (e =? 69))%N then
            let '(sign, r') :=
              match r with
              | 45%N :: t => ([45%N], t)
              | 43%N :: t => ([43%N], t)
              | _ => ([], r)
              end in
            match PyDecimal.span_digits r' with
            | ((_ :: _) as d, t) => (e :: sign ++ d, t)
            | _ => ([], r2)
            end
          else ([], r2)
      | [] => ([], r2)
      end in
    let sign := if neg then [45%N] else [] in
    match frac, exp with
    | [], [] =>
        let v := Z.of_N (PyDecimal.digits_value intpart) in
        Some (PyInt (if neg then - v else v), r3)
    | _, _ => Some (PyFloat (sign ++ intpart ++ frac ++ exp), r3)
    end.

(** [d[k] = v] on the field list of a dict. *)
Fixpoint dict_set (k : pystr) (v : pyval) (d : list (pystr * pyval))
  : list (pystr * pyval) :=
  match d with
  | [] => [(k, v)]
  | (k', v') :: r =>
      if decide (k' = k) then (k, v) :: r else (k', v') :: dict_set k v r
  end.

(** [dict(pairs)] *)
Definition dict_of_pairs (pairs : list (pystr * pyval)) : list (pystr * pyval) :=
  fold_left (λ d kv, dict_set kv.1 kv.2 d) pairs [].

(** One value at the head of the text.  [scan_elements] reads the
    elements of an array after its first bracket, [scan_members] the
    members of an object; both are entered on a non-whitespace
    character.  [fuel] bounds the nesting and the number of items. *)
Fixpoint scan_value (fuel : nat) (s : pystr) : option (pyval * pystr) :=
  match fuel with
  | O => None
  | S fuel' =>
      match s with
      | [] => None
      | c :: r =>
          if (c =? 34)%N then
            '(t, rest) ← scan_string r; Some (PyStr t, rest)
          else if (c =? 123)%N then
            match skip_ws r with
            | [] => None
            | c' :: r' =>
                if (c' =? 125)%N then Some (PyDict [], r')
                else '(kv, rest) ← scan_members fuel' (c' :: r');
                     Some (PyDict (dict_of_pairs kv), rest)
            end
          else if (c =? 91)%N then
            match skip_ws r with
            | [] => None
            | c' :: r' =>
                if (c' =? 93)%N then Some (PyList [], r')
                else '(vs, rest) ← scan_elements fuel' (c' :: r');
                     Some (PyList vs, rest)
            end
          else if Str.startswith (py "null") s then Some (PyNone, drop 4 s)
          else if Str.startswith (py "true") s then Some (PyBool true, drop 4 s)
          else if Str.startswith (py "false") s then Some (PyBool false, drop 5 s)
          else if Str.startswith (py "NaN") s then Some (PyFloat (py "NaN"), drop 3 s)
          else if Str.startswith (py "Infinity") s then
            Some (PyFloat (py "Infinity"), drop 8 s)
          else if Str.startswith (py "-Infinity") s then
            Some (PyFloat (py "-Infinity"), drop 9 s)
          else scan_number s
      end
  end
with scan_elements (fuel : nat) (s : pystr) : option (list pyval * pystr) :=
  match fuel with
  | O => None
  | S fuel' =>
      '(v, r) ← scan_value fuel' s;
      match skip_ws r with
      | [] => None
      | c :: r' =>
          if (c =? 44)%N then
            '(vs, rest) ← scan_elements fuel' (skip_ws r'); Some (v :: vs, rest)
          else if (c =? 93)%N then Some ([v], r')
          else None
      end
  end
with scan_members (fuel : nat) (s : pystr) : option (list (pystr * pyval) * pystr) :=
  match fuel with
  | O => None
  | S fuel' =>
      match s with
      | [] => None
      | q :: r0 =>
          if (q =? 34)%N then
            '(k, r) ← scan_string r0;
            match skip_ws r with
            | [] => None
            | colon :: r1 =>
                if (colon =? 58)%N then
                  '(v, r2) ← scan_value fuel' (skip_ws r1);
                  match skip_ws r2 with
                  | [] => None
                  | c :: r3 =>
                      if (c =? 44)%N then
                        '(kv, rest) ← scan_members fuel' (skip_ws r3);
                        Some ((k, v) :: kv, rest)
                      else if (c =? 125)%N then Some ([(k, v)], r3)
                      else None
                  end
                else None
            end
          else None
      end
  end.

(** [json.loads(s)] with [fuel] for the decoder; [None] stands for
    [JSONDecodeError]. *)
Definition loads_fuel (fuel : nat) (s : pystr) : option pyval :=
  '(v, rest) ← scan_value fuel (skip_ws s);
  if skip_ws rest is [] then Some v else None.

(** [json.loads(s)]: two units of fuel for each character are enough
    for every text. *)
Definition loads (s : pystr) : option pyval :=
  loads_fuel (2 * length s + 2) s.

Definition hex_digit (n : N) : N := (if n <? 10 then 48 + n else 87 + n)%N.

(** [\uXXXX] for a code unit below 65536. *)
Definition u_escape (u : N) : pystr :=
  [92%N; 117%N; hex_digit (u / 4096); hex_digit ((u / 256) mod 16);
   hex_digit ((u / 16) mod 16); hex_digit (u mod 16)]%N.

(** How [json.dumps] writes one character ([ensure_ascii] is on). *)
Definition escape_char (c : N) : pystr :=
  if (c =? 34)%N then [92%N; 34%N]
  else if (c =? 92)%N then [92%N; 92%N]
  else if (c =? 10)%N then [92%N; 110%N]
  else if (c =? 13)%N then [92%N; 114%N]
  else if (c =? 9)%N then [92%N; 116%N]
  else if (c =? 8)%N then [92%N; 98%N]
  else if (c =? 12)%N then [92%N; 102%N]
  else if ((32 <=? c) && (c <=? 126))%N then [c]
  else if (c <? 65536)%N then u_escape c
  else
    let n := (c - 65536)%N in
    u_escape (55296 + (n / 1024) mod 1024)%N ++ u_escape (56320 + n mod 1024)%N.

Definition encode_str (s : pystr) : pystr :=
  [34%N] ++ flat_map escape_char s ++ [34%N].

(** A code point that [json.dumps] and [json.loads] carry through
    unchanged: a Unicode scalar value or a low surrogate. *)
Definition plain_char (c : N) : Prop :=
  (c < 1114112 ∧ ¬ (55296 ≤ c ≤ 56319))%N.

Section WithBuiltins.
Context `{PyBuiltins}.

(** [json.dumps(v)] with the default separators. *)
Fixpoint dumps (v : pyval) : pystr :=
  match v with
  | PyNone => py "null"
  | PyBool true => py "true"
  | PyBool false => py "false"
  | PyInt z => Str.of_Z z
  | PyFloat n => py_repr (PyFloat n)
  | PyStr s => encode_str s
  | PyList l => py "[" ++ Str.join (py ", ") (map dumps l) ++ py "]"
  | PyDict kv =>
      py "{" ++
      Str.join (py ", ")
        ((fix members (kv : list (pystr * pyval)) : list pystr :=
            match kv with
            | [] => []
            | (k, x) :: r => (encode_str k ++ py ": " ++ dumps x) :: members r
            end) kv) ++
      py "}"
  end.

End WithBuiltins.

End Json.

(** ** The remote platform *)

Inductive method := GET | POST | PUT | DELETE.

(** An [https] URL: the text put after the scheme, and the path with its
    query. *)
Record url := { url_host : pystr; url_path : pystr }.

(** The value of a [Location] header: a path on the same host, or a
    whole URL. *)
Inductive location :=
| Relative (path : pystr)
| Absolute (u : url).

(** An image of a product, as the REST resource has it. *)
Record image := {
  img_id : Z;
  img_position : option Z;
  img_created_at : option pystr;
  img_src : option pystr;
}.

Record variant := {
  var_id : Z;
  var_sku : option pystr;
  var_taxable : bool;
}.

(** A product as a response carries it; a field is [None] when the key
    is missing. *)
Record product := {
  prod_id : option Z;
  prod_title : option pystr;
  prod_created_at : option pystr;
  prod_handle : option pystr;
  prod_images : list image;
  prod_variants : list variant;
}.

(** A row of the metafield listing. *)
Record metafield_row := {
  row_id : option Z;
  row_namespace : option pystr;
  row_key : option pystr;
}.

(** The JSON object of a response body, by the keys the client reads. *)
Record body := {
  b_errors : option pyval;
  b_product : option product;
  b_products : option (list product);
  b_metafields : option (list metafield_row);
  (* [data.fileUpdate] of a GraphQL answer: its [userErrors] and [files] *)
  b_file_update : option (list pyval * list pyval);
}.

Record response := {
  rs_status : Z;
  rs_location : option location;
  rs_json : option body;   (* [None]: [response.json()] raises *)
  rs_url : url;            (* [response.url] *)
  rs_history : bool;       (* [response.history] is non-empty *)
}.

(** The place in the client that sends a request. *)
Inductive site :=
| ManageFetch | ManageDelete
| ReorderFetch | ReorderPosition | ReorderCover
| FallbackReorderFetch | FallbackReorderPosition
| UploadAttach | UploadFile | UploadRefetch
| MetafieldList | MetafieldWrite | MetafieldRetry
| TaxFetch | TaxUpdate
| CoreWrite | TitleSearch | RecentProducts | SkuFetch | Verify.

#[export] Instance site_eq_dec : EqDecision site.
Proof. solve_decision. Defined.

#[export] Instance url_eq_dec : EqDecision url.
Proof. solve_decision. Defined.

(** What a request carries besides its URL. *)
Inductive payload :=
| NoPayload
| JsonPayload (v : pyval)
| VariantsPayload (product_id : Z) (variants : list variant)
| FilePayload (index : nat) (content_type : pystr)
| AttachPayload (media_ids : list pystr) (product_gid : pystr).

Record request := {
  rq_site : site;
  rq_method : method;
  rq_url : url;
  rq_payload : payload;
  rq_allow_redirects : bool;
}.

(** A request is answered, or the transport raises. *)
Inductive http_result :=
| Answer (r : response)
| Failure (e : exn).

(** A call of the variant generator: the product it is given and the
    store domain that [config] and its own module hold at that time. *)
Record delegation := {
  dl_product_id : Z;
  dl_title : pystr;
  dl_colour_images : option pyval;
  dl_config_domain : pystr;
  dl_bandit_domain : pystr;
}.

(** What the client does that the outside can see. *)
Inductive event :=
| Sent (r : request)
| Delegated (d : delegation).

(** The dict a step of the workflow returns.  [res_errors] is [None]
    when the dict has no ["errors"] key. *)
Inductive failure :=
| BadStatus (item : pystr) (status : Z)
| Raised (item : pystr) (e : exn)
| Rejected (item : pystr).

Record result := {
  res_success : bool;
  res_errors : option (list failure);
}.

Definition empty_product : product :=
  {| prod_id := None; prod_title := None; prod_created_at := None;
     prod_handle := None; prod_images := []; prod_variants := [] |}.

(** [response.ok] *)
Definition rs_ok (r : response) : bool := negb ((400 <=? rs_status r) && (rs_status r <? 600)).

Definition is_redirect (status : Z) : bool :=
  bool_decide (status ∈ [301; 302; 303; 307; 308]).

Definition is_200_201 (status : Z) : bool := bool_decide (status ∈ [200; 201]).

(** ** The client monad *)

Section Client.
Context `{PyBuiltins}.

(** The platform: a state and the answer to one request. *)
Context {W : Type}.
Variable send : W → request → http_result * W.

(** The variant generator, [Price_Bandit.process_product]: [None] when
    the module cannot be imported.  It acts on the platform and returns
    a truth value or raises. *)
Variable process_product : option (W → delegation → outcome bool * W).

(** Whether a [created_at] text, read by [datetime.fromisoformat] with
    its zone dropped, is at most one minute before the clock of the
    run; false when the text cannot be read. *)
Variable created_within_last_minute : pystr → bool.

(** The constants [from config import ...] binds in [Product_Creator]. *)
Variable STORE_DOMAIN : pystr.
Variable API_VERSION : pystr.

(** The state of a run: the platform, what was done so far, and the two
    module attributes the delegation step assigns to. *)
Record state := {
  remote : W;
  trace : list event;
  config_STORE_DOMAIN : pystr;
  bandit_STORE_DOMAIN : pystr;
}.

Definition M (A : Type) : Type := state → outcome A * state.

Definition ret {A} (a : A) : M A := λ σ, (Returns a, σ).
Definition raise {A} (e : exn) : M A := λ σ, (Raises e, σ).
Definition bind {A B} (m : M A) (k : A → M B) : M B :=
  λ σ, match m σ with
       | (Returns a, σ') => k a σ'
       | (Raises e, σ') => (Raises e, σ')
       end.

#[local] Instance M_ret : MRet M := @ret.
#[local] Instance M_bind : MBind M := λ A B k m, bind m k.

(** [try: m except Exception as e: handler e] *)
Definition try_except {A} (m : M A) (handler : exn → M A) : M A :=
  λ σ, match m σ with
       | (Returns a, σ') => (Returns a, σ')
       | (Raises e, σ') => handler e σ'
       end.

(** [try: m finally: cleanup] *)
Definition try_finally {A} (m : M A) (cleanup : M unit) : M A :=
  λ σ, match m σ with
       | (r, σ') =>
           match cleanup σ' with
           | (Returns _, σ'') => (r, σ'')
           | (Raises e, σ'') => (Raises e, σ'')
           end
       end.

Definition of_outcome {A} (o : outcome A) : M A :=
  match o with
  | Returns a => ret a
  | Raises e => raise e
  end.

Definition emit (ev : event) : M unit :=
  λ σ, (Returns tt, {| remote := remote σ; trace := trace σ ++ [ev];
                       config_STORE_DOMAIN := config_STORE_DOMAIN σ;
                       bandit_STORE_DOMAIN := bandit_STORE_DOMAIN σ |}).

(** One call of [requests]: the request is recorded and the platform
    answers or the transport raises. *)
Definition http (r : request) : M response :=
  λ σ, let '(a, w) := send (remote σ) r in
       let σ' := {| remote := w; trace := trace σ ++ [Sent r];
                    config_STORE_DOMAIN := config_STORE_DOMAIN σ;
                    bandit_STORE_DOMAIN := bandit_STORE_DOMAIN σ |} in
       match a with
       | Answer rs => (Returns rs, σ')
       | Failure e => (Raises e, σ')
       end.

(** [response.json()] *)
Definition json_of (r : response) : M body :=
  match rs_json r with
  | Some b => ret b
  | None => raise JSONDecodeError
  end.

(** [headers.get('Location', url)], made absolute as the client does
    for a value that starts with a slash. *)
Definition redirect_target (u : url) (r : response) : url :=
  match rs_location r with
  | None => u
  | Some (Relative p) => {| url_host := url_host u; url_path := p |}
  | Some (Absolute v) => v
  end.

(** The recurring pattern: send without following redirects and, on a
    redirect status, send again to the redirect target with the same
    method, this time letting [requests] follow. *)
Definition first_attempt (s : site) (m : method) (u : url) (p : payload) : request :=
  {| rq_site := s; rq_method := m; rq_url := u;
     rq_payload := p; rq_allow_redirects := false |}.
Definition second_attempt (s : site) (m : method) (u : url) (p : payload) : request :=
  {| rq_site := s; rq_method := m; rq_url := u;
     rq_payload := p; rq_allow_redirects := true |}.
Definition send_keeping_method (s : site) (m : method) (u : url) (p : payload)
  : M response :=
  response ← http (first_attempt s m u p);
  if is_redirect (rs_status response) then
    http (second_attempt s m (redirect_target u response) p)
  else ret response.

(** [for x in l: acc = step acc x] *)
Fixpoint for_each {A B} (l : list A) (acc : B) (step : B → A → M B) : M B :=
  match l with
  | [] => ret acc
  | x :: r => acc' ← step acc x; for_each r acc' step
  end.

(** [STORE_DOMAIN.replace("https://", "").replace("http://", "").rstrip("/")] *)
Definition default_domain : pystr :=
  Str.rstrip_char 47%N
    (Str.replace (py "http://") [] (Str.replace (py "https://") [] STORE_DOMAIN)).

(** [shopify_domain or <default>] *)
Definition domain_or_default (shopify_domain : option pystr) : pystr :=
  match shopify_domain with
  | Some ((_ :: _) as d) => d
  | _ => default_domain
  end.

(** [/admin/api/{API_VERSION}/products/{product_id}.json] and the paths
    below a product. *)
Definition api_path (rest : pystr) : pystr :=
  py "/admin/api/" ++ API_VERSION ++ rest.
Definition product_path (product_id : Z) : pystr :=
  api_path (py "/products/" ++ Str.of_Z product_id ++ py ".json").
Definition product_sub_path (product_id : Z) (rest : pystr) : pystr :=
  api_path (py "/products/" ++ Str.of_Z product_id ++ rest).

(** The normalisation of a keep-list entry: the trailing path segment
    of a [gid://] identifier, else [str] of the entry. *)
Definition normalize_media_id (media_id : pyval) : pystr :=
  match media_id with
  | PyStr s =>
      if Str.startswith (py "gid://") s then Str.last_segment 47%N s else s
  | _ => py_str media_id
  end.

Definition keep_set (shopify_media_ids : list pyval) : gset pystr :=
  list_to_set (normalize_media_id <$> shopify_media_ids).

(** *** [manage_product_media] *)

(** The two requests of [manage_product_media]; both go to
    [STORE_DOMAIN] as it is. *)
Definition manage_fetch_request (product_id : Z) : request :=
  {| rq_site := ManageFetch; rq_method := GET;
     rq_url := {| url_host := STORE_DOMAIN; url_path := product_path product_id |};
     rq_payload := NoPayload; rq_allow_redirects := true |}.
Definition manage_delete_request (product_id : Z) (media_id : pystr) : request :=
  {| rq_site := ManageDelete; rq_method := DELETE;
     rq_url := {| url_host := STORE_DOMAIN;
                  url_path := product_sub_path product_id
                                (py "/images/" ++ media_id ++ py ".json") |};
     rq_payload := NoPayload; rq_allow_redirects := true |}.

(** The body of the deletion loop for one media id: the updated
    [(removed_count, errors)]. *)
Definition delete_media (product_id : Z) (acc : Z * list failure) (media_id : pystr)
  : M (Z * list failure) :=
  let '(removed_count, errors) := acc in
  try_except
    (delete_response ← http (manage_delete_request product_id media_id);
     if rs_ok delete_response || (rs_status delete_response =? 204)
     then ret (removed_count + 1, errors)
     else ret (removed_count, errors ++ [BadStatus media_id (rs_status delete_response)]))
    (λ e, ret (removed_count, errors ++ [Raised media_id e])).

(** The ids the loop over [existing_media] collects in
    [media_to_remove]. *)
Definition media_to_remove (existing_media : list image) (keep_ids : gset pystr)
  : list pystr :=
  omap (λ media, let media_id := Str.of_Z (img_id media) in
                 if decide (media_id ∈ keep_ids) then None else Some media_id)
       existing_media.

Record manage_result := {
  mr_success : bool;
  mr_removed_count : option Z;
  mr_errors : option (list failure);
}.

Definition manage_product_media (product_id : Z) (shopify_media_ids_to_keep : list pyval)
  : M manage_result :=
  try_except
    (response ← http (manage_fetch_request product_id);
     if negb (rs_ok response) then
       ret {| mr_success := false; mr_removed_count := None; mr_errors := None |}
     else
       b ← json_of response;
       let product_data := default empty_product (b_product b) in
       let existing_media := prod_images product_data in
       let keep_ids := keep_set shopify_media_ids_to_keep in
       '(removed_count, errors) ←
         for_each (media_to_remove existing_media keep_ids) (0, []) (delete_media product_id);
       ret {| mr_success := bool_decide (errors = []);
              mr_removed_count := Some removed_count;
              mr_errors := Some errors |})
    (λ e, ret {| mr_success := false; mr_removed_count := Some 0;
                 mr_errors := Some [Raised (py "managing product media") e] |}).

(** *** [reorder_product_media_by_order] *)

(** [a < b] and [a <= b] on text: by code points, a proper prefix
    first. *)
Fixpoint str_lt (a b : pystr) : bool :=
  match a, b with
  | _, [] => false
  | [], _ :: _ => true
  | x :: a', y :: b' => (x <? y)%N || ((x =? y)%N && str_lt a' b')
  end.

(** A stable sort: an element goes in front of the first one that is
    not below it. *)
Fixpoint insert_sorted {A} (le : A → A → bool) (x : A) (l : list A) : list A :=
  match l with
  | [] => [x]
  | y :: r => if le x y then x :: l else y :: insert_sorted le x r
  end.
Definition stable_sort {A} (le : A → A → bool) (l : list A) : list A :=
  foldr (insert_sorted le) [] l.

(** The key [(created_at or '', id)] of the sort of the new uploads,
    and its order. *)
Definition upload_key (x : image) : pystr * Z :=
  (default [] (img_created_at x), img_id x).
Definition upload_key_le (x y : image) : bool :=
  let '(c1, i1) := upload_key x in
  let '(c2, i2) := upload_key y in
  str_lt c1 c2 || (bool_decide (c1 = c2) && (i1 <=? i2)).

(** [x.get('position', 999)] *)
Definition position_key_le (x y : image) : bool :=
  default 999 (img_position x) <=? default 999 (img_position y).

Definition image_key (img : image) : pystr := Str.of_Z (img_id img).

(** [new_upload_ids]: the images that are not in the keep list, oldest
    first. *)
Definition new_upload_ids (existing_images : list image) (normalized_keep_ids : gset pystr)
  : list pystr :=
  let new_upload_images :=
    filter (λ img, image_key img ∉ normalized_keep_ids) existing_images in
  image_key <$> stable_sort upload_key_le new_upload_images.

(** An entry of [media_order]. *)
Record order_item := {
  oi_type : option pystr;
  oi_id : option pyval;
  oi_position : option Z;
}.

(** [position_map.values()] *)
Definition map_values (position_map : gmap Z pystr) : list pystr :=
  (map_to_list position_map).*2.

(** One round of the loop over [media_order]: the position map and
    [upload_positions_processed] after the item. *)
Definition place_item (existing_images : list image) (new_ids : list pystr)
    (st : gmap Z pystr * nat) (item : order_item) : gmap Z pystr * nat :=
  let '(position_map, upload_positions_processed) := st in
  let all_image_ids := image_key <$> existing_images in
  let position :=
    default (Z.of_nat (size position_map) + 1) (oi_position item) in
  if decide (oi_type item = Some (py "shopify")) then
    let media_id := py_str (default (PyStr []) (oi_id item)) in
    if decide (media_id ∈ all_image_ids) then
      (<[position := media_id]> position_map, upload_positions_processed)
    else
      let numeric_id :=
        if Str.contains (py "gid://") media_id
        then Str.last_segment 47%N media_id else media_id in
      match list_find (λ img_id, img_id = numeric_id) all_image_ids with
      | Some (_, img_id) =>
          (<[position := img_id]> position_map, upload_positions_processed)
      | None => st
      end
  else if decide (oi_type item = Some (py "upload")) then
    match new_ids !! upload_positions_processed with
    | Some image_id =>
        (<[position := image_id]> position_map, S upload_positions_processed)
    | None =>
        let remaining_images :=
          filter (λ img, image_key img ∉ map_values position_map) existing_images in
        match stable_sort position_key_le remaining_images with
        | first :: _ =>
            (<[position := image_key first]> position_map, S upload_positions_processed)
        | [] => st
        end
    end
  else st.

(** The [position_map] the loop over [media_order] computes. *)
Definition compute_position_map (media_order : list order_item)
    (existing_images : list image) (shopify_media_ids : list pyval)
  : gmap Z pystr :=
  let new_ids := new_upload_ids existing_images (keep_set shopify_media_ids) in
  (foldl (place_item existing_images new_ids) (∅, O) media_order).1.

(** [sorted(position_map.items())] *)
Definition sorted_items (position_map : gmap Z pystr) : list (Z * pystr) :=
  stable_sort (λ a b, a.1 <=? b.1) (map_to_list position_map).

(** [min(position_map.keys())] of a non-empty map. *)
Definition min_key (position_map : gmap Z pystr) : option Z :=
  match (map_to_list position_map).*1 with
  | [] => None
  | k :: ks => Some (foldr Z.min k ks)
  end.

Definition image_url (domain : pystr) (product_id : Z) (image_id : pystr) : url :=
  {| url_host := domain;
     url_path := product_sub_path product_id (py "/images/" ++ image_id ++ py ".json") |}.

Definition position_payload (image_id position : Z) : payload :=
  JsonPayload (PyDict [(py "image", PyDict [(py "id", PyInt image_id);
                                             (py "position", PyInt position)])]).

Definition cover_payload (product_id image_id : Z) : payload :=
  JsonPayload (PyDict [(py "product", PyDict [(py "id", PyInt product_id);
                                               (py "image", PyDict [(py "id", PyInt image_id)])])]).

Definition cover_url (domain : pystr) (product_id : Z) : url :=
  {| url_host := domain; url_path := product_path product_id |}.

(** One round of the loop that writes the positions back. *)
Definition update_position (domain : pystr) (product_id : Z)
    (errors : list failure) (entry : Z * pystr) : M (list failure) :=
  let '(position, image_id) := entry in
  match py_int image_id with
  | None => raise ValueError
  | Some n =>
      update_response ←
        send_keeping_method ReorderPosition PUT (image_url domain product_id image_id)
                            (position_payload n position);
      if rs_ok update_response then ret errors
      else ret (errors ++ [BadStatus image_id (rs_status update_response)])
  end.

(** The block that makes the image of the least position the main
    image; whatever it raises is logged and dropped. *)
Definition set_main_image (domain : pystr) (product_id : Z)
    (position_map : gmap Z pystr) : M unit :=
  match min_key position_map with
  | None => ret tt
  | Some first_position =>
      match position_map !! first_position with
      | None => raise KeyError
      | Some first_image_id =>
          try_except
            (match py_int first_image_id with
             | None => raise ValueError
             | Some n =>
                 _ ← send_keeping_method ReorderCover PUT
                       (cover_url domain product_id) (cover_payload product_id n);
                 ret tt
             end)
            (λ _, ret tt)
      end
  end.

Definition reorder_fetch_request (domain : pystr) (product_id : Z) : request :=
  {| rq_site := ReorderFetch; rq_method := GET;
     rq_url := {| url_host := domain; url_path := product_path product_id |};
     rq_payload := NoPayload; rq_allow_redirects := true |}.

Definition reorder_product_media_by_order (product_id : Z)
    (media_order : list order_item) (shopify_media_ids : list pyval)
    (shopify_domain : option pystr) : M result :=
  try_except
    (if media_order is [] then ret {| res_success := true; res_errors := None |}
     else
       let domain := domain_or_default shopify_domain in
       response ← http (reorder_fetch_request domain product_id);
       if negb (rs_ok response) then
         ret {| res_success := false; res_errors := None |}
       else
         b ← json_of response;
         let product_data := default empty_product (b_product b) in
         let existing_images := prod_images product_data in
         let position_map :=
           compute_position_map media_order existing_images shopify_media_ids in
         errors ← for_each (sorted_items position_map) []
                           (update_position domain product_id);
         _ ← set_main_image domain product_id position_map;
         ret {| res_success := bool_decide (errors = []); res_errors := Some errors |})
    (λ e, ret {| res_success := false;
                 res_errors := Some [Raised (py "reordering product media by order") e] |}).

(** *** [reorder_product_media], the fallback without [media_order] *)

Definition fallback_position (product_id : Z) (existing_images : list image)
    (st : Z * list failure) (media_id : pyval) : M (Z * list failure) :=
  let '(position, errors) := st in
  let key := normalize_media_id media_id in
  match list_find (λ img, image_key img = key) (reverse existing_images) with
  | Some (_, img) =>
      update_response ←
        http {| rq_site := FallbackReorderPosition; rq_method := PUT;
                rq_url := image_url STORE_DOMAIN product_id (image_key img);
                rq_payload := position_payload (img_id img) position;
                rq_allow_redirects := true |};
      if rs_ok update_response then ret (position + 1, errors)
      else ret (position + 1, errors ++ [BadStatus key (rs_status update_response)])
  | None => ret (position + 1, errors)
  end.

Definition reorder_product_media (product_id : Z) (shopify_media_ids_in_order : list pyval)
  : M result :=
  try_except
    (if shopify_media_ids_in_order is [] then
       ret {| res_success := true; res_errors := None |}
     else
       response ←
         http {| rq_site := FallbackReorderFetch; rq_method := GET;
                 rq_url := {| url_host := STORE_DOMAIN; url_path := product_path product_id |};
                 rq_payload := NoPayload; rq_allow_redirects := true |};
       if negb (rs_ok response) then
         ret {| res_success := false; res_errors := None |}
       else
         b ← json_of response;
         let existing_images := prod_images (default empty_product (b_product b)) in
         '(_, errors) ← for_each shopify_media_ids_in_order (1, [])
                                 (fallback_position product_id existing_images);
         ret {| res_success := bool_decide (errors = []); res_errors := Some errors |})
    (λ e, ret {| res_success := false;
                 res_errors := Some [Raised (py "reordering product media") e] |}).

(** *** [upload_media_to_product] *)

(** A new file: its name and declared content type. *)
Record media_file := {
  file_name : pystr;
  file_content_type : pystr;
}.

(** The global id the attach step sends for a kept media id. *)
Definition media_global_id (media_id : pyval) : pystr :=
  let media_id_str := py_str media_id in
  if forallb PyDecimal.is_digit media_id_str && negb (bool_decide (media_id_str = []))
  then py "gid://shopify/MediaImage/" ++ media_id_str
  else if Str.startswith (py "gid://shopify/") media_id_str then media_id_str
  else py "gid://shopify/MediaImage/" ++ media_id_str.

(** The GraphQL call that links existing files to the product; its
    failures are collected. *)
Definition attach_existing (graphql_domain : pystr) (product_id : Z)
    (shopify_media_ids : list pyval) (errors : list failure) : M (list failure) :=
  try_except
    (response ←
       send_keeping_method UploadAttach POST
         {| url_host := graphql_domain; url_path := api_path (py "/graphql.json") |}
         (AttachPayload (media_global_id <$> shopify_media_ids)
                        (py "gid://shopify/Product/" ++ Str.of_Z product_id));
     if rs_status response =? 200 then
       data ← json_of response;
       match b_errors data, b_file_update data with
       | Some _, _ => ret (errors ++ [Rejected (py "GraphQL errors")])
       | None, Some (user_errors, files) =>
           let errors := errors ++ ((λ _, Rejected (py "User error")) <$> user_errors) in
           if files is [] then ret (errors ++ [Rejected (py "No files were attached")])
           else ret errors
       | None, None => ret (errors ++ [Rejected (py "Invalid response format")])
       end
     else ret (errors ++ [BadStatus (py "attach") (rs_status response)]))
    (λ e, ret (errors ++ [Raised (py "attaching existing media files") e])).

(** The upload of the [i]-th new file: a video goes to the media
    endpoint, anything else to the images endpoint. *)
Definition upload_file (domain : pystr) (product_id : Z)
    (st : nat * list failure) (file : media_file) : M (nat * list failure) :=
  let '(i, errors) := st in
  try_except
    (let is_video := Str.startswith (py "video/") (file_content_type file) in
     let endpoint := if is_video then py "/media.json" else py "/images.json" in
     response ←
       send_keeping_method UploadFile POST
         {| url_host := domain; url_path := product_sub_path product_id endpoint |}
         (FilePayload (S i) (file_content_type file));
     if is_200_201 (rs_status response) then
       _ ← json_of response; ret (S i, errors)
     else ret (S i, errors ++ [BadStatus (file_name file) (rs_status response)]))
    (λ e, ret (S i, errors ++ [Raised (file_name file) e])).

(** [upload_media_to_product]; the names given to the uploaded files
    are left out. *)
Definition upload_media_to_product (product_id : Z) (media_files : list media_file)
    (shopify_media_ids : option (list pyval)) (shopify_domain : option pystr)
  : M result :=
  try_except
    (let domain := domain_or_default shopify_domain in
     let ids := default [] shopify_media_ids in
     if (length media_files + length ids =? 0)%nat then
       ret {| res_success := true; res_errors := None |}
     else
       errors ← (if ids is [] then ret []
                 else attach_existing (domain_or_default shopify_domain) product_id ids []);
       '(_, errors) ← for_each media_files (O, errors) (upload_file domain product_id);
       _ ← try_except
             (get_response ←
                http {| rq_site := UploadRefetch; rq_method := GET;
                        rq_url := {| url_host := STORE_DOMAIN;
                                     url_path := product_path product_id |};
                        rq_payload := NoPayload; rq_allow_redirects := true |};
              if rs_status get_response =? 200 then _ ← json_of get_response; ret tt
              else ret tt)
             (λ _, ret tt);
       ret {| res_success := bool_decide (errors = []); res_errors := Some errors |})
    (λ e, ret {| res_success := false;
                 res_errors := Some [Raised (py "uploading media files") e] |}).

(** *** [update_product_taxable] *)

Definition tax_fetch_request (product_id : Z) : request :=
  {| rq_site := TaxFetch; rq_method := GET;
     rq_url := {| url_host := STORE_DOMAIN; url_path := product_path product_id |};
     rq_payload := NoPayload; rq_allow_redirects := true |}.

Definition update_product_taxable (product_id : Z) (taxable : bool) : M bool :=
  try_except
    (let u := {| url_host := STORE_DOMAIN; url_path := product_path product_id |} in
     response ← http (tax_fetch_request product_id);
     if negb (rs_status response =? 200) then ret false
     else
       b ← json_of response;
       match b_product b with
       | None => raise KeyError
       | Some product_data =>
           let variants :=
             (λ v, {| var_id := var_id v; var_sku := var_sku v; var_taxable := taxable |})
               <$> prod_variants product_data in
           update_response ←
             http {| rq_site := TaxUpdate; rq_method := PUT; rq_url := u;
                     rq_payload := VariantsPayload product_id variants;
                     rq_allow_redirects := true |};
           if rs_status update_response =? 200 then
             _ ← json_of update_response; ret true
           else ret false
       end)
    (λ _, ret false).

(** *** [create_metafields] *)

(** An entry of [metafields_data]; a field is [None] when the key is
    missing. *)
Record metafield_data := {
  md_namespace : option pystr;
  md_key : option pystr;
  md_value : option pyval;
  md_type : option pystr;
}.

Definition is_list_type (mf_type : pystr) : bool :=
  Str.startswith (py "list.") mf_type.

Definition is_blank (s : pystr) : bool := bool_decide (Str.strip s = []).

(** [metafield_data.get("type", d) or d] *)
Definition type_of (md : metafield_data) : pystr :=
  match md_type md with
  | Some ((_ :: _) as t) => t
  | _ => py "single_line_text_field"
  end.

(** The value after the two normalisation blocks: a list type gets a
    bracketed text, wrapped by [json.dumps] when the text is not
    bracketed yet, and [["-"]] for a blank text or [[]]; another type
    gets ["-"] for a blank text or [None]. *)
Definition normalize_value (raw_value : pyval) (mf_type : pystr) : pyval :=
  let formatted_value :=
    match raw_value with
    | PyStr s =>
        if negb (is_blank s) && is_list_type mf_type then
          let v := Str.strip s in
          let is_json_array := Str.startswith (py "[") v && Str.endswith (py "]") v in
          if is_json_array then PyStr v else PyStr (Json.dumps (PyList [PyStr v]))
        else raw_value
    | _ => raw_value
    end in
  if negb (is_list_type mf_type) then
    match formatted_value with
    | PyStr s => if is_blank s then PyStr (py "-") else formatted_value
    | PyNone => PyStr (py "-")
    | _ => formatted_value
    end
  else
    match formatted_value with
    | PyStr s =>
        let stripped := Str.strip s in
        if bool_decide (stripped = []) || bool_decide (stripped = py "[]")
        then PyStr (Json.dumps (PyList [PyStr (py "-")]))
        else formatted_value
    | _ => formatted_value
    end.

(** [key == "subcategory" or key.startswith("subcategory_")] for a
    non-empty key in namespace [custom]. *)
Definition is_subcategory_key (namespace key : pystr) : bool :=
  bool_decide (namespace = py "custom")
  && negb (bool_decide (key = []))
  && (bool_decide (key = py "subcategory") || Str.startswith (py "subcategory_") key).

(** [hash(v)] does not raise. *)
Definition hashable (v : pyval) : bool :=
  match v with
  | PyList _ | PyDict _ => false
  | _ => true
  end.

(** What the filter on the local choices does to the value. *)
Inductive filtered_value :=
| SkipAttribute
| SendValue (v : pyval).

(** The [try] block that filters a subcategory value to the choices of
    its key.  Whatever the block raises leaves the value as it was. *)
Definition filter_to_choices (key : pystr) (formatted_value : pyval) : filtered_value :=
  let allowed : gset pystr := list_to_set (Categories.get_metafield_choices key) in
  if decide (allowed = ∅) then SendValue formatted_value
  else
    let parsed :=
      match formatted_value with
      | PyStr s => Json.loads s
      | v => Some v
      end in
    match parsed with
    | None => SendValue formatted_value            (* [json.loads] raised *)
    | Some (PyList items) =>
        let filtered := filter (λ v, Str.strip (py_str v) ∈ allowed) items in
        if negb (length filtered =? length items)%nat && negb (forallb hashable items)
        then SendValue formatted_value             (* [set(parsed)] raised *)
        else if filtered is [] then SkipAttribute
        else SendValue (PyStr (Json.dumps (PyList filtered)))
    | Some _ => SendValue formatted_value
    end.

(** The text from the last occurrence of [c] backwards: the longest
    prefix that ends in [c]. *)
Definition through_last (c : N) (s : pystr) : option pystr :=
  match Str.drop_while (λ x, negb (x =? c)%N) (rev s) with
  | [] => None
  | r => Some (rev r)
  end.

(** A match of [\s*(\[.*\])] at the head of the text, dot matching
    every character: the group. *)
Definition match_choice_list (s : pystr) : option pystr :=
  match Str.drop_while Str.isspace s with
  | 91%N :: r => (λ b, 91%N :: b) <$> through_last 93%N r
  | _ => None
  end.

(** [re.search(r'choices:\s*(\[.*\])', s, re.DOTALL)]: the group of the
    leftmost match. *)
Fixpoint search_choices (s : pystr) : option pystr :=
  match (if Str.startswith (py "choices:") s then match_choice_list (drop 8 s) else None) with
  | Some g => Some g
  | None =>
      match s with
      | [] => None
      | _ :: r => search_choices r
      end
  end.

(** [_match_choice(v)]: the stripped text when it is a choice, else
    the first choice that equals it after stripping or up to case.  A
    choice that is not text raises. *)
Fixpoint first_matching (s : pystr) (allowed : list pyval) : outcome (option pystr) :=
  match allowed with
  | [] => Returns None
  | PyStr a :: r =>
      if bool_decide (Str.strip a = s) || bool_decide (py_lower (Str.strip a) = py_lower s)
      then Returns (Some a)
      else first_matching s r
  | _ :: _ => Raises AttributeError
  end.
(** [s in allowed] for a text [s]. *)
Definition text_in (s : pystr) (allowed : list pyval) : bool :=
  existsb (λ a, if a is PyStr t then bool_decide (t = s) else false) allowed.
Definition _match_choice (allowed : list pyval) (v : pyval) : outcome (option pystr) :=
  let s := Str.strip (py_str v) in
  if text_in s allowed then Returns (Some s) else first_matching s allowed.

(** [existing_by_ns_key]: the listing folded into a dict from
    [(namespace, key)] to the [id] of the row. *)
Definition existing_identities (rows : list metafield_row)
  : gmap (pystr * pystr) (option Z) :=
  foldl (λ m mf,
           let ns := default [] (row_namespace mf) in
           let k := default [] (row_key mf) in
           if negb (bool_decide (ns = [])) && negb (bool_decide (k = []))
           then <[(ns, k) := row_id mf]> m else m)
        ∅ rows.

Definition metafields_base (domain : pystr) (product_id : Z) : pystr :=
  api_path (py "/products/" ++ Str.of_Z product_id).

(** The one fetch of the existing metafields; a failure of any kind
    leaves the dict empty. *)
Definition metafield_list_request (domain : pystr) (product_id : Z) : request :=
  {| rq_site := MetafieldList; rq_method := GET;
     rq_url := {| url_host := domain;
                  url_path := metafields_base domain product_id
                                ++ py "/metafields.json?limit=250" |};
     rq_payload := NoPayload; rq_allow_redirects := true |}.
Definition fetch_existing (domain : pystr) (product_id : Z)
  : M (gmap (pystr * pystr) (option Z)) :=
  try_except
    (resp ← http (metafield_list_request domain product_id);
     if rs_status resp =? 200 then
       b ← json_of resp;
       ret (existing_identities (default [] (b_metafields b)))
     else ret ∅)
    (λ _, ret ∅).

(** The id the dict gives for an identity, when it is a true value. *)
Definition lookup_existing (existing : gmap (pystr * pystr) (option Z))
    (namespace key : pystr) : option Z :=
  match existing !! (namespace, key) with
  | Some (Some id) => if id =? 0 then None else Some id
  | _ => None
  end.

(** The body of a write: an update carries the value alone, a create
    the whole identity. *)
Definition metafield_payload (existing_id : option Z) (namespace key : pystr)
    (formatted_value : pyval) (mf_type : pystr) : payload :=
  match existing_id with
  | Some _ =>
      JsonPayload (PyDict [(py "metafield", PyDict [(py "value", formatted_value)])])
  | None =>
      JsonPayload (PyDict [(py "metafield",
                            PyDict [(py "namespace", PyStr namespace);
                                    (py "key", PyStr key);
                                    (py "value", formatted_value);
                                    (py "type", PyStr mf_type)])])
  end.

Definition metafield_method (existing_id : option Z) : method :=
  if existing_id is Some _ then PUT else POST.

Definition metafield_url (domain : pystr) (product_id : Z) (existing_id : option Z) : url :=
  {| url_host := domain;
     url_path :=
       match existing_id with
       | Some id => metafields_base domain product_id
                      ++ py "/metafields/" ++ Str.of_Z id ++ py ".json"
       | None => metafields_base domain product_id ++ py "/metafields.json"
       end |}.

(** [get(k)] on a value that has to be a dict. *)
Definition dict_get (k : pystr) (v : pyval) : outcome (option pyval) :=
  match v with
  | PyDict kv => Returns ((λ r : nat * (pystr * pyval), r.2.2) <$> list_find (λ e, e.1 = k) kv)
  | _ => Raises AttributeError
  end.

(** [err_str]: the first entry of [errors.value] when that is a list,
    else [str] of it.  [None] when the expression raises or the entry
    is not a text. *)
Definition choices_error_text (err_data : body) : option pystr :=
  let errors :=
    match b_errors err_data with
    | Some e => if py_truthy e then e else PyDict []
    | None => PyDict []
    end in
  match dict_get (py "value") errors with
  | Raises _ => None
  | Returns v =>
      let err_val :=
        match v with
        | Some x => if py_truthy x then x else PyList []
        | None => PyList []
        end in
      match err_val with
      | PyList (PyStr t :: _) => Some t
      | PyList _ => None
      | x => Some (py_str x)
      end
  end.

(** The choices the platform lists in its refusal, as decoded. *)
Definition allowed_from_error (err_str : pystr) : option (list pyval) :=
  if Str.contains (py "does not exist in provided choices") err_str
     && Str.contains (py "[") err_str
  then
    g ← search_choices err_str;
    let allowed_json :=
      Str.rstrip_char 46%N
        (Str.replace [92%N; 47%N] [47%N] (Str.replace [92%N; 34%N] [34%N] g)) in
    v ← Json.loads allowed_json;
    match v with
    | PyList items => if forallb hashable items then Some items else None
    | _ => None
    end
  else None.

(** [_match_choice] over the parsed value: the canonical strings of the
    entries that match, or [None] when a comparison raises. *)
Fixpoint match_all (allowed : list pyval) (parsed : list pyval) : option (list pystr) :=
  match parsed with
  | [] => Some []
  | v :: r =>
      match _match_choice allowed v with
      | Raises _ => None
      | Returns c =>
          rest ← match_all allowed r;
          match c with
          | Some ((_ :: _) as a) => Some (a :: rest)
          | _ => Some rest
          end
      end
  end.

(** The value the retry sends, when the refusal lists choices and at
    least one entry of the value matches one of them.  The set of
    choices is walked in the order of the list in the message. *)
Definition retry_value (err_data : body) (formatted_value : pyval) : option pyval :=
  err_str ← choices_error_text err_data;
  allowed ← allowed_from_error err_str;
  parsed ← match formatted_value with
           | PyStr s => Json.loads s
           | v => Some v
           end;
  match parsed with
  | PyList items =>
      if allowed is [] then None
      else
        filtered ← match_all allowed items;
        if filtered is [] then None
        else Some (PyStr (Json.dumps (PyList (PyStr <$> filtered))))
  | _ => None
  end.

Definition metafield_label (md : metafield_data) : pystr :=
  default (py "None") (md_namespace md) ++ py "." ++ default (py "None") (md_key md).

(** The [try] block after a 422 on a subcategory key: true when the
    retry was sent and accepted. *)
Definition retry_request (domain : pystr) (product_id : Z) (existing_id : option Z)
    (namespace key mf_type : pystr) (v : pyval) : request :=
  {| rq_site := MetafieldRetry; rq_method := metafield_method existing_id;
     rq_url := metafield_url domain product_id existing_id;
     rq_payload := metafield_payload existing_id namespace key v mf_type;
     rq_allow_redirects := true |}.
Definition retry_after_422 (domain : pystr) (product_id : Z) (existing_id : option Z)
    (namespace key mf_type : pystr) (response : response) (formatted_value : pyval)
  : M bool :=
  try_except
    (err_data ← json_of response;
     match retry_value err_data formatted_value with
     | None => ret false
     | Some v =>
         retry_resp ←
           http (retry_request domain product_id existing_id namespace key mf_type v);
         ret (is_200_201 (rs_status retry_resp))
     end)
    (λ _, ret false).

(** The value of an entry as it is sent first, or the decision to
    leave the entry out: the normalised value, filtered to the choices
    of the key for a list type under a subcategory key. *)
Definition value_to_send (md : metafield_data) : filtered_value :=
  let raw_value := default (PyStr []) (md_value md) in
  let mf_type := type_of md in
  let namespace := default (py "custom") (md_namespace md) in
  let key := default [] (md_key md) in
  if is_list_type mf_type && is_subcategory_key namespace key
  then filter_to_choices key (normalize_value raw_value mf_type)
  else SendValue (normalize_value raw_value mf_type).

(** One round of the loop over [metafields_data]: the updated
    [(success_count, errors)]. *)
Definition process_metafield (domain : pystr) (product_id : Z)
    (existing : gmap (pystr * pystr) (option Z))
    (acc : Z * list failure) (md : metafield_data) : M (Z * list failure) :=
  let '(success_count, errors) := acc in
  try_except
    (let mf_type := type_of md in
     let namespace := default (py "custom") (md_namespace md) in
     let key := default [] (md_key md) in
     match value_to_send md with
     | SkipAttribute => ret (success_count, errors)
     | SendValue formatted_value =>
         let existing_id := lookup_existing existing namespace key in
         response ←
           send_keeping_method MetafieldWrite (metafield_method existing_id)
             (metafield_url domain product_id existing_id)
             (metafield_payload existing_id namespace key formatted_value mf_type);
         if is_200_201 (rs_status response) then ret (success_count + 1, errors)
         else if (rs_status response =? 422) && is_list_type mf_type
                 && is_subcategory_key namespace key then
           retried ← retry_after_422 domain product_id existing_id namespace key
                                     mf_type response formatted_value;
           if (retried : bool) then ret (success_count + 1, errors)
           else ret (success_count,
                     errors ++ [BadStatus (metafield_label md) (rs_status response)])
         else ret (success_count,
                   errors ++ [BadStatus (metafield_label md) (rs_status response)])
     end)
    (λ e, ret (success_count, errors ++ [Raised (metafield_label md) e])).

Record metafields_result := {
  mfr_success : bool;
  mfr_success_count : Z;
  mfr_errors : list failure;
}.

Definition create_metafields (product_id : Z) (metafields_data : list metafield_data)
    (shopify_domain : option pystr) : M metafields_result :=
  try_except
    (let domain := domain_or_default shopify_domain in
     existing_by_ns_key ← fetch_existing domain product_id;
     '(success_count, errors) ←
       for_each metafields_data (0, [])
                (process_metafield domain product_id existing_by_ns_key);
     ret {| mfr_success := bool_decide (errors = []);
            mfr_success_count := success_count;
            mfr_errors := errors |})
    (λ e, ret {| mfr_success := false; mfr_success_count := 0;
                 mfr_errors := [Raised (py "creating metafields") e] |}).

(** *** [create_product] *)

(** The request of the caller, by the fields the workflow reads; a
    field is [None] when the key is missing. *)
Record product_data := {
  pd_product_id : option pyval;
  pd_title : option pystr;
  pd_charge_vat : option pyval;
  pd_sku : option pystr;
  pd_media_files : list media_file;
  pd_shopify_media_ids : list pyval;
  pd_media_order : list order_item;
  pd_metafields : list metafield_data;
  pd_colour_images : option pyval;
}.

(** The body of the core request: title, description, status, tags
    and, for a create, the placeholder variant.  Building it raises
    when the price, SKU, weight or inventory quantity is ill-formed. *)
Variable core_payload : product_data → method → outcome pyval.

(** The attribute list of step 3: the caller's metafields with the
    category and subcategory attributes rebuilt and the colour
    attributes added. *)
Variable assemble_metafields : product_data → list metafield_data.

(** What [create_product] returns. *)
Record creation := {
  cr_success : bool;
  cr_product : option product;
}.

Definition failed : creation := {| cr_success := false; cr_product := None |}.

(** The taxable flag: the default is true, a text is true when its
    lower-case form is one of three words, anything else goes through
    [bool]. *)
Definition taxable_of (charge_vat_raw : option pyval) : bool :=
  match charge_vat_raw with
  | None => true
  | Some (PyStr s) => bool_decide (py_lower s ∈ [py "true"; py "1"; py "yes"])
  | Some v => py_truthy v
  end.

Definition is_truthy_id (existing_product_id : option pyval) : bool :=
  match existing_product_id with
  | Some v => py_truthy v
  | None => false
  end.

(** The URL and method of the core request. *)
Definition core_target (existing_product_id : option pyval) : method * url :=
  match existing_product_id with
  | Some v =>
      if py_truthy v then
        (PUT, {| url_host := default_domain;
                 url_path := api_path (py "/products/" ++ py_str v ++ py ".json") |})
      else (POST, {| url_host := default_domain; url_path := api_path (py "/products.json") |})
  | None => (POST, {| url_host := default_domain; url_path := api_path (py "/products.json") |})
  end.

Definition nonempty_host (d : option pystr) : bool :=
  match d with
  | Some (_ :: _) => true
  | _ => false
  end.

(** The core request with its redirect handling: the final response
    and [actual_shopify_domain]. *)
Definition core_write (m : method) (u : url) (payload : pyval)
  : M (response * option pystr) :=
  response ← http {| rq_site := CoreWrite; rq_method := m; rq_url := u;
                     rq_payload := JsonPayload payload; rq_allow_redirects := false |};
  '(response, actual) ←
    (if is_redirect (rs_status response) then
       let redirect_url := redirect_target u response in
       response' ← http {| rq_site := CoreWrite; rq_method := m; rq_url := redirect_url;
                           rq_payload := JsonPayload payload;
                           rq_allow_redirects := true |};
       ret (response', Some (url_host redirect_url))
     else
       match m with
       | PUT =>
           if decide (rs_url response = u) then ret (response, None)
           else ret (response, Some (url_host (rs_url response)))
       | _ => ret (response, None)
       end);
  match m with
  | PUT => ret (response, actual)
  | _ =>
      if rs_history response && negb (bool_decide (rs_url response = u))
         && negb (nonempty_host actual)
      then ret (response, Some (url_host (rs_url response)))
      else ret (response, actual)
  end.

Definition has_title (expected_title : pystr) (p : product) : bool :=
  bool_decide (prod_title p = Some expected_title).

Definition products_url (query : pystr) : url :=
  {| url_host := STORE_DOMAIN; url_path := api_path (py "/products.json?" ++ query) |}.

Definition title_search_request (expected_title : pystr) : request :=
  {| rq_site := TitleSearch; rq_method := GET;
     rq_url := products_url (py "title=" ++ url_quote expected_title);
     rq_payload := NoPayload; rq_allow_redirects := true |}.

Definition recent_products_request : request :=
  {| rq_site := RecentProducts; rq_method := GET;
     rq_url := products_url (py "limit=5&order=created_at desc");
     rq_payload := NoPayload; rq_allow_redirects := true |}.

(** A product with a non-empty [created_at] that lies within the last
    minute and with the expected title. *)
Definition recent_with_title (expected_title : pystr) (p : product) : bool :=
  match prod_created_at p with
  | Some ((_ :: _) as created_str) =>
      created_within_last_minute created_str && has_title expected_title p
  | _ => false
  end.

(** The follow-up search by title; whatever it raises counts as no
    match. *)
Definition search_by_title (expected_title : pystr) : M (option product) :=
  try_except
    (search_response ← http (title_search_request expected_title);
     if rs_status search_response =? 200 then
       search_result ← json_of search_response;
       ret (find (has_title expected_title) (default [] (b_products search_result)))
     else ret None)
    (λ _, ret None).

(** The last resort: among the five most recent products, the first
    that was created within the last minute and has the title. *)
Definition search_recent (expected_title : pystr) : M (option product) :=
  try_except
    (recent_response ← http recent_products_request;
     if rs_status recent_response =? 200 then
       recent_result ← json_of recent_response;
       ret (find (recent_with_title expected_title)
                 (default [] (b_products recent_result)))
     else ret None)
    (λ _, ret None).

(** The product a create settles on when the answer is a list. *)
Definition disambiguate_created (expected_title : pystr) (products_list : list product)
  : M (option product) :=
  match find (has_title expected_title) products_list with
  | Some p => ret (Some p)
  | None =>
      found ← search_by_title expected_title;
      match found with
      | Some p => ret (Some p)
      | None => search_recent expected_title
      end
  end.

(** [p.get("id") == existing_product_id]; a float id is not
    considered. *)
Definition id_equals (existing_product_id : option pyval) (p : product) : bool :=
  match prod_id p, existing_product_id with
  | Some z, Some (PyInt z') => z =? z'
  | Some z, Some (PyBool b) => z =? Z.b2z b
  | _, _ => false
  end.

(** The product an update settles on when the answer is a list. *)
Definition disambiguate_updated (existing_product_id : option pyval)
    (expected_title : pystr) (products_list : list product) : option product :=
  match find (λ p, has_title expected_title p && id_equals existing_product_id p)
             products_list with
  | Some p => Some p
  | None => find (id_equals existing_product_id) products_list
  end.

(** The product of the answer, whichever key carries it. *)
Definition resolve_product (existing_product_id : option pyval) (expected_title : pystr)
    (result : body) : M (option product) :=
  match b_product result with
  | Some p => ret (Some p)
  | None =>
      match b_products result with
      | None => ret None
      | Some products_list =>
          if negb (is_truthy_id existing_product_id)
          then disambiguate_created expected_title products_list
          else ret (disambiguate_updated existing_product_id expected_title products_list)
      end
  end.

(** [_extract_custom_sku_from_payload] *)
Definition extract_custom_sku (mfs : list metafield_data) : pystr :=
  match find (λ mf, bool_decide (md_namespace mf = Some (py "custom"))
                    && bool_decide (md_key mf = Some (py "sku"))) mfs with
  | None => []
  | Some mf =>
      match default (PyStr []) (md_value mf) with
      | PyStr ((_ :: _) as val) =>
          let v := Str.strip val in
          if Str.startswith (py "[") v && Str.endswith (py "]") v then
            match Json.loads v with
            | Some (PyList (x :: _)) => py_str x
            | _ => v
            end
          else v
      | val => py_str val
      end
  end.

(** The read of [custom.sku] from the platform when the request names
    no SKU; only the request matters here. *)
Definition fetch_custom_sku (actual : option pystr) (product_id : Z) : M unit :=
  try_except
    (r_mf ← http {| rq_site := SkuFetch; rq_method := GET;
                    rq_url := {| url_host := domain_or_default actual;
                                 url_path := product_sub_path product_id (py "/metafields.json") |};
                    rq_payload := NoPayload; rq_allow_redirects := true |};
     if rs_status r_mf =? 200 then _ ← json_of r_mf; ret tt else ret tt)
    (λ _, ret tt).

(** [results["success"]] is true, or [results['errors']] is read. *)
Definition read_outcome (success : bool) (errors : option (list failure)) : M unit :=
  if success then ret tt
  else match errors with
       | Some _ => ret tt
       | None => raise KeyError
       end.

(** The reorder after the uploads: by [media_order] when there is one,
    else the fallback over the keep list. *)
Definition reorder_step (pd : product_data) (product_id : Z) (actual : option pystr)
  : M unit :=
  if pd_media_order pd is [] then
    if pd_shopify_media_ids pd is [] then ret tt
    else
      reorder_results ← reorder_product_media product_id (pd_shopify_media_ids pd);
      read_outcome (res_success reorder_results) (res_errors reorder_results)
  else
    reorder_results ←
      reorder_product_media_by_order product_id (pd_media_order pd)
                                     (pd_shopify_media_ids pd) actual;
    read_outcome (res_success reorder_results) (res_errors reorder_results).

(** Step 2. *)
Definition media_step (pd : product_data) (product_id : Z) (actual : option pystr)
  : M unit :=
  let media_files := pd_media_files pd in
  let shopify_media_ids := pd_shopify_media_ids pd in
  let has_new_media := negb (bool_decide (media_files = [])) in
  let is_updating := bool_decide (is_Some (pd_product_id pd)) in
  _ ← (if bool_decide (extract_custom_sku (pd_metafields pd) = [])
          && bool_decide (default [] (pd_sku pd) = [])
       then fetch_custom_sku actual product_id else ret tt);
  if is_updating then
    manage_results ← manage_product_media product_id shopify_media_ids;
    _ ← read_outcome (mr_success manage_results) (mr_errors manage_results);
    _ ← (if has_new_media then
           media_results ← upload_media_to_product product_id media_files None actual;
           read_outcome (res_success media_results) (res_errors media_results)
         else ret tt);
    reorder_step pd product_id actual
  else if has_new_media || negb (bool_decide (shopify_media_ids = [])) then
    media_results ← upload_media_to_product product_id media_files
                                            (Some shopify_media_ids) actual;
    _ ← read_outcome (res_success media_results) (res_errors media_results);
    reorder_step pd product_id actual
  else ret tt.

(** Step 3. *)
Definition metafield_step (pd : product_data) (product_id : Z) (actual : option pystr)
  : M unit :=
  let metafields := assemble_metafields pd in
  if metafields is [] then ret tt
  else _ ← create_metafields product_id metafields actual; ret tt.

Definition get_config : M pystr := λ σ, (Returns (config_STORE_DOMAIN σ), σ).

(** [config.STORE_DOMAIN = d; Price_Bandit.STORE_DOMAIN = d] *)
Definition set_store_domains (d : pystr) : M unit :=
  λ σ, (Returns tt, {| remote := remote σ; trace := trace σ;
                       config_STORE_DOMAIN := d; bandit_STORE_DOMAIN := d |}).

(** [colour_images] as handed to the variant generator: a text is
    decoded, a false value is left out. *)
Definition colour_images_for_bandit (c : option pyval) : option pyval :=
  match c with
  | Some v =>
      if py_truthy v then
        match (match v with PyStr s => Json.loads s | _ => Some v end) with
        | Some x => if py_truthy x then Some x else None
        | None => None
        end
      else None
  | None => None
  end.

(** The call of [process_product]: it is recorded, acts on the
    platform and returns or raises. *)
Definition call_process_product (run : W → delegation → outcome bool * W)
    (product_id : Z) (title : pystr) (colour_images : option pyval) : M bool :=
  λ σ, let d := {| dl_product_id := product_id; dl_title := title;
                   dl_colour_images := colour_images;
                   dl_config_domain := config_STORE_DOMAIN σ;
                   dl_bandit_domain := bandit_STORE_DOMAIN σ |} in
       let '(r, w) := run (remote σ) d in
       (r, {| remote := w; trace := trace σ ++ [Delegated d];
              config_STORE_DOMAIN := config_STORE_DOMAIN σ;
              bandit_STORE_DOMAIN := bandit_STORE_DOMAIN σ |}).

(** Step 4: the store domain is overridden for the time of the call
    when a canonical host is known, and put back in the [finally]
    clause. *)
Definition variant_step (pd : product_data) (product_id : Z) (product : product)
    (actual : option pystr) : M unit :=
  match process_product with
  | None => ret tt
  | Some run =>
      original_store_domain ←
        (match actual with
         | Some ((_ :: _) as d) =>
             original ← get_config; _ ← set_store_domains d; ret (Some original)
         | _ => ret None
         end);
      try_finally
        (try_except
           (_ ← call_process_product run product_id
                  (default (py "Unknown Product") (prod_title product))
                  (colour_images_for_bandit (pd_colour_images pd));
            ret tt)
           (λ _, ret tt))
        (match original_store_domain with
         | Some original => set_store_domains original
         | None => ret tt
         end)
  end.

(** Step 5. *)
Definition tax_step (taxable : bool) (product_id : Z) : M unit :=
  if negb taxable then _ ← update_product_taxable product_id false; ret tt
  else ret tt.

(** The read-back: a connection error or timeout is a warning, any
    other exception leaves the block. *)
Definition verify_step (actual : option pystr) (product_id : Z) : M unit :=
  try_except
    (verify_response ←
       http {| rq_site := Verify; rq_method := GET;
               rq_url := {| url_host := domain_or_default actual;
                            url_path := product_path product_id |};
               rq_payload := NoPayload; rq_allow_redirects := true |};
     if rs_status verify_response =? 200 then _ ← json_of verify_response; ret tt
     else ret tt)
    (λ e, if decide (e = ConnectionError) then ret tt else raise e).

(** Steps 2 to 5 and the read-back, for the product step 1 settled
    on. *)
Definition after_core (pd : product_data) (taxable : bool) (product : product)
    (product_id : Z) (actual : option pystr) : M creation :=
  _ ← media_step pd product_id actual;
  _ ← metafield_step pd product_id actual;
  _ ← variant_step pd product_id product actual;
  _ ← tax_step taxable product_id;
  _ ← verify_step actual product_id;
  ret {| cr_success := true; cr_product := Some product |}.

Definition product_is_empty (p : product) : bool :=
  bool_decide (prod_id p = None) && bool_decide (prod_title p = None)
  && bool_decide (prod_created_at p = None) && bool_decide (prod_handle p = None)
  && bool_decide (prod_images p = []) && bool_decide (prod_variants p = []).

Definition create_product (pd : product_data) : M creation :=
  try_except
    (let existing_product_id := pd_product_id pd in
     let '(method, u) := core_target existing_product_id in
     let taxable := taxable_of (pd_charge_vat pd) in
     let expected_title := Str.strip (default [] (pd_title pd)) in
     if expected_title is [] then ret failed
     else
       payload ← of_outcome (core_payload pd method);
       '(response, actual_shopify_domain) ← core_write method u payload;
       if negb (is_200_201 (rs_status response)) then ret failed
       else
         match rs_json response with
         | None => ret failed
         | Some result =>
             if b_errors result is Some _ then ret failed
             else
               found ← resolve_product existing_product_id expected_title result;
               match found with
               | None => ret failed
               | Some product =>
                   if product_is_empty product then ret failed
                   else
                     match prod_id product with
                     | None => ret failed
                     | Some product_id =>
                         if product_id =? 0 then ret failed
                         else after_core pd taxable product product_id
                                         actual_shopify_domain
                     end
               end
         end)
    (λ _, ret failed).

(** *** Vocabulary of the statements *)

(** The answers the platform gives to a sequence of requests, and the
    state it is in afterwards. *)
Fixpoint answers (w : W) (rs : list request) : list http_result :=
  match rs with
  | [] => []
  | r :: rest => (send w r).1 :: answers (send w r).2 rest
  end.
Fixpoint after_requests (w : W) (rs : list request) : W :=
  match rs with
  | [] => w
  | r :: rest => after_requests (send w r).2 rest
  end.

(** What the answer to a deletion adds to the error list. *)
Definition deletion_failure (media_id : pystr) (a : http_result) : option failure :=
  match a with
  | Answer r =>
      if rs_ok r || (rs_status r =? 204) then None
      else Some (BadStatus media_id (rs_status r))
  | Failure e => Some (Raised media_id e)
  end.

(** The first product of a listing answer that passes a test: none
    when the transport failed, the status is not 200 or the body is not
    JSON. *)
Definition first_listed (test : product → bool) (a : http_result) : option product :=
  match a with
  | Answer rs =>
      if rs_status rs =? 200 then
        match rs_json rs with
        | Some b => find test (default [] (b_products b))
        | None => None
        end
      else None
  | Failure _ => None
  end.

(** The call sites of the requests in a trace. *)
Definition sites_of (evs : list event) : list site :=
  omap (λ ev, match ev with
              | Sent r => Some (rq_site r)
              | Delegated _ => None
              end) evs.

(** The call site and host of each request in a trace, and the store
    domain the configuration held at each delegation. *)
Definition hosts_of (evs : list event) : list (site * pystr) :=
  omap (λ ev, match ev with
              | Sent r => Some (rq_site r, url_host (rq_url r))
              | Delegated _ => None
              end) evs.
Definition delegated_domains (evs : list event) : list pystr :=
  omap (λ ev, match ev with
              | Sent _ => None
              | Delegated d => Some (dl_config_domain d)
              end) evs.

(** A computation relates the state it ends in to the state it starts
    in, whether it returns or raises. *)
Definition steps (R : state → state → Prop) {A} (m : M A) : Prop :=
  ∀ σ, R σ (m σ).2.

(** The later state has the events of the earlier one and then only
    events that pass [P], and [config.STORE_DOMAIN] is the same. *)
Definition adds_only (P : event → Prop) (σ σ' : state) : Prop :=
  (∃ evs, trace σ' = trace σ ++ evs ∧ Forall P evs)
  ∧ config_STORE_DOMAIN σ' = config_STORE_DOMAIN σ.

(** An event that is a request from one of the given call sites. *)
Definition from_sites (sites : list site) (ev : event) : Prop :=
  match ev with
  | Sent r => rq_site r ∈ sites
  | Delegated _ => False
  end.

(** An event that is not a request of the tax fix-up. *)
Definition not_tax (ev : event) : Prop :=
  match ev with
  | Sent r => rq_site r ∉ [TaxFetch; TaxUpdate]
  | Delegated _ => True
  end.

(** An event of the tax fixup of a product: the fetch of the product,
    or the update that carries its variants, each with the given
    taxable flag. *)
Definition tax_event (product_id : Z) (taxable : bool) (ev : event) : Prop :=
  match ev with
  | Sent r =>
      r = tax_fetch_request product_id
      ∨ (rq_site r = TaxUpdate ∧ rq_method r = PUT
         ∧ rq_url r = rq_url (tax_fetch_request product_id)
         ∧ ∃ variants, rq_payload r = VariantsPayload product_id variants
                       ∧ Forall (λ v, var_taxable v = taxable) variants)
  | Delegated _ => False
  end.

(** The shape of a run of [create_product] from [σ] with respect to the
    tax fixup: what it adds to the trace falls into the events before
    the fixup, those of the fixup and those of the read-back; the fixup
    is empty when the flag is true; and when the run reports success for
    a product, the fixup is the one of that product and, the flag being
    false, starts with the fetch of the product. *)
Definition tax_fixup_run (flag : bool) (σ : state) (r : outcome creation * state) : Prop :=
  ∃ before tax after,
    trace r.2 = trace σ ++ before ++ tax ++ after
    ∧ config_STORE_DOMAIN r.2 = config_STORE_DOMAIN σ
    ∧ Forall not_tax before
    ∧ Forall (from_sites [TaxFetch; TaxUpdate]) tax
    ∧ Forall (from_sites [Verify]) after
    ∧ (flag = true → tax = [])
    ∧ (∀ c, r.1 = Returns c → cr_success c = true →
       ∃ product product_id,
         cr_product c = Some product ∧ prod_id product = Some product_id
         ∧ Forall (tax_event product_id false) tax
         ∧ (flag = false → ∃ rest, tax = Sent (tax_fetch_request product_id) :: rest)).

(** A request that updates an attribute: a PUT whose body carries the
    value alone. *)
Definition update_event (ev : event) : Prop :=
  match ev with
  | Sent r =>
      rq_method r = PUT
      ∧ ∃ v, rq_payload r
             = JsonPayload (PyDict [(py "metafield", PyDict [(py "value", v)])])
  | Delegated _ => False
  end.

(** The identity dict that [create_metafields] builds from the answer
    to its listing request. *)
Definition listed_identities (a : http_result) : gmap (pystr * pystr) (option Z) :=
  match a with
  | Answer resp =>
      if rs_status resp =? 200 then
        match rs_json resp with
        | Some b => existing_identities (default [] (b_metafields b))
        | None => ∅
        end
      else ∅
  | Failure _ => ∅
  end.

(** A write is accepted when it is answered with 200 or 201. *)
Definition accepted (a : http_result) : bool :=
  match a with
  | Answer r => is_200_201 (rs_status r)
  | Failure _ => false
  end.

(** The value a refusal leads to retry with, if any: the body has to
    be JSON and to list choices of which one matches. *)
Definition retry_of (response : response) (formatted_value : pyval) : option pyval :=
  err_data ← rs_json response; retry_value err_data formatted_value.

(** [json.loads(v) if isinstance(v, str) else v], when it does not
    raise. *)
Definition decoded (formatted_value : pyval) : option pyval :=
  match formatted_value with
  | PyStr s => Json.loads s
  | v => Some v
  end.

(** The body of an answer that has a success status and is JSON: what a
    function that fetches the product goes on with. *)
Definition fetched_body (a : http_result) : option body :=
  match a with
  | Answer r => if rs_ok r then rs_json r else None
  | Failure _ => None
  end.

(** An event that is a request. *)
Definition is_sent (ev : event) : Prop :=
  match ev with
  | Sent _ => True
  | Delegated _ => False
  end.

(** What a computation returns, when it returns, has a property. *)
Definition returns_in {A} (Q : A → Prop) (m : M A) : Prop :=
  ∀ σ, match (m σ).1 with
       | Returns a => Q a
       | Raises _ => True
       end.

(** An event that is no request from one of the given call sites. *)
Definition never_from (sites : list site) (ev : event) : Prop :=
  match ev with
  | Sent r => rq_site r ∉ sites
  | Delegated _ => True
  end.

(** The update request of the tax fixup for a fetched product. *)
Definition tax_update_request (product_id : Z) (taxable : bool) (fetched : product)
  : request :=
  {| rq_site := TaxUpdate; rq_method := PUT;
     rq_url := {| url_host := STORE_DOMAIN; url_path := product_path product_id |};
     rq_payload :=
       VariantsPayload product_id
         ((λ v, {| var_id := var_id v; var_sku := var_sku v; var_taxable := taxable |})
            <$> prod_variants fetched);
     rq_allow_redirects := true |}.

(** The requests of the fallback reorder: the fetch, and for each id of
    the list that names an image of the product the update that writes
    its position, the position being the place of the id in the list
    counted from [position] on.  Each update is paired with the key it
    was found under. *)
Definition fallback_fetch_request (product_id : Z) : request :=
  {| rq_site := FallbackReorderFetch; rq_method := GET;
     rq_url := {| url_host := STORE_DOMAIN; url_path := product_path product_id |};
     rq_payload := NoPayload; rq_allow_redirects := true |}.
Fixpoint fallback_plan (product_id : Z) (existing_images : list image)
    (position : Z) (ids : list pyval) : list (pystr * request) :=
  match ids with
  | [] => []
  | media_id :: rest =>
      let key := normalize_media_id media_id in
      match list_find (λ img, image_key img = key) (reverse existing_images) with
      | Some (_, img) =>
          [(key, {| rq_site := FallbackReorderPosition; rq_method := PUT;
                    rq_url := image_url STORE_DOMAIN product_id (image_key img);
                    rq_payload := position_payload (img_id img) position;
                    rq_allow_redirects := true |})]
      | None => []
      end ++ fallback_plan product_id existing_images (position + 1) rest
  end.

(** What the answer to a position update adds to the error list. *)
Definition position_failure (key : pystr) (a : http_result) : option failure :=
  match a with
  | Answer r => if rs_ok r then None else Some (BadStatus key (rs_status r))
  | Failure e => Some (Raised key e)
  end.

(** The transport delivered an answer. *)
Definition is_answer (a : http_result) : Prop :=
  match a with
  | Answer _ => True
  | Failure _ => False
  end.

(** The requests of [upload_media_to_product] for the new files: the
    [i]-th file (from 0) goes to the media endpoint when it is a video
    and to the images endpoint otherwise, under the number [i + 1]; the
    product is fetched again at the end. *)
Definition upload_url (domain : pystr) (product_id : Z) (file : media_file) : url :=
  {| url_host := domain;
     url_path := product_sub_path product_id
                   (if Str.startswith (py "video/") (file_content_type file)
                    then py "/media.json" else py "/images.json") |}.
Definition upload_request (domain : pystr) (product_id : Z) (i : nat) (file : media_file)
  : request :=
  first_attempt UploadFile POST (upload_url domain product_id file)
                (FilePayload (S i) (file_content_type file)).
Definition upload_refetch_request (product_id : Z) : request :=
  {| rq_site := UploadRefetch; rq_method := GET;
     rq_url := {| url_host := STORE_DOMAIN; url_path := product_path product_id |};
     rq_payload := NoPayload; rq_allow_redirects := true |}.

(** The events of the upload loop: for each file in turn its upload
    request, followed, when that was answered with a redirect, by the
    same upload sent again to the target. *)
Fixpoint upload_events (domain : pystr) (product_id : Z) (i : nat)
    (files : list media_file) (evs : list event) : Prop :=
  match files with
  | [] => evs = []
  | file :: rest =>
      ∃ again tail,
        evs = Sent (upload_request domain product_id i file) :: again ++ tail
        ∧ (again = []
           ∨ ∃ target, again = [Sent (second_attempt UploadFile POST target
                                        (FilePayload (S i) (file_content_type file)))])
        ∧ upload_events domain product_id (S i) rest tail
  end.

(** The state after some more events and some steps of the platform. *)
Definition advance (σ : state) (w : W) (evs : list event) : state :=
  {| remote := w; trace := trace σ ++ evs;
     config_STORE_DOMAIN := config_STORE_DOMAIN σ;
     bandit_STORE_DOMAIN := bandit_STORE_DOMAIN σ |}.

End Client.

(** ** Platforms to run the client against *)

Module Worlds.

(** A platform that gives prepared answers in order, and lets the
    transport fail once they are used up. *)
Definition script := list http_result.
Definition play (w : script) (r : request) : http_result * script :=
  match w with
  | [] => (Failure ConnectionError, [])
  | a :: rest => (a, rest)
  end.

Definition no_body : body :=
  {| b_errors := None; b_product := None; b_products := None;
     b_metafields := None; b_file_update := None |}.

(** An answer with a status and a JSON body, without redirect. *)
Definition answer (status : Z) (b : body) : http_result :=
  Answer {| rs_status := status; rs_location := None; rs_json := Some b;
            rs_url := {| url_host := []; url_path := [] |}; rs_history := false |}.

(** A redirect to another URL. *)
Definition redirect (status : Z) (target : url) : http_result :=
  Answer {| rs_status := status; rs_location := Some (Absolute target);
            rs_json := None;
            rs_url := {| url_host := []; url_path := [] |}; rs_history := false |}.

Definition product_body (p : product) : body :=
  {| b_errors := None; b_product := Some p; b_products := None;
     b_metafields := None; b_file_update := None |}.

Definition products_body (ps : list product) : body :=
  {| b_errors := None; b_product := None; b_products := Some ps;
     b_metafields := None; b_file_update := None |}.

Definition errors_body (e : pyval) : body :=
  {| b_errors := Some e; b_product := None; b_products := None;
     b_metafields := None; b_file_update := None |}.

Definition simple_image (id position : Z) : image :=
  {| img_id := id; img_position := Some position;
     img_created_at := None; img_src := None |}.

Definition simple_product (id : Z) (title : pystr) (images : list image) : product :=
  {| prod_id := Some id; prod_title := Some title; prod_created_at := None;
     prod_handle := None; prod_images := images; prod_variants := [] |}.

(** The state a run starts in: nothing sent yet, both modules holding
    the configured store domain. *)
Definition initial {W} (w : W) (store_domain : pystr) : @state W :=
  {| remote := w; trace := [];
     config_STORE_DOMAIN := store_domain; bandit_STORE_DOMAIN := store_domain |}.

(** An update of product 7 whose core request is redirected to the
    canonical host: the redirect, the answer to the repeated request,
    and a plain 200 with the product for every later request. *)
Definition canonical_host : pystr := py "shop-7.myshopify.example".
Definition redirected_update : script :=
  let ok := answer 200 (product_body (simple_product 7 (py "P") [])) in
  [redirect 307 {| url_host := canonical_host;
                   url_path := py "/admin/api/2024-01/products/7.json" |};
   ok; ok; ok; ok; ok].
Definition update_without_vat : product_data :=
  {| pd_product_id := Some (PyInt 7); pd_title := Some (py "P");
     pd_charge_vat := Some (PyStr (py "no")); pd_sku := Some (py "S1");
     pd_media_files := []; pd_shopify_media_ids := []; pd_media_order := [];
     pd_metafields := []; pd_colour_images := None |}.

(** A platform that keeps the metafields of one product: a listing
    shows the first 250, a create is refused with 422 when the identity
    is taken and else stores the attribute under a fresh id, an update
    replaces the value of the attribute whose URL is addressed. *)
Record attribute := {
  at_id : Z;
  at_namespace : pystr;
  at_key : pystr;
  at_value : pyval;
  at_type : pystr;
}.

Record store := {
  st_attributes : list attribute;
  st_next_id : Z;
  st_base : pystr;      (* the path of the product on the platform *)
}.

Definition attribute_path (base : pystr) (id : Z) : pystr :=
  base ++ py "/metafields/" ++ Str.of_Z id ++ py ".json".

Definition row_of (a : attribute) : metafield_row :=
  {| row_id := Some (at_id a); row_namespace := Some (at_namespace a);
     row_key := Some (at_key a) |}.

Definition with_attributes (s : store) (l : list attribute) (next : Z) : store :=
  {| st_attributes := l; st_next_id := next; st_base := st_base s |}.

Definition set_value (path : pystr) (v : pyval) (s : store) (a : attribute) : attribute :=
  if decide (attribute_path (st_base s) (at_id a) = path)
  then {| at_id := at_id a; at_namespace := at_namespace a; at_key := at_key a;
          at_value := v; at_type := at_type a |}
  else a.

Definition metafield_platform (s : store) (r : request) : http_result * store :=
  match rq_method r, rq_payload r with
  | GET, _ =>
      (answer 200 {| b_errors := None; b_product := None; b_products := None;
                     b_metafields := Some (row_of <$> take 250 (st_attributes s));
                     b_file_update := None |}, s)
  | POST, JsonPayload (PyDict [(_, PyDict [(_, PyStr ns); (_, PyStr k); (_, v); (_, PyStr t)])]) =>
      if existsb (λ a, bool_decide (at_namespace a = ns) && bool_decide (at_key a = k))
                 (st_attributes s)
      then (answer 422 (errors_body (PyStr (py "must be unique"))), s)
      else (answer 201 no_body,
            with_attributes s
              (st_attributes s ++ [{| at_id := st_next_id s; at_namespace := ns;
                                      at_key := k; at_value := v; at_type := t |}])
              (st_next_id s + 1))
  | PUT, JsonPayload (PyDict [(_, PyDict [(_, v)])]) =>
      if existsb (λ a, bool_decide (attribute_path (st_base s) (at_id a)
                                    = url_path (rq_url r)))
                 (st_attributes s)
      then (answer 200 no_body,
            with_attributes s (set_value (url_path (rq_url r)) v s <$> st_attributes s)
                            (st_next_id s))
      else (answer 404 no_body, s)
  | _, _ => (answer 400 no_body, s)
  end.

End Worlds.

(** ** Product_Creator.py: the choices of a metafield and the validation *)

(** [s.split(c, 1)] for a text that contains [c]: the text before the
    first [c] and the text after it; [None] when [c] does not occur. *)
Fixpoint split_first (c : N) (s : pystr) : option (pystr * pystr) :=
  match s with
  | [] => None
  | x :: r =>
      if (x =? c)%N then Some ([], r)
      else (λ p : pystr * pystr, (x :: p.1, p.2)) <$> split_first c r
  end.

Section Choices.
Context `{PyBuiltins}.

(** [get_metafield_choices(namespace_key)] of [Product_Creator.py]: the
    key is what follows the first dot, the namespace is not looked at. *)
Definition get_metafield_choices (namespace_key : pystr) : list pystr :=
  let key :=
    match split_first 46%N namespace_key with
    | Some (_, key) => key
    | None => []
    end in
  match Categories.get_metafield_choices key with
  | [] => []
  | choices => choices
  end.

End Choices.

(** What [validate_product_data] returns. *)
Record validation := {
  v_valid : bool;
  v_errors : list pystr;
}.

(** [validate_product_data(product_data)] *)
Definition validate_product_data (pd : product_data) : validation :=
  let errors :=
    if bool_decide (Str.strip (default [] (pd_title pd)) = [])
    then [py "Product title is required"] else [] in
  {| v_valid := bool_decide (errors = []); v_errors := errors |}.

(** * Properties *)

(** ** [format_price] *)

Section FormatPriceFacts.
Context `{PyBuiltins}.

(** The two examples of the specification. *)
Lemma format_price_examples :
  format_price (PyStr (py "1.005")) = Returns (py "1.01")
  ∧ format_price (PyStr (py "2")) = Returns (py "2.00").
Proof. split; vm_compute; reflexivity. Qed.

(** Ties round away from zero, and the sign is kept. *)
Lemma format_price_half_up :
  format_price (PyStr (py "0.005")) = Returns (py "0.01")
  ∧ format_price (PyStr (py "0.0049")) = Returns (py "0.00")
  ∧ format_price (PyStr (py "-2.675")) = Returns (py "-2.68")
  ∧ format_price (PyInt 7) = Returns (py "7.00").
Proof. repeat split; vm_compute; reflexivity. Qed.

(** A text that is no numeric string makes [Decimal] raise
    [InvalidOperation]. *)
Lemma of_str_abc : PyDecimal.of_str (py "abc") = Raises InvalidOperation.
Proof. vm_compute. reflexivity. Qed.

(** C3, at the input ["abc"]: [Decimal("abc")] raises
    [decimal.InvalidOperation], which the clause
    [except (ValueError, TypeError)] does not handle, so [format_price]
    raises instead of returning the text ["abc"] unchanged. *)
Theorem format_price_non_numeric_raises :
  format_price (PyStr (py "abc")) = Raises InvalidOperation
  ∧ format_price (PyStr (py "abc")) ≠ Returns (py "abc").
Proof. split; vm_compute; [reflexivity | discriminate]. Qed.

(** The same for other inputs that are no decimal: the empty text,
    [None], and an infinity, which parses but cannot be quantized. *)
Lemma format_price_other_raises :
  format_price (PyStr []) = Raises InvalidOperation
  ∧ format_price PyNone = Raises InvalidOperation
  ∧ format_price (PyStr (py "Infinity")) = Raises InvalidOperation
  ∧ format_price (PyStr (py "1e27")) = Raises InvalidOperation.
Proof. repeat split; vm_compute; reflexivity. Qed.

Lemma to_str_cents neg coeff :
  ∃ head frac,
    PyDecimal.to_str (PyDecimal.Finite neg coeff (-2)) = head ++ py "." ++ frac
    ∧ length frac = 2%nat.
Proof.
  unfold PyDecimal.to_str. set (ds := PyDecimal.digits_of coeff).
  destruct (Z.leb_spec (Z.of_nat (length ds) + -2) 0) as [Hle|Hgt].
  - exists ((if neg then py "-" else []) ++ py "0"),
           (repeat 48%N (Z.to_nat (- (Z.of_nat (length ds) + -2))) ++ ds).
    split; [by rewrite <- !app_assoc|].
    rewrite length_app, repeat_length. lia.
  - exists ((if neg then py "-" else [])
            ++ take (Z.to_nat (Z.of_nat (length ds) + -2)) ds),
           (drop (Z.to_nat (Z.of_nat (length ds) + -2)) ds).
    split; [by rewrite <- !app_assoc|].
    rewrite length_drop. lia.
Qed.


End FormatPriceFacts.

(** ** The subcategory buckets *)

Section CategoriesFacts.
Context `{PyBuiltins}.
Import Categories.

Lemma sentinel_index : _subcategory_2_start_index = 109%nat.
Proof. vm_compute. reflexivity. Qed.

Lemma sentinel_lookup : SUBCATEGORIES !! 109%nat = Some SUBCATEGORY_2_FIRST_ITEM.
Proof. vm_compute. reflexivity. Qed.

Lemma subcategories_length : length SUBCATEGORIES = 128%nat.
Proof. vm_compute. reflexivity. Qed.

(** [index] finds an element exactly when it is in the list. *)
Lemma index_None x l : index x l = None ↔ x ∉ l.
Proof.
  unfold index. rewrite fmap_None, list_find_None, Forall_forall.
  split.
  - intros Hall Hin. by apply (Hall x).
  - intros Hnot y Hy ->. by apply Hnot.
Qed.

Lemma index_Some_elem x l i : index x l = Some i → l !! i = Some x.
Proof.
  unfold index. intros Hi. apply fmap_Some in Hi as [[j y] [Hf ->]].
  apply list_find_Some in Hf as (Hl & -> & _). done.
Qed.

(** Two predicates that agree find the same first position. *)
Lemma list_find_index_ext {A} (P Q : A → Prop)
    `{∀ x, Decision (P x)} `{∀ x, Decision (Q x)} (l : list A) :
  (∀ x, P x ↔ Q x) → fst <$> list_find P l = fst <$> list_find Q l.
Proof.
  intros Heq. induction l as [|x l IH]; [done|].
  cbn. destruct (decide (P x)) as [HP|HP], (decide (Q x)) as [HQ|HQ]; cbn.
  - done.
  - destruct HQ. by apply Heq.
  - destruct HP. by apply Heq.
  - rewrite <- !option_fmap_compose.
    destruct (list_find P l) as [[i a]|] eqn:EP,
             (list_find Q l) as [[j b]|] eqn:EQ; cbn in *; congruence.
Qed.

(** The code resolves a label as the specification words it. *)
Lemma resolve_index_as_specified s : resolve_index s = resolve_as_specified s.
Proof.
  unfold resolve_index, resolve_as_specified.
  destruct (decide (s ∈ SUBCATEGORIES)) as [Hs|Hs].
  - destruct (index s SUBCATEGORIES) eqn:E; [done|].
    by apply index_None in E.
  - assert (index s SUBCATEGORIES = None) as -> by by apply index_None.
    destruct (decide (normalize_ws s ∈ SUBCATEGORIES)) as [Hn|Hn].
    + destruct (index (normalize_ws s) SUBCATEGORIES) eqn:E; [done|].
      by apply index_None in E.
    + assert (index (normalize_ws s) SUBCATEGORIES = None) as ->
        by by apply index_None.
      unfold find_normalized. apply list_find_index_ext.
      intros c; cbn. split; [|by right].
      intros [->|?]; done.
Qed.

(** Every label of the vocabulary is kept by [strip], is not empty and
    gets the bucket of its own position. *)
Lemma vocabulary_buckets :
  Forall (λ ic : nat * pystr,
            get_subcategory_metafield_key ic.2
            = if (ic.1 <? 109)%nat then py "subcategory" else py "subcategory_2")
         (imap pair SUBCATEGORIES).
Proof. apply (bool_decide_unpack _). vm_compute. exact I. Qed.


(** *** The choices of a key *)

Lemma subcategories_NoDup : NoDup SUBCATEGORIES.
Proof. apply (bool_decide_unpack _). vm_compute. exact I. Qed.

Lemma resolve_index_lt s i : resolve_index s = Some i → is_Some (SUBCATEGORIES !! i).
Proof.
  unfold resolve_index.
  destruct (decide (s ∈ SUBCATEGORIES)); [by intros ?%index_Some_elem|].
  destruct (decide (normalize_ws s ∈ SUBCATEGORIES)); [by intros ?%index_Some_elem|].
  unfold find_normalized. intros Hi. apply fmap_Some in Hi as [[j y] [Hf ->]].
  apply list_find_Some in Hf as (Hl & _). by eexists.
Qed.

(** The label a text resolves to is a choice of the key the text is
    routed to, and of no other subcategory key: the two functions of
    [categories.py] agree on where a label lives. *)
Theorem resolved_label_is_choice_of_its_key label i :
  Str.strip label ≠ [] →
  resolve_index (Str.strip label) = Some i →
  let key := get_subcategory_metafield_key label in
  ∃ c, SUBCATEGORIES !! i = Some c
       ∧ key ∈ [py "subcategory"; py "subcategory_2"]
       ∧ c ∈ get_metafield_choices key
       ∧ ∀ other, other ∈ [py "subcategory"; py "subcategory_2"] →
                  other ≠ key → c ∉ get_metafield_choices other.
Proof.
  intros Hne Hi key. destruct (resolve_index_lt _ _ Hi) as [c Hc]. exists c.
  split; [done|].
  assert (Hkey : key = if (i <? 109)%nat then py "subcategory" else py "subcategory_2").
  { unfold key, get_subcategory_metafield_key.
    destruct (Str.strip label) as [|x s]; [done|]. by rewrite Hi, sentinel_index. }
  assert (Hsplit : take 109 SUBCATEGORIES ++ drop 109 SUBCATEGORIES = SUBCATEGORIES)
    by apply take_drop.
  pose proof subcategories_NoDup as Hnd. rewrite <- Hsplit in Hnd.
  apply NoDup_app in Hnd as (_ & Hdisj & _).
  assert (H1 : get_metafield_choices (py "subcategory") = take 109 SUBCATEGORIES)
    by (by vm_compute).
  assert (H2 : get_metafield_choices (py "subcategory_2") = drop 109 SUBCATEGORIES)
    by (by vm_compute).
  rewrite Hkey. destruct (Nat.ltb_spec i 109) as [Hlt|Hge].
  - assert (Hin : c ∈ take 109 SUBCATEGORIES).
    { apply list_elem_of_lookup. exists i. by rewrite lookup_take_lt. }
    split; [by left|]. split; [by rewrite H1|].
    intros other [->|[->|[]%elem_of_nil]%elem_of_cons]%elem_of_cons Hother; [done|].
    rewrite H2. by apply Hdisj.
  - assert (Hin : c ∈ drop 109 SUBCATEGORIES).
    { apply list_elem_of_lookup. exists (i - 109)%nat. rewrite lookup_drop.
      by replace (109 + (i - 109))%nat with i by lia. }
    split; [by right; left|]. split; [by rewrite H2|].
    intros other [->|[->|[]%elem_of_nil]%elem_of_cons]%elem_of_cons Hother; [|done].
    rewrite H1. intros Hin1. by apply (Hdisj c).
Qed.

(** The other keys.  A key [subcategory_<n>] other than [subcategory_2]
    offers the whole vocabulary when [n] is the integer 1 and nothing
    for any other suffix, integer or not; a key that is none of these
    and not [custom_category] offers nothing. *)
Theorem overflow_key_choices key :
  key ≠ py "custom_category" → key ≠ py "subcategory" → key ≠ py "subcategory_2" →
  get_metafield_choices key
  = if Str.startswith (py "subcategory_") key
       && bool_decide (py_int (Str.last_segment 95%N key) = Some 1)
    then SUBCATEGORIES else [].
Proof.
  intros H1 H2 H3. unfold get_metafield_choices.
  rewrite !decide_False by done.
  destruct (Str.startswith (py "subcategory_") key); [|done]. cbn [andb].
  destruct (py_int (Str.last_segment 95%N key)) as [n|] eqn:Hn.
  2: { by rewrite bool_decide_false. }
  unfold py_slice, slice_bound. rewrite subcategories_length.
  destruct (decide (n = 1)) as [->|Hn1].
  - rewrite bool_decide_true by done. vm_compute. reflexivity.
  - rewrite bool_decide_false by congruence.
    match goal with
    | |- take ?k _ = [] => assert (k = 0%nat) as ->; [|done]
    end.
    destruct (Z.ltb_spec ((n - 1) * 128) 0), (Z.ltb_spec ((n - 1) * 128 + 128) 0); lia.
Qed.

End CategoriesFacts.

(** Labels that only resolve after normalisation, with the reference
    runtime: inner whitespace runs and a non-breaking space collapse, and
    the letter case is ignored. *)
Example bucket_examples :
  let key := Categories.get_subcategory_metafield_key (H := Reference.builtins) in
  key (py "  Bars ") = py "subcategory"
  ∧ key (py "Sweets") = py "subcategory_2"
  ∧ key (py "sweets") = py "subcategory_2"
  ∧ key (py "Card   Box -  A Box") = py "subcategory_2"
  ∧ key (py "Card" ++ [160%N] ++ py "Box - A Box") = py "subcategory_2"
  ∧ key (py "black friday") = py "subcategory"
  ∧ key (py "No such label") = py "subcategory".
Proof. repeat split; vm_compute; reflexivity. Qed.

(** ** [get_metafield_choices] of Product_Creator.py *)

Section ChoicesFacts.
Context `{PyBuiltins}.

Lemma split_first_app c before after :
  c ∉ before → split_first c (before ++ c :: after) = Some (before, after).
Proof.
  induction before as [|x l IH]; intros Hc; cbn.
  - by rewrite N.eqb_refl.
  - apply not_elem_of_cons in Hc as [Hx Hl].
    destruct (N.eqb_spec x c) as [->|_]; [done|]. by rewrite IH.
Qed.

Lemma split_first_None c s : c ∉ s → split_first c s = None.
Proof.
  induction s as [|x l IH]; intros Hc; cbn; [done|].
  apply not_elem_of_cons in Hc as [Hx Hl].
  destruct (N.eqb_spec x c) as [->|_]; [done|]. by rewrite IH.
Qed.

(** The lookup by [namespace.key] reads the key after the first dot
    and does not look at the namespace: any namespace gives the choices
    that [categories.py] has for the key, and a text without a dot gives
    none. *)
Theorem metafield_choices_by_key_alone namespace key :
  46%N ∉ namespace →
  get_metafield_choices (namespace ++ py "." ++ key)
  = Categories.get_metafield_choices key
  ∧ get_metafield_choices namespace = [].
Proof.
  intros Hdot. unfold get_metafield_choices. split.
  - change (py "." ++ key) with (46%N :: key). rewrite split_first_app by done.
    by destruct (Categories.get_metafield_choices key).
  - by rewrite split_first_None.
Qed.

End ChoicesFacts.

(** ** JSON texts *)

Section JsonFacts.
Import Json.

Ltac split_tests :=
  repeat match goal with
    | |- context [(?a <=? ?b)%N] => destruct (N.leb_spec a b)
    | |- context [(?a <? ?b)%N] => destruct (N.ltb_spec a b)
    | |- context [(?a =? ?b)%N] => destruct (N.eqb_spec a b)
    end; cbn [andb orb negb].

Lemma hex_value_digit n : (n < 16)%N → hex_value (hex_digit n) = Some n.
Proof.
  intros Hn. unfold hex_value, hex_digit.
  split_tests; try (exfalso; lia); f_equal; lia.
Qed.

Lemma hex4_u_escape u :
  (u < 65536)%N →
  hex4 (hex_digit (u / 4096)) (hex_digit ((u / 256) mod 16))
       (hex_digit ((u / 16) mod 16)) (hex_digit (u mod 16)) = Some u.
Proof.
  intros Hu. unfold hex4.
  replace (u / 4096)%N with (u / 16 / 16 / 16)%N
    by (rewrite !N.Div0.div_div; done).
  replace (u / 256)%N with (u / 16 / 16)%N
    by (rewrite !N.Div0.div_div; done).
  pose proof (N.div_mod' u 16). pose proof (N.mod_lt u 16 ltac:(lia)).
  pose proof (N.div_mod' (u / 16) 16).
  pose proof (N.mod_lt (u / 16) 16 ltac:(lia)).
  pose proof (N.div_mod' (u / 16 / 16) 16).
  pose proof (N.mod_lt (u / 16 / 16) 16 ltac:(lia)).
  set (q1 := (u / 16)%N) in *. set (r1 := (u mod 16)%N) in *.
  set (q2 := (q1 / 16)%N) in *. set (r2 := (q1 mod 16)%N) in *.
  set (q3 := (q2 / 16)%N) in *. set (r3 := (q2 mod 16)%N) in *.
  clearbody q1 r1 q2 r2 q3 r3.
  rewrite !hex_value_digit; cbn; [f_equal|..]; lia.
Qed.

Lemma scan_string_literal c tail :
  c ≠ 34%N → c ≠ 92%N → (32 ≤ c)%N →
  scan_string (c :: tail)
  = '(t, rest) ← scan_string tail; Some (c :: t, rest).
Proof.
  intros H1 H2 H3. cbn [scan_string].
  apply N.eqb_neq in H1, H2. rewrite H1, H2.
  destruct (N.ltb_spec c 32); [lia|]. done.
Qed.

Lemma scan_string_simple e ch tail :
  simple_escape e = Some ch →
  scan_string (92%N :: e :: tail)
  = '(t, rest) ← scan_string tail; Some (ch :: t, rest).
Proof.
  intros He. cbn [scan_string]. cbn.
  destruct (N.eqb_spec e 117) as [->|_]; [by vm_compute in He|].
  by rewrite He.
Qed.

Lemma scan_string_unit a b c d u tail :
  hex4 a b c d = Some u → is_high_surrogate u = false →
  scan_string (92%N :: 117%N :: a :: b :: c :: d :: tail)
  = '(t, rest) ← scan_string tail; Some (u :: t, rest).
Proof. intros Hu Hs. cbn [scan_string]. cbn. by rewrite Hu, Hs. Qed.

Lemma scan_string_pair a b c d hi a2 b2 c2 d2 lo tail :
  hex4 a b c d = Some hi → is_high_surrogate hi = true →
  hex4 a2 b2 c2 d2 = Some lo → is_low_surrogate lo = true →
  scan_string (92%N :: 117%N :: a :: b :: c :: d
               :: 92%N :: 117%N :: a2 :: b2 :: c2 :: d2 :: tail)
  = '(t, rest) ← scan_string tail; Some (join_surrogates hi lo :: t, rest).
Proof.
  intros Hhi Hh Hlo Hl. cbn [scan_string]. cbn.
  by rewrite Hhi, Hh, Hlo, Hl.
Qed.

(** What [json.dumps] writes for one character reads back as that
    character. *)
Lemma scan_string_escape_char c tail :
  plain_char c →
  scan_string (escape_char c ++ tail)
  = '(t, rest) ← scan_string tail; Some (c :: t, rest).
Proof.
  intros [Hc Hs]. unfold escape_char.
  destruct (N.eqb_spec c 34) as [->|H34]; [done|].
  destruct (N.eqb_spec c 92) as [->|H92]; [done|].
  destruct (N.eqb_spec c 10) as [->|H10]; [done|].
  destruct (N.eqb_spec c 13) as [->|H13]; [done|].
  destruct (N.eqb_spec c 9) as [->|H9]; [done|].
  destruct (N.eqb_spec c 8) as [->|H8]; [done|].
  destruct (N.eqb_spec c 12) as [->|H12]; [done|].
  destruct (N.leb_spec 32 c) as [H32|H32]; cbn [andb].
  - destruct (N.leb_spec c 126) as [H126|H126].
    + by apply scan_string_literal.
    + destruct (N.ltb_spec c 65536) as [Hb|Hb].
      * apply scan_string_unit; [by apply hex4_u_escape|].
        unfold is_high_surrogate. split_tests; try done; exfalso; lia.
      * unfold u_escape. cbn [app].
        assert (∃ hi lo, (c - 65536 = 1024 * hi + lo ∧ hi < 1024 ∧ lo < 1024
                          ∧ ((c - 65536) / 1024) mod 1024 = hi
                          ∧ (c - 65536) mod 1024 = lo)%N)
          as (hi & lo & Hn & Hhi & Hlo & -> & ->).
        { exists ((c - 65536) / 1024)%N, ((c - 65536) mod 1024)%N.
          split; [apply N.div_mod'|].
          assert ((c - 65536) / 1024 < 1024)%N
            by (apply N.Div0.div_lt_upper_bound; lia).
          split; [done|]. split; [apply N.mod_lt; lia|].
          split; [by apply N.mod_small|done]. }
        rewrite (scan_string_pair _ _ _ _ (55296 + hi)%N
                                  _ _ _ _ (56320 + lo)%N).
        -- unfold join_surrogates.
           replace (65536 + ((55296 + hi - 55296) * 1024
                             + (56320 + lo - 56320)))%N with c by lia.
           done.
        -- apply hex4_u_escape. lia.
        -- unfold is_high_surrogate. split_tests; try done; exfalso; lia.
        -- apply hex4_u_escape. lia.
        -- unfold is_low_surrogate. split_tests; try done; exfalso; lia.
  - destruct (N.ltb_spec c 65536); [|lia].
    apply scan_string_unit; [apply hex4_u_escape; lia|].
    unfold is_high_surrogate. split_tests; try done; exfalso; lia.
Qed.

(** An encoded text reads back as the text. *)
Lemma scan_string_encoded v rest :
  Forall plain_char v →
  scan_string (flat_map escape_char v ++ 34%N :: rest) = Some (v, rest).
Proof.
  induction 1 as [|c v Hc Hv IH]; [done|].
  cbn [flat_map]. rewrite <- app_assoc.
  rewrite scan_string_escape_char by done. by rewrite IH.
Qed.

Lemma dumps_singleton `{PyBuiltins} v :
  dumps (PyList [PyStr v]) = 91%N :: 34%N :: flat_map escape_char v ++ [34%N; 93%N].
Proof. cbn. unfold encode_str. cbn. by rewrite <- app_assoc. Qed.

(** Decoding the one-element array that [json.dumps] writes for a text
    gives the text back, whatever the fuel from 3 on. *)
Lemma loads_fuel_dumps_singleton `{PyBuiltins} v fuel :
  Forall plain_char v →
  loads_fuel (S (S (S fuel))) (dumps (PyList [PyStr v])) = Some (PyList [PyStr v]).
Proof.
  intros Hv. rewrite dumps_singleton. unfold loads_fuel.
  cbn. change [34%N; 93%N] with (34%N :: [93%N]).
  by rewrite scan_string_encoded.
Qed.

Lemma loads_dumps_singleton `{PyBuiltins} v :
  Forall plain_char v →
  loads (dumps (PyList [PyStr v])) = Some (PyList [PyStr v]).
Proof.
  intros Hv. unfold loads.
  assert (∃ f, (2 * length (dumps (PyList [PyStr v])) + 2)%nat = S (S (S f)))
    as [f ->].
  { rewrite dumps_singleton. cbn [length].
    exists (2 * length (flat_map escape_char v ++ [34%N; 93%N]) + 3)%nat. lia. }
  by apply loads_fuel_dumps_singleton.
Qed.

End JsonFacts.

(** ** Text helpers *)

Section StrFacts.

Lemma startswith_cons c p s :
  Str.startswith (c :: p) s = true → ∃ s', s = c :: s' ∧ Str.startswith p s' = true.
Proof.
  destruct s as [|b s']; cbn; [done|].
  intros [->%N.eqb_eq Hp]%andb_true_iff. eauto.
Qed.

Lemma drop_while_head p c s : p c = false → Str.drop_while p (c :: s) = c :: s.
Proof. cbn. by intros ->. Qed.

(** A text that neither starts nor ends with whitespace is its own
    [strip]. *)
Lemma strip_fixed a s z :
  Str.isspace a = false → Str.isspace z = false →
  rev (a :: s) = z :: rev (removelast (a :: s)) →
  Str.strip (a :: s) = a :: s.
Proof.
  intros Ha Hz Hrev. unfold Str.strip, Str.lstrip, Str.rstrip.
  rewrite (drop_while_head _ _ _ Ha), Hrev, (drop_while_head _ _ _ Hz), <- Hrev.
  apply rev_involutive.
Qed.

(** A text in square brackets is its own [strip]. *)
Lemma strip_bracketed v :
  Str.startswith (py "[") v = true → Str.endswith (py "]") v = true →
  Str.strip v = v ∧ v ≠ [].
Proof.
  intros (v' & -> & _)%startswith_cons Hend. split; [|done].
  unfold Str.endswith in Hend. change (rev (py "]")) with [93%N] in Hend.
  apply startswith_cons in Hend as (w & Hw & _).
  unfold Str.strip, Str.lstrip, Str.rstrip.
  rewrite drop_while_head by done. rewrite Hw, drop_while_head by done.
  rewrite <- Hw. apply rev_involutive.
Qed.

Lemma endswith_snoc c s : Str.endswith [c] (s ++ [c]) = true.
Proof.
  unfold Str.endswith. rewrite rev_app_distr. cbn.
  by rewrite N.eqb_refl.
Qed.

End StrFacts.

(** ** The normalisation of attribute values *)

Section NormalizeFacts.
Context `{PyBuiltins}.

(** The placeholder array. *)
Lemma dumps_placeholder : Json.dumps (PyList [PyStr (py "-")]) = pyq "['-']".
Proof. vm_compute. reflexivity. Qed.

Lemma dumps_singleton_bracketed v :
  let t := Json.dumps (PyList [PyStr v]) in
  Str.startswith (py "[") t = true ∧ Str.endswith (py "]") t = true
  ∧ t ≠ py "[]".
Proof.
  cbn zeta. rewrite dumps_singleton. split; [done|]. split.
  - change (91%N :: 34%N :: flat_map Json.escape_char v ++ [34%N; 93%N])
      with ((91%N :: 34%N :: flat_map Json.escape_char v ++ [34%N]) ++ [93%N])
      || (replace (91%N :: 34%N :: flat_map Json.escape_char v ++ [34%N; 93%N])
            with ((91%N :: 34%N :: flat_map Json.escape_char v ++ [34%N]) ++ [93%N])
            by (cbn; by rewrite <- app_assoc)).
    apply endswith_snoc.
  - intros Heq. apply (f_equal length) in Heq. cbn in Heq.
    rewrite length_app in Heq. cbn in Heq. lia.
Qed.

(** A text in brackets is handed on after stripping, whether or not it
    is JSON: here it is not, for any amount of fuel given to the
    decoder. *)
Lemma normalize_value_bracketed_not_json :
  normalize_value (H := Reference.builtins)
                  (PyStr (py "[oops]")) (py "list.single_line_text_field")
  = PyStr (py "[oops]")
  ∧ ∀ fuel, Json.loads_fuel fuel (py "[oops]") = None.
Proof.
  split; [vm_compute; reflexivity|].
  intros [|[|[|fuel]]]; reflexivity.
Qed.

(** C8, as the code has it: for a type that starts with [list.] and a
    text value, the normalised value is a text in square brackets --
    the placeholder array [["-"]] for a blank text or [[]], the stripped
    text itself when that is already in brackets (it is not checked to
    be JSON), and else the stripped text wrapped by [json.dumps] as a
    one-element array, which decodes to that one text; for another type
    a blank text or [None] becomes ["-"] and any other text is kept. *)
Theorem normalize_value_shapes :
  (∀ s mf_type, is_list_type mf_type = true →
     let v := Str.strip s in
     let bracketed := Str.startswith (py "[") v && Str.endswith (py "]") v in
     ∃ t, normalize_value (PyStr s) mf_type = PyStr t
          ∧ Str.startswith (py "[") t = true ∧ Str.endswith (py "]") t = true
          ∧ t = (if bool_decide (v = []) || bool_decide (v = py "[]") then pyq "['-']"
                 else if bracketed then v
                 else Json.dumps (PyList [PyStr v])))
  ∧ (∀ v, Forall Json.plain_char v →
       Json.loads (Json.dumps (PyList [PyStr v])) = Some (PyList [PyStr v]))
  ∧ Json.loads (pyq "['-']") = Some (PyList [PyStr (py "-")])
  ∧ (∀ s mf_type, is_list_type mf_type = false →
       normalize_value (PyStr s) mf_type
       = PyStr (if is_blank s then py "-" else s))
  ∧ (∀ mf_type, is_list_type mf_type = false →
       normalize_value PyNone mf_type = PyStr (py "-")).
Proof.
  split; [|split; [|split; [|split]]].
  - intros s mf_type Hlist v bracketed. unfold normalize_value.
    rewrite Hlist. cbn [negb andb]. unfold is_blank. fold v.
    destruct (decide (v = [])) as [Hv|Hv].
    + rewrite !(bool_decide_eq_true_2 _ Hv). cbn [negb andb orb].
      fold v. rewrite (bool_decide_eq_true_2 _ Hv). cbn [orb].
      rewrite dumps_placeholder. eexists. split; [done|]. by vm_compute.
    + rewrite !(bool_decide_eq_false_2 _ Hv). cbn [negb andb orb].
      fold bracketed. destruct bracketed eqn:Hb.
      * apply andb_true_iff in Hb as [Hs He].
        destruct (strip_bracketed v Hs He) as [Hfix _]. rewrite Hfix.
        rewrite (bool_decide_eq_false_2 _ Hv). cbn [orb].
        destruct (decide (v = py "[]")) as [Hv2|Hv2].
        -- rewrite (bool_decide_eq_true_2 _ Hv2), dumps_placeholder.
           eexists. split; [done|]. by vm_compute.
        -- rewrite (bool_decide_eq_false_2 _ Hv2). eauto.
      * destruct (dumps_singleton_bracketed v) as (Hs & He & Hne).
        destruct (strip_bracketed _ Hs He) as [Hfix Hnil]. rewrite Hfix.
        rewrite (bool_decide_eq_false_2 _ Hnil), (bool_decide_eq_false_2 _ Hne).
        cbn [orb].
        assert (v ≠ py "[]") as Hv2.
        { intros Hv2. unfold bracketed in Hb. rewrite Hv2 in Hb. by vm_compute in Hb. }
        rewrite (bool_decide_eq_false_2 _ Hv2). eauto.
  - intros v Hv. by apply loads_dumps_singleton.
  - vm_compute. reflexivity.
  - intros s mf_type Hlist. unfold normalize_value. rewrite Hlist.
    cbn [negb andb]. rewrite andb_false_r. cbn [negb].
    by destruct (is_blank s).
  - intros mf_type Hlist. unfold normalize_value. by rewrite Hlist.
Qed.

End NormalizeFacts.

(** ** Runs of the client *)

Section ClientFacts.
Context `{PyBuiltins} {W : Type}.
Variable send : W → request → http_result * W.
Variable process_product : option (W → delegation → outcome bool * W).
Variable created_within_last_minute : pystr → bool.
Variable STORE_DOMAIN API_VERSION : pystr.
Variable core_payload : product_data → method → outcome pyval.
Variable assemble_metafields : product_data → list metafield_data.

Implicit Types (σ : @state W) (w : W).

(** *** The monad *)

Lemma bind_unfold {A B} (m : M A) (k : A → M B) σ :
  bind m k σ = match m σ with
               | (Returns a, σ') => k a σ'
               | (Raises e, σ') => (Raises e, σ')
               end.
Proof. done. Qed.

Lemma http_answer r σ rs w :
  send (remote σ) r = (Answer rs, w) →
  http send r σ = (Returns rs, advance σ w [Sent r]).
Proof. intros Hs. unfold http. by rewrite Hs. Qed.

Lemma http_failure r σ e w :
  send (remote σ) r = (Failure e, w) →
  http send r σ = (Raises e, advance σ w [Sent r]).
Proof. intros Hs. unfold http. by rewrite Hs. Qed.

Lemma advance_advance σ w1 w2 evs1 evs2 :
  advance (advance σ w1 evs1) w2 evs2 = advance σ w2 (evs1 ++ evs2).
Proof. unfold advance. cbn. by rewrite app_assoc. Qed.

Lemma advance_nil σ : advance σ (remote σ) [] = σ.
Proof. destruct σ. unfold advance. cbn. by rewrite app_nil_r. Qed.

(** *** [manage_product_media] *)

Lemma media_to_remove_filter existing keep_ids :
  media_to_remove existing keep_ids
  = filter (λ media_id, media_id ∉ keep_ids) (image_key <$> existing).
Proof.
  unfold media_to_remove.
  induction existing as [|img l IH]; [done|].
  rewrite fmap_cons, filter_cons. simpl. unfold image_key at 1 2.
  destruct (decide (Str.of_Z (img_id img) ∈ keep_ids)) as [Hin|Hin].
  - rewrite decide_False by (intros Hn; by apply Hn). done.
  - rewrite decide_True by done. f_equal. exact IH.
Qed.

(** The deletion loop sends one request for every id, whatever the
    answers are, and collects the failures in order. *)
Lemma delete_loop product_id ids : ∀ σ removed_count errors,
  let deletes := manage_delete_request STORE_DOMAIN API_VERSION product_id <$> ids in
  let failures :=
    omap (λ p : pystr * http_result, deletion_failure p.1 p.2)
         (zip ids (answers send (remote σ) deletes)) in
  for_each ids (removed_count, errors)
           (delete_media send STORE_DOMAIN API_VERSION product_id) σ
  = (Returns (removed_count + Z.of_nat (length ids) - Z.of_nat (length failures),
              errors ++ failures),
     advance σ (after_requests send (remote σ) deletes) (Sent <$> deletes)).
Proof.
  induction ids as [|media_id ids IH]; intros σ removed_count errors.
  - cbn. rewrite app_nil_r, advance_nil. unfold ret. do 3 f_equal. lia.
  - cbn zeta. cbn [for_each fmap list_fmap answers after_requests zip zip_with].
    unfold mbind, M_bind. rewrite bind_unfold.
    unfold delete_media at 1. unfold try_except, mbind, M_bind.
    rewrite bind_unfold.
    set (rq := manage_delete_request STORE_DOMAIN API_VERSION product_id media_id).
    destruct (send (remote σ) rq) as [[rs|e] w] eqn:Hs.
    + rewrite (http_answer _ _ _ _ Hs).
      cbn [omap list_omap fst snd deletion_failure].
      destruct (rs_ok rs || (rs_status rs =? 204)) eqn:Hok; unfold ret.
      * rewrite IH. cbn [remote advance]. rewrite advance_advance.
        cbn [app length]. do 3 f_equal. lia.
      * rewrite IH. cbn [remote advance]. rewrite advance_advance.
        cbn [app length]. rewrite <- app_assoc. cbn [app]. do 3 f_equal. lia.
    + rewrite (http_failure _ _ _ _ Hs).
      cbn [omap list_omap fst snd deletion_failure].
      unfold ret. rewrite IH. cbn [remote advance]. rewrite advance_advance.
      cbn [app length]. rewrite <- app_assoc. cbn [app]. do 3 f_equal. lia.
Qed.

(** C7, general part: when the fetch of the product is answered with
    a success status and a JSON body, [manage_product_media] sends one
    DELETE for each image of that body whose id, as text, is not among
    the normalised keep-list entries ([gid://] entries reduced to their
    trailing path segment) and for no other; each deletion that is
    answered with an error status or raises adds one entry to the error
    list while the remaining deletions still take place; and the result
    reports success exactly when the error list is empty. *)
Theorem manage_product_media_prunes product_id keep σ response b w1 :
  send (remote σ) (manage_fetch_request STORE_DOMAIN API_VERSION product_id)
    = (Answer response, w1) →
  rs_ok response = true →
  rs_json response = Some b →
  let existing := prod_images (default empty_product (b_product b)) in
  let doomed :=
    filter (λ media_id, media_id ∉ normalize_media_id <$> keep)
           (image_key <$> existing) in
  let deletes := manage_delete_request STORE_DOMAIN API_VERSION product_id <$> doomed in
  let errors :=
    omap (λ p : pystr * http_result, deletion_failure p.1 p.2)
         (zip doomed (answers send w1 deletes)) in
  ∃ σ' result,
    manage_product_media send STORE_DOMAIN API_VERSION product_id keep σ
      = (Returns result, σ')
    ∧ trace σ' = trace σ
                 ++ Sent (manage_fetch_request STORE_DOMAIN API_VERSION product_id)
                 :: (Sent <$> deletes)
    ∧ mr_errors result = Some errors
    ∧ (mr_success result = true ↔ errors = []).
Proof.
  intros Hsend Hok Hjson existing doomed deletes errors.
  unfold manage_product_media, try_except, mbind, M_bind.
  rewrite bind_unfold, (http_answer _ _ _ _ Hsend), Hok. cbn [negb].
  rewrite bind_unfold. unfold json_of. rewrite Hjson. unfold ret at 1.
  rewrite bind_unfold, media_to_remove_filter.
  assert (Hd : filter (λ media_id, media_id ∉ keep_set keep)
                 (image_key <$> prod_images (default empty_product (b_product b)))
               = doomed).
  { unfold doomed, existing. apply list_filter_iff. intros x.
    unfold keep_set. by rewrite elem_of_list_to_set. }
  rewrite Hd, delete_loop. cbn [remote advance].
  rewrite advance_advance. unfold ret. cbn [app].
  eexists _, _. split; [reflexivity|]. cbn [trace advance mr_errors mr_success].
  split; [done|]. split; [done|].
  fold deletes. fold errors. apply bool_decide_eq_true.
Qed.

(** *** [reorder_product_media_by_order] *)

Lemma bind_returns {A B} (m : M A) (k : A → M B) σ b σ' :
  bind m k σ = (Returns b, σ') →
  ∃ a σ1, m σ = (Returns a, σ1) ∧ k a σ1 = (Returns b, σ').
Proof.
  rewrite bind_unfold. destruct (m σ) as [[a|e] σ1]; [eauto|done].
Qed.

(** A stable sort keeps the elements. *)
Lemma insert_sorted_perm {A} (le : A → A → bool) x l :
  insert_sorted le x l ≡ₚ x :: l.
Proof.
  induction l as [|y l IH]; [done|]. cbn.
  destruct (le x y); [done|]. rewrite IH. apply Permutation_swap.
Qed.

Lemma stable_sort_perm {A} (le : A → A → bool) l : stable_sort le l ≡ₚ l.
Proof.
  induction l as [|x l IH]; [done|]. cbn.
  rewrite insert_sorted_perm. by rewrite IH.
Qed.

Lemma elem_of_sorted_items (pm : gmap Z pystr) k v :
  (k, v) ∈ sorted_items pm ↔ pm !! k = Some v.
Proof.
  unfold sorted_items. rewrite stable_sort_perm. apply elem_of_map_to_list.
Qed.

Lemma foldr_min_le k ks : foldr Z.min k ks ≤ k ∧ Forall (λ x, foldr Z.min k ks ≤ x) ks.
Proof.
  induction ks as [|x ks [IH1 IH2]]; cbn; [split; [lia|constructor]|].
  split; [lia|]. constructor; [lia|].
  eapply Forall_impl; [exact IH2|]. cbn. lia.
Qed.

Lemma foldr_min_elem k ks : foldr Z.min k ks ∈ k :: ks.
Proof.
  induction ks as [|x ks IH]; cbn; [by left|].
  destruct (Z.min_spec x (foldr Z.min k ks)) as [[_ ->]|[_ ->]].
  - right. by left.
  - apply elem_of_cons in IH as [->|IH]; [by left|]. right. by right.
Qed.

(** [min_key] gives a key of the map that is below every key. *)
Lemma min_key_spec (pm : gmap Z pystr) :
  pm ≠ ∅ →
  ∃ k v, min_key pm = Some k ∧ pm !! k = Some v
         ∧ ∀ k', is_Some (pm !! k') → k ≤ k'.
Proof.
  intros Hne. unfold min_key.
  destruct (map_to_list pm) as [|[k0 v0] l] eqn:Hl.
  { by apply map_to_list_empty_iff in Hl. }
  cbn [fmap list_fmap fst].
  set (ks := l.*1).
  assert (Hin : ∀ k, k ∈ k0 :: ks ↔ is_Some (pm !! k)).
  { intros k. unfold ks. change (k0 :: l.*1) with (((k0, v0) :: l).*1).
    rewrite <- Hl, list_elem_of_fmap. split.
    - intros ([k' v] & -> & Hkv). apply elem_of_map_to_list in Hkv. eauto.
    - intros [v Hv]. exists (k, v). split; [done|]. by apply elem_of_map_to_list. }
  destruct (proj1 (Hin _) (foldr_min_elem k0 ks)) as [v Hv].
  exists (foldr Z.min k0 ks), v. split; [done|]. split; [done|].
  intros k' Hk'. apply Hin in Hk'.
  destruct (foldr_min_le k0 ks) as [H0 Hall].
  apply elem_of_cons in Hk' as [->|Hk']; [done|].
  rewrite Forall_forall in Hall. by apply Hall.
Qed.

(** When the loop that writes the positions returns, [int] accepted
    every image id it met. *)
Lemma update_loop_ints domain product_id l : ∀ σ1 errors0 errors σ2,
  for_each l errors0 (update_position send API_VERSION domain product_id) σ1
    = (Returns errors, σ2) →
  (∀ k v, (k, v) ∈ l → is_Some (py_int v))
  ∧ ∃ evs, trace σ2 = trace σ1 ++ evs.
Proof.
  induction l as [|[k v] l IH]; intros σ1 errors0 errors σ2 Hrun.
  - split; [by intros ?? ?%elem_of_nil|].
    cbn in Hrun. injection Hrun as _ <-. exists []. by rewrite app_nil_r.
  - cbn [for_each] in Hrun. unfold mbind, M_bind in Hrun.
    apply bind_returns in Hrun as (errors1 & σm & Hstep & Hrest).
    apply IH in Hrest as [Hall [evs2 Htr2]].
    unfold update_position in Hstep.
    destruct (py_int v) as [n|] eqn:Hn; [|done].
    assert (∃ evs1, trace σm = trace σ1 ++ evs1) as [evs1 Htr1].
    { unfold mbind, M_bind in Hstep.
      apply bind_returns in Hstep as (rs & σa & Hsend & Hfin).
      assert (trace σm = trace σa) as ->.
      { destruct (rs_ok rs); cbn in Hfin; by injection Hfin as _ <-. }
      unfold send_keeping_method, mbind, M_bind in Hsend.
      apply bind_returns in Hsend as (rs1 & σb & Hfirst & Hsecond).
      unfold http in Hfirst.
      destruct (send (remote σ1) _) as [[r1|e1] w1]; [|done].
      injection Hfirst as -> <-.
      destruct (is_redirect (rs_status rs1)).
      - unfold http in Hsecond. cbn [remote trace] in Hsecond.
        destruct (send w1 _) as [[r2|e2] w2]; [|done].
        injection Hsecond as _ <-. cbn. rewrite <- app_assoc. eauto.
      - cbn in Hsecond. injection Hsecond as _ <-. cbn. eauto. }
    split.
    + intros k' v' [Heq|Hin]%elem_of_cons; [|by eapply Hall].
      injection Heq as -> ->. by rewrite Hn.
    + exists (evs1 ++ evs2). by rewrite Htr2, Htr1, app_assoc.
Qed.

(** The block that sets the main image sends its request for the image
    of the least position, whatever the platform does with it. *)
Lemma set_main_image_sends domain product_id (pm : gmap Z pystr) k v n σ :
  min_key pm = Some k → pm !! k = Some v → py_int v = Some n →
  ∃ σ' rest,
    set_main_image send API_VERSION domain product_id pm σ = (Returns tt, σ')
    ∧ trace σ' = trace σ
                 ++ Sent (first_attempt ReorderCover PUT
                            (cover_url API_VERSION domain product_id)
                            (cover_payload product_id n)) :: rest.
Proof.
  intros Hmin Hv Hn. unfold set_main_image. rewrite Hmin, Hv, Hn.
  unfold try_except, mbind, M_bind. rewrite bind_unfold.
  unfold send_keeping_method, mbind, M_bind. rewrite bind_unfold.
  unfold http at 1.
  destruct (send (remote σ) _) as [[r1|e1] w1]; cbn [remote trace].
  - destruct (is_redirect (rs_status r1)).
    + unfold http. cbn [remote trace].
      destruct (send w1 _) as [[r2|e2] w2]; unfold ret;
        eexists _, _; (split; [reflexivity|]); cbn [trace];
        by rewrite <- app_assoc.
    + unfold ret. eexists _, []. split; [reflexivity|]. done.
  - unfold ret. eexists _, []. split; [reflexivity|]. done.
Qed.

(** The position map of the scenario of the specification. *)
Lemma position_map_scenario existing keep (U A : pystr) first_id idv p1 p2 :
  new_upload_ids existing (keep_set keep) = [U] →
  A ∈ image_key <$> existing →
  py_str idv = A →
  p1 ∈ [None; Some 1] → p2 ∈ [None; Some 2] →
  compute_position_map
    [{| oi_type := Some (py "upload"); oi_id := first_id; oi_position := p1 |};
     {| oi_type := Some (py "shopify"); oi_id := Some idv; oi_position := p2 |}]
    existing keep
  = {[1 := U; 2 := A]}.
Proof.
  intros Hnew HA Hid Hp1 Hp2. unfold compute_position_map. rewrite Hnew.
  cbn [foldl]. unfold place_item at 2. cbn [oi_type oi_id oi_position].
  rewrite decide_False by discriminate. rewrite decide_True by done.
  cbn [lookup list_lookup].
  assert (default (Z.of_nat (size (∅ : gmap Z pystr)) + 1) p1 = 1) as ->.
  { rewrite map_size_empty.
    apply elem_of_cons in Hp1 as [->|[->|[]%elem_of_nil]%elem_of_cons]; done. }
  unfold place_item. cbn [oi_type oi_id oi_position default].
  rewrite decide_True by done. unfold id. rewrite Hid.
  rewrite decide_True by done. cbn [fst].
  assert (from_option (λ x : Z, x)
            (Z.of_nat (size (<[1 := U]> (∅ : gmap Z pystr))) + 1) p2 = 2) as ->.
  { rewrite map_size_insert_None, map_size_empty by done.
    apply elem_of_cons in Hp2 as [->|[->|[]%elem_of_nil]%elem_of_cons]; done. }
  rewrite <- !insert_empty. by apply insert_insert_ne.
Qed.

(** An exception in the loop that writes the positions back leaves
    [reorder_product_media_by_order] before the block that sets the main
    image: here the map is [{1: "201"}], the first position update fails
    in the transport, and no request for the main image is sent. *)
Lemma reorder_cover_skipped_when_update_raises :
  let existing := [Worlds.simple_image 201 1] in
  let order := [{| oi_type := Some (py "upload"); oi_id := None; oi_position := Some 1 |}] in
  let world :=
    [Worlds.answer 200 (Worlds.product_body (Worlds.simple_product 7 (py "P") existing));
     Failure ConnectionError] in
  let run :=
    reorder_product_media_by_order (H := Reference.builtins) Worlds.play
      (py "shop.example") (py "2024-01") 7 order [] None
      (Worlds.initial world (py "shop.example")) in
  compute_position_map (H := Reference.builtins) order existing [] = {[1 := py "201"]}
  ∧ sites_of (trace run.2) = [ReorderFetch; ReorderPosition]
  ∧ run.1 = Returns {| res_success := false;
                       res_errors := Some [Raised (py "reordering product media by order")
                                                  ConnectionError] |}.
Proof. repeat split; vm_compute; reflexivity. Qed.

(** C1, as the code has it.  (1) With the instructions [upload] at
    position 1 and [shopify] with the id of an image [A] of the product
    at position 2 (the positions given or left to the running count),
    and exactly one image [U] outside the keep list, the position map is
    [{1: U, 2: A}].  (2) In every run in which the product is fetched,
    the position map is not empty and the loop that writes the positions
    back returns, the request that sets the main image of the product is
    sent, and it names the image that the map gives for its least
    key. *)
Theorem reorder_position_map_and_cover :
  (∀ existing keep (U A : pystr) first_id idv p1 p2,
     new_upload_ids existing (keep_set keep) = [U] →
     A ∈ image_key <$> existing →
     py_str idv = A →
     p1 ∈ [None; Some 1] → p2 ∈ [None; Some 2] →
     compute_position_map
       [{| oi_type := Some (py "upload"); oi_id := first_id; oi_position := p1 |};
        {| oi_type := Some (py "shopify"); oi_id := Some idv; oi_position := p2 |}]
       existing keep
     = {[1 := U; 2 := A]})
  ∧ (∀ product_id media_order keep shopify_domain σ response b w1,
       let domain := domain_or_default STORE_DOMAIN shopify_domain in
       let fetch := reorder_fetch_request API_VERSION domain product_id in
       let existing := prod_images (default empty_product (b_product b)) in
       let position_map := compute_position_map media_order existing keep in
       media_order ≠ [] →
       send (remote σ) fetch = (Answer response, w1) →
       rs_ok response = true →
       rs_json response = Some b →
       position_map ≠ ∅ →
       ∀ errors σ2,
         for_each (sorted_items position_map) []
                  (update_position send API_VERSION domain product_id)
                  (advance σ w1 [Sent fetch])
           = (Returns errors, σ2) →
         ∃ first_position first_image_id n σ' rest,
           position_map !! first_position = Some first_image_id
           ∧ (∀ k, is_Some (position_map !! k) → first_position ≤ k)
           ∧ py_int first_image_id = Some n
           ∧ reorder_product_media_by_order send STORE_DOMAIN API_VERSION
               product_id media_order keep shopify_domain σ
             = (Returns {| res_success := bool_decide (errors = []);
                           res_errors := Some errors |}, σ')
           ∧ trace σ' = trace σ2
                        ++ Sent (first_attempt ReorderCover PUT
                                   (cover_url API_VERSION domain product_id)
                                   (cover_payload product_id n)) :: rest).
Proof.
  split; [apply position_map_scenario|].
  intros product_id media_order keep shopify_domain σ response b w1
         domain fetch existing position_map Hne Hsend Hok Hjson Hpm errors σ2 Hloop.
  destruct (min_key_spec position_map Hpm) as (k & v & Hmin & Hv & Hleast).
  destruct (update_loop_ints _ _ _ _ _ _ _ Hloop) as [Hints _].
  destruct (Hints k v) as [n Hn]; [by apply elem_of_sorted_items|].
  destruct (set_main_image_sends domain product_id position_map k v n σ2 Hmin Hv Hn)
    as (σ' & rest & Hcover & Htrace).
  exists k, v, n, σ', rest. repeat (split; [done|]). split; [|done].
  unfold reorder_product_media_by_order.
  destruct media_order as [|item order]; [done|].
  unfold try_except, mbind, M_bind. fold domain. fold fetch.
  rewrite bind_unfold, (http_answer _ _ _ _ Hsend), Hok. cbn [negb].
  rewrite bind_unfold. unfold json_of. rewrite Hjson. unfold ret at 1.
  fold existing. fold position_map.
  rewrite bind_unfold, Hloop, bind_unfold, Hcover. done.
Qed.

(** *** Step 1 of [create_product]: which product was created *)

#[local] Abbreviation search_request := (title_search_request STORE_DOMAIN API_VERSION).
#[local] Abbreviation recent_request := (recent_products_request STORE_DOMAIN API_VERSION).

Lemma search_by_title_run t σ :
  search_by_title send STORE_DOMAIN API_VERSION t σ
  = (Returns (first_listed (has_title t) (send (remote σ) (search_request t)).1),
     advance σ (send (remote σ) (search_request t)).2 [Sent (search_request t)]).
Proof.
  unfold search_by_title, try_except, mbind, M_bind. rewrite bind_unfold.
  unfold http. destruct (send (remote σ) (search_request t)) as [[rs|e] w]; cbn.
  - destruct (rs_status rs =? 200); [|done].
    rewrite bind_unfold. unfold json_of. by destruct (rs_json rs).
  - done.
Qed.

Lemma search_recent_run t σ :
  search_recent send created_within_last_minute STORE_DOMAIN API_VERSION t σ
  = (Returns (first_listed (recent_with_title created_within_last_minute t)
                           (send (remote σ) recent_request).1),
     advance σ (send (remote σ) recent_request).2 [Sent recent_request]).
Proof.
  unfold search_recent, try_except, mbind, M_bind. rewrite bind_unfold.
  unfold http. destruct (send (remote σ) recent_request) as [[rs|e] w]; cbn.
  - destruct (rs_status rs =? 200); [|done].
    rewrite bind_unfold. unfold json_of. by destruct (rs_json rs).
  - done.
Qed.

(** The three stages of the disambiguation, with the requests each
    stage sends. *)
Lemma disambiguate_created_run t products_list σ :
  let a1 := send (remote σ) (search_request t) in
  let a2 := send a1.2 recent_request in
  disambiguate_created send created_within_last_minute STORE_DOMAIN API_VERSION
                       t products_list σ
  = match find (has_title t) products_list with
    | Some p => (Returns (Some p), σ)
    | None =>
        match first_listed (has_title t) a1.1 with
        | Some p => (Returns (Some p), advance σ a1.2 [Sent (search_request t)])
        | None =>
            (Returns (first_listed (recent_with_title created_within_last_minute t) a2.1),
             advance σ a2.2 [Sent (search_request t); Sent recent_request])
        end
    end.
Proof.
  cbn zeta. unfold disambiguate_created.
  destruct (find (has_title t) products_list); [done|].
  unfold mbind, M_bind. rewrite bind_unfold, search_by_title_run.
  destruct (first_listed (has_title t) _); [done|].
  rewrite search_recent_run. cbn [remote advance]. by rewrite advance_advance.
Qed.

#[local] Abbreviation run_create_product :=
  (create_product send process_product created_within_last_minute
                  STORE_DOMAIN API_VERSION core_payload assemble_metafields).


(** *** What a computation can do to the state *)

Section Steps.
Context (R : @state W → @state W → Prop) `{!PreOrder R}.

Lemma steps_ret {A} (a : A) : steps R (ret a).
Proof. intros σ. cbn. reflexivity. Qed.

Lemma steps_raise {A} e : steps R (raise (A := A) e).
Proof. intros σ. cbn. reflexivity. Qed.

Lemma steps_of_outcome {A} (o : outcome A) : steps R (of_outcome o).
Proof. destruct o; [apply steps_ret|apply steps_raise]. Qed.

Lemma steps_bind {A B} (m : M A) (k : A → M B) :
  steps R m → (∀ a, steps R (k a)) → steps R (bind m k).
Proof.
  intros Hm Hk σ. rewrite bind_unfold. specialize (Hm σ).
  destruct (m σ) as [[a|e] σ1]; cbn in *; [|done].
  by etrans; [|apply Hk].
Qed.

Lemma steps_try_except {A} (m : M A) (h : exn → M A) :
  steps R m → (∀ e, steps R (h e)) → steps R (try_except m h).
Proof.
  intros Hm Hh σ. unfold try_except. specialize (Hm σ).
  destruct (m σ) as [[a|e] σ1]; cbn in *; [done|].
  by etrans; [|apply Hh].
Qed.

Lemma steps_try_finally {A} (m : M A) (c : M unit) :
  steps R m → steps R c → steps R (try_finally m c).
Proof.
  intros Hm Hc σ. unfold try_finally. specialize (Hm σ).
  destruct (m σ) as [r σ1]; cbn in *. specialize (Hc σ1).
  destruct (c σ1) as [[[]|e] σ2]; cbn in *; by etrans.
Qed.

Lemma steps_for_each {A B} (l : list A) (step : B → A → M B) :
  (∀ acc x, steps R (step acc x)) → ∀ acc, steps R (for_each l acc step).
Proof.
  intros Hstep. induction l as [|x l IH]; intros acc; cbn.
  - apply steps_ret.
  - apply steps_bind; [apply Hstep|]. intros acc'. apply IH.
Qed.

End Steps.

#[local] Instance adds_only_preorder P : PreOrder (adds_only (W := W) P).
Proof.
  split.
  - intros σ. split; [|done]. exists []. by rewrite app_nil_r.
  - intros σ1 σ2 σ3 [(evs1 & Ht1 & Hp1) Hc1] [(evs2 & Ht2 & Hp2) Hc2].
    split; [|congruence]. exists (evs1 ++ evs2).
    rewrite Ht2, Ht1, app_assoc. split; [done|]. by apply Forall_app.
Qed.

Lemma steps_http P r : P (Sent r) → steps (adds_only P) (http send r).
Proof.
  intros HP σ. unfold http.
  destruct (send (remote σ) r) as [[rs|e] w]; cbn;
    (split; [|done]); exists [Sent r]; (split; [done|]); by constructor.
Qed.

Lemma steps_weaken (P Q : event → Prop) {A} (m : M (W := W) A) :
  (∀ ev, P ev → Q ev) → steps (adds_only P) m → steps (adds_only Q) m.
Proof.
  intros HPQ Hm σ. destruct (Hm σ) as [(evs & Ht & Hp) Hc].
  split; [|done]. exists evs. split; [done|].
  eapply Forall_impl; [exact Hp|done].
Qed.

(** One step of a syntax-directed proof that a computation only adds
    events of some kind. *)
Ltac steps_step :=
  unfold mbind, M_bind;
  lazymatch goal with
  | |- steps _ (ret _) => apply steps_ret; tc_solve
  | |- steps _ (raise _) => apply steps_raise; tc_solve
  | |- steps _ (of_outcome _) => apply steps_of_outcome; tc_solve
  | |- steps _ (bind _ _) => apply steps_bind; [tc_solve| |intros ?]
  | |- steps _ (try_except _ _) => apply steps_try_except; [tc_solve| |intros ?]
  | |- steps _ (try_finally _ _) => apply steps_try_finally; [tc_solve| |]
  | |- steps _ (for_each _ _ _) => apply steps_for_each; [tc_solve|intros ? ?]
  | |- steps _ (http _ _) => apply steps_http; cbn; compute_done
  | |- steps _ (json_of _) => unfold json_of
  | |- steps _ (send_keeping_method _ _ _ _ _) => unfold send_keeping_method
  | |- steps _ (match ?x with _ => _ end) => destruct x
  end.
Ltac steps_auto := repeat steps_step.

Lemma manage_product_media_steps product_id keep :
  steps (adds_only (from_sites [ManageFetch; ManageDelete]))
        (manage_product_media send STORE_DOMAIN API_VERSION product_id keep).
Proof. unfold manage_product_media, delete_media. steps_auto. Qed.

Lemma reorder_by_order_steps product_id media_order keep shopify_domain :
  steps (adds_only (from_sites [ReorderFetch; ReorderPosition; ReorderCover]))
        (reorder_product_media_by_order send STORE_DOMAIN API_VERSION
           product_id media_order keep shopify_domain).
Proof.
  unfold reorder_product_media_by_order, update_position, set_main_image.
  steps_auto.
Qed.

Lemma reorder_fallback_steps product_id ids :
  steps (adds_only (from_sites [FallbackReorderFetch; FallbackReorderPosition]))
        (reorder_product_media send STORE_DOMAIN API_VERSION product_id ids).
Proof. unfold reorder_product_media, fallback_position. steps_auto. Qed.

Lemma upload_steps product_id files ids shopify_domain :
  steps (adds_only (from_sites [UploadAttach; UploadFile; UploadRefetch]))
        (upload_media_to_product send STORE_DOMAIN API_VERSION
           product_id files ids shopify_domain).
Proof.
  unfold upload_media_to_product, attach_existing, upload_file. steps_auto.
Qed.

Lemma process_metafield_steps domain product_id existing acc md :
  steps (adds_only (from_sites [MetafieldWrite; MetafieldRetry]))
        (process_metafield send API_VERSION domain product_id existing acc md).
Proof. unfold process_metafield, retry_after_422. steps_auto. Qed.

Lemma create_metafields_steps product_id mfs shopify_domain :
  steps (adds_only (from_sites [MetafieldList; MetafieldWrite; MetafieldRetry]))
        (create_metafields send STORE_DOMAIN API_VERSION product_id mfs shopify_domain).
Proof.
  unfold create_metafields, fetch_existing. steps_auto.
  eapply steps_weaken; [|apply process_metafield_steps].
  intros [r|d]; cbn; [|done]. intros Hin. by right.
Qed.

Lemma update_product_taxable_steps product_id taxable :
  steps (adds_only (from_sites [TaxFetch; TaxUpdate]))
        (update_product_taxable send STORE_DOMAIN API_VERSION product_id taxable).
Proof. unfold update_product_taxable. steps_auto. Qed.

Lemma from_sites_not_tax sites :
  Forall (λ s, s ∉ [TaxFetch; TaxUpdate]) sites →
  ∀ ev, from_sites sites ev → not_tax ev.
Proof.
  intros Hsites [r|d]; cbn; [|done].
  intros Hin. by eapply Forall_forall in Hsites.
Qed.

Ltac not_tax_call lem :=
  eapply steps_weaken; cycle 1; [apply lem|apply from_sites_not_tax; compute_done].
Ltac not_tax_auto :=
  repeat first
    [ steps_step
    | not_tax_call manage_product_media_steps
    | not_tax_call reorder_by_order_steps
    | not_tax_call reorder_fallback_steps
    | not_tax_call upload_steps
    | not_tax_call create_metafields_steps ].

Lemma core_write_steps m u payload :
  steps (adds_only not_tax) (core_write send m u payload).
Proof. unfold core_write. not_tax_auto. Qed.

Lemma resolve_product_steps existing expected_title result :
  steps (adds_only not_tax)
        (resolve_product send created_within_last_minute STORE_DOMAIN API_VERSION
           existing expected_title result).
Proof.
  unfold resolve_product, disambiguate_created, search_by_title, search_recent.
  not_tax_auto.
Qed.

Lemma media_step_steps pd product_id actual :
  steps (adds_only not_tax)
        (media_step send STORE_DOMAIN API_VERSION pd product_id actual).
Proof.
  unfold media_step, reorder_step, fetch_custom_sku, read_outcome. not_tax_auto.
Qed.

Lemma metafield_step_steps pd product_id actual :
  steps (adds_only not_tax)
        (metafield_step send STORE_DOMAIN API_VERSION assemble_metafields
           pd product_id actual).
Proof. unfold metafield_step. not_tax_auto. Qed.

Lemma variant_step_steps pd product_id product actual :
  steps (adds_only not_tax)
        (variant_step process_product pd product_id product actual).
Proof.
  intros σ. unfold variant_step. destruct process_product as [run|]; [|reflexivity].
  generalize (default (py "Unknown Product") (prod_title product))
             (colour_images_for_bandit (pd_colour_images pd)).
  intros title ci.
  destruct actual as [[|c d]|];
    unfold mbind, M_bind, try_finally, try_except, bind, get_config,
      set_store_domains, call_process_product, ret; cbn;
    destruct (run _ _) as [[b|e] w]; cbn;
    (split; [eexists [_]; split; [reflexivity|by repeat constructor]|done]).
Qed.

(** *** The tax fixup *)

Lemma try_except_bind {A B} (m : M A) (k : A → M B) h σ :
  try_except (bind m k) h σ
  = match m σ with
    | (Returns a, σ1) => try_except (k a) h σ1
    | (Raises e, σ1) => h e σ1
    end.
Proof. unfold try_except. rewrite bind_unfold. by destruct (m σ) as [[a|e] σ1]. Qed.

Lemma try_except_ret_returns {A} (m : M A) (a0 : A) σ :
  ∃ a, (try_except m (λ _, ret a0) σ).1 = Returns a.
Proof. unfold try_except. destruct (m σ) as [[a|e] σ1]; cbn; eauto. Qed.

Lemma tax_event_weaken product_id taxable ev :
  tax_event STORE_DOMAIN API_VERSION product_id taxable ev →
  from_sites [TaxFetch; TaxUpdate] ev.
Proof.
  destruct ev as [r|d]; cbn; [|done].
  intros [->|(-> & _)]; cbn; compute_done.
Qed.

Lemma update_product_taxable_events product_id taxable σ :
  ∃ b rest σ',
    update_product_taxable send STORE_DOMAIN API_VERSION product_id taxable σ
    = (Returns b, σ')
    ∧ trace σ' = trace σ
                 ++ Sent (tax_fetch_request STORE_DOMAIN API_VERSION product_id) :: rest
    ∧ Forall (tax_event STORE_DOMAIN API_VERSION product_id taxable) rest
    ∧ config_STORE_DOMAIN σ' = config_STORE_DOMAIN σ.
Proof.
  pose proof (try_except_ret_returns
    (bind (http send (tax_fetch_request STORE_DOMAIN API_VERSION product_id))
          (λ response,
             if negb (rs_status response =? 200) then ret false
             else bind (json_of response) (λ b,
               match b_product b with
               | None => raise KeyError
               | Some product_data =>
                   bind (http send
                     {| rq_site := TaxUpdate; rq_method := PUT;
                        rq_url := {| url_host := STORE_DOMAIN;
                                     url_path := product_path API_VERSION product_id |};
                        rq_payload := VariantsPayload product_id
                          ((λ v, {| var_id := var_id v; var_sku := var_sku v;
                                    var_taxable := taxable |})
                             <$> prod_variants product_data);
                        rq_allow_redirects := true |})
                     (λ update_response,
                        if rs_status update_response =? 200
                        then bind (json_of update_response) (λ _, ret true)
                        else ret false)
               end))) false σ) as [b Hb].
  change (try_except _ _ σ)
    with (update_product_taxable send STORE_DOMAIN API_VERSION product_id taxable σ)
    in Hb.
  destruct (update_product_taxable send STORE_DOMAIN API_VERSION product_id taxable σ)
    as [o σ'] eqn:Hrun. cbn in Hb. subst o.
  exists b. unfold update_product_taxable, mbind, M_bind in Hrun.
  rewrite try_except_bind in Hrun. unfold http at 1 in Hrun.
  destruct (send (remote σ) _) as [[rs|e] w]; cbn in Hrun.
  2: { injection Hrun as _ <-. eexists [], _. by repeat split. }
  match type of Hrun with
  | try_except ?m ?h ?s = _ =>
      assert (Hsteps : steps (adds_only
                (tax_event STORE_DOMAIN API_VERSION product_id taxable))
                (try_except m h))
  end.
  { steps_auto. apply steps_http. right. cbn.
    do 3 (split; [done|]). eexists. split; [done|].
    apply Forall_fmap, Forall_true. done. }
  match type of Hrun with
  | ?m ?s = _ => destruct (Hsteps s) as [(rest & Ht & Hp) Hc]
  end.
  rewrite Hrun in Ht, Hc. cbn in Ht, Hc.
  exists rest, σ'. split; [done|]. rewrite Ht, <- app_assoc. done.
Qed.

Lemma tax_step_events taxable product_id σ :
  ∃ tax σ',
    tax_step send STORE_DOMAIN API_VERSION taxable product_id σ = (Returns tt, σ')
    ∧ trace σ' = trace σ ++ tax
    ∧ config_STORE_DOMAIN σ' = config_STORE_DOMAIN σ
    ∧ Forall (tax_event STORE_DOMAIN API_VERSION product_id false) tax
    ∧ (taxable = true → tax = [])
    ∧ (taxable = false →
       ∃ rest, tax = Sent (tax_fetch_request STORE_DOMAIN API_VERSION product_id) :: rest).
Proof.
  unfold tax_step. destruct taxable; cbn [negb].
  - exists [], σ. rewrite app_nil_r. by repeat split.
  - destruct (update_product_taxable_events product_id false σ)
      as (b & rest & σ' & Hrun & Ht & Hp & Hc).
    exists (Sent (tax_fetch_request STORE_DOMAIN API_VERSION product_id) :: rest), σ'.
    unfold mbind, M_bind. rewrite bind_unfold, Hrun.
    repeat split; [done|done| |done|by eexists].
    constructor; [by left|done].
Qed.

Lemma verify_step_steps actual product_id :
  steps (adds_only (from_sites [Verify]))
        (verify_step send STORE_DOMAIN API_VERSION actual product_id).
Proof. unfold verify_step. steps_auto. Qed.

Lemma tax_fixup_run_failed flag σ σ1 :
  adds_only not_tax σ σ1 → tax_fixup_run STORE_DOMAIN API_VERSION flag σ (Returns failed, σ1).
Proof.
  intros [(evs & Ht & Hp) Hc]. exists evs, [], []. cbn.
  rewrite app_nil_r. repeat split; try done.
  by intros c [= <-].
Qed.

Lemma tax_fixup_run_after_core pd flag product product_id actual σ σ1 :
  adds_only not_tax σ σ1 →
  prod_id product = Some product_id →
  tax_fixup_run STORE_DOMAIN API_VERSION flag σ
    (try_except
       (after_core send process_product STORE_DOMAIN API_VERSION assemble_metafields
                   pd flag product product_id actual)
       (λ _, ret failed) σ1).
Proof.
  intros H0 Hid. unfold after_core, mbind, M_bind.
  rewrite try_except_bind.
  pose proof (media_step_steps pd product_id actual σ1) as H1.
  destruct (media_step _ _ _ _ _ _ σ1) as [[[]|e] σ2]; cbn [snd] in H1.
  2: { apply tax_fixup_run_failed. by etrans. }
  rewrite try_except_bind.
  pose proof (metafield_step_steps pd product_id actual σ2) as H2.
  destruct (metafield_step _ _ _ _ _ _ _ σ2) as [[[]|e] σ3]; cbn [snd] in H2.
  2: { apply tax_fixup_run_failed. by do 2 (etrans; [eassumption|]). }
  rewrite try_except_bind.
  pose proof (variant_step_steps pd product_id product actual σ3) as H3.
  destruct (variant_step _ _ _ _ _ σ3) as [[[]|e] σ4]; cbn [snd] in H3.
  2: { apply tax_fixup_run_failed. by do 3 (etrans; [eassumption|]). }
  assert (Hbefore : adds_only not_tax σ σ4) by (by do 3 (etrans; [eassumption|])).
  clear H0 H1 H2 H3. destruct Hbefore as [(before & Htb & Hpb) Hcb].
  rewrite try_except_bind.
  destruct (tax_step_events flag product_id σ4)
    as (tax & σ5 & -> & Htt & Hct & Hpt & Htrue & Hfalse).
  rewrite try_except_bind.
  destruct (verify_step_steps actual product_id σ5) as [(after & Hta & Hpa) Hca].
  exists before, tax, after.
  assert (Htrace : ∀ σ6, σ6 = (verify_step send STORE_DOMAIN API_VERSION actual
                                  product_id σ5).2 →
    trace σ6 = trace σ ++ before ++ tax ++ after
    ∧ config_STORE_DOMAIN σ6 = config_STORE_DOMAIN σ).
  { intros r ->. rewrite Hta, Htt, Htb, Hca, Hct, Hcb, <- !app_assoc. done. }
  assert (Hsites : Forall (from_sites [TaxFetch; TaxUpdate]) tax).
  { eapply Forall_impl; [exact Hpt|]. apply tax_event_weaken. }
  destruct (verify_step _ _ _ _ _ σ5) as [[[]|e] σ6]; cbn [snd] in *.
  - destruct (Htrace σ6 eq_refl) as [? ?].
    cbn. repeat split; try done.
    intros c [= <-] _. exists product, product_id. by repeat split.
  - destruct (Htrace σ6 eq_refl) as [? ?].
    cbn. repeat split; try done.
    by intros c [= <-].
Qed.

Lemma create_product_tax_fixup_run pd σ :
  tax_fixup_run STORE_DOMAIN API_VERSION (taxable_of (pd_charge_vat pd)) σ
                (run_create_product pd σ).
Proof.
  unfold create_product.
  destruct (core_target STORE_DOMAIN API_VERSION (pd_product_id pd)) as [method u].
  cbn zeta. generalize (taxable_of (pd_charge_vat pd)). intros flag.
  destruct (Str.strip (default [] (pd_title pd))) as [|c0 title].
  { by apply tax_fixup_run_failed. }
  generalize (c0 :: title). clear c0 title. intros expected_title.
  unfold mbind, M_bind. rewrite try_except_bind.
  destruct (core_payload pd method) as [payload|e]; cbn [of_outcome ret raise].
  2: { by apply tax_fixup_run_failed. }
  rewrite try_except_bind.
  pose proof (core_write_steps method u payload σ) as H1.
  destruct (core_write send method u payload σ) as [[[response actual]|e] σ1];
    cbn [snd] in H1.
  2: { by apply tax_fixup_run_failed. }
  destruct (negb (is_200_201 (rs_status response))).
  { by apply tax_fixup_run_failed. }
  destruct (rs_json response) as [result|].
  2: { by apply tax_fixup_run_failed. }
  destruct (b_errors result).
  { by apply tax_fixup_run_failed. }
  rewrite try_except_bind.
  pose proof (resolve_product_steps (pd_product_id pd) expected_title result σ1) as H2.
  destruct (resolve_product _ _ _ _ _ _ _ σ1) as [[[product|]|e] σ2]; cbn [snd] in H2.
  2,3: apply tax_fixup_run_failed; by etrans.
  assert (H3 : adds_only not_tax σ σ2) by (by etrans).
  destruct (product_is_empty product).
  { by apply tax_fixup_run_failed. }
  destruct (prod_id product) as [product_id|] eqn:Hid.
  2: { by apply tax_fixup_run_failed. }
  destruct (product_id =? 0).
  { by apply tax_fixup_run_failed. }
  by apply tax_fixup_run_after_core.
Qed.


(** *** The canonical host *)

(** C9: a run of [create_product] leaves [config.STORE_DOMAIN] as it
    found it, whatever the variant generator does.  The host of a
    redirect of the core request is not used by every later request,
    though: in the update of product 7 with [charge_vat] of [no], whose
    core request is redirected from [shop.example] to the canonical
    host, the repeated core request and the read-back go to the canonical
    host and the variant generator runs with the canonical host as store
    domain, while the fetch of [manage_product_media] and the two
    requests of the tax fixup go to [shop.example]. *)
Theorem canonical_host_not_used_by_all_calls :
  (∀ pd σ, config_STORE_DOMAIN (run_create_product pd σ).2 = config_STORE_DOMAIN σ)
  ∧ let run :=
      create_product (H := Reference.builtins) Worlds.play
        (Some (λ (s : Worlds.script) _, (Returns true, s))) (λ _, false)
        (py "shop.example") (py "2024-01")
        (λ _ _, Returns PyNone) pd_metafields
        Worlds.update_without_vat
        (Worlds.initial Worlds.redirected_update (py "shop.example")) in
    run.1 = Returns {| cr_success := true;
                       cr_product := Some (Worlds.simple_product 7 (py "P") []) |}
    ∧ hosts_of (trace run.2)
      = [(CoreWrite, py "shop.example");
         (CoreWrite, Worlds.canonical_host);
         (ManageFetch, py "shop.example");
         (TaxFetch, py "shop.example");
         (TaxUpdate, py "shop.example");
         (Verify, Worlds.canonical_host)]
    ∧ delegated_domains (trace run.2) = [Worlds.canonical_host]
    ∧ config_STORE_DOMAIN run.2 = py "shop.example".
Proof.
  split.
  - intros pd σ.
    by destruct (create_product_tax_fixup_run pd σ) as (? & ? & ? & _ & Hc & _).
  - repeat split; vm_compute; reflexivity.
Qed.

(** *** [create_metafields] *)

Lemma fetch_existing_run domain product_id σ :
  let rq := metafield_list_request API_VERSION domain product_id in
  let a := send (remote σ) rq in
  fetch_existing send API_VERSION domain product_id σ
  = (Returns (listed_identities a.1), advance σ a.2 [Sent rq]).
Proof.
  cbn zeta. unfold fetch_existing, mbind, M_bind.
  rewrite try_except_bind. unfold http.
  destruct (send (remote σ) _) as [[resp|e] w]; [|done].
  cbn [fst snd listed_identities]. destruct (rs_status resp =? 200); [|done].
  rewrite try_except_bind. unfold json_of. by destruct (rs_json resp).
Qed.

Lemma process_metafield_returns domain product_id existing acc md σ :
  ∃ acc', (process_metafield send API_VERSION domain product_id existing acc md σ).1
          = Returns acc'.
Proof.
  unfold process_metafield. destruct acc as [success_count errors].
  unfold try_except. destruct (_ σ) as [[a|e] σ1]; cbn; eauto.
Qed.

Lemma for_each_returns {A B} (l : list A) (step : B → A → M B) :
  (∀ acc x σ, ∃ acc', (step acc x σ).1 = Returns acc') →
  ∀ acc σ, ∃ acc', (for_each l acc step σ).1 = Returns acc'.
Proof.
  intros Hstep. induction l as [|x l IH]; intros acc σ; cbn [for_each]; [by eexists|].
  unfold mbind, M_bind. rewrite bind_unfold. destruct (Hstep acc x σ) as [acc1 H1].
  destruct (step acc x σ) as [o σ1]. cbn in H1. subst o. apply IH.
Qed.

(** The first request of a block that starts with the pattern of
    [send_keeping_method], and what follows it. *)
Lemma first_request (P : event → Prop) {A B} r (f : response → M A) (k : A → M B) h σ :
  (∀ rs, steps (adds_only P) (try_except (bind (f rs) k) h)) →
  (∀ e, steps (adds_only P) (h e)) →
  ∃ rest, trace (try_except (bind (bind (http send r) f) k) h σ).2
          = trace σ ++ Sent r :: rest
          ∧ Forall P rest.
Proof.
  intros Hf Hh. rewrite try_except_bind, bind_unfold. unfold http.
  destruct (send (remote σ) r) as [[rs|e] w].
  - rewrite <- try_except_bind.
    match goal with
    | |- context [try_except _ _ ?s] => destruct (Hf rs s) as [(rest & Ht & Hp) _]
    end.
    exists rest. rewrite Ht. cbn. by rewrite <- app_assoc.
  - match goal with
    | |- context [h e ?s] => destruct (Hh e s) as [(rest & Ht & Hp) _]
    end.
    exists rest. rewrite Ht. cbn. by rewrite <- app_assoc.
Qed.

Lemma process_metafield_updates domain product_id existing acc md id :
  lookup_existing existing (default (py "custom") (md_namespace md))
                  (default [] (md_key md)) = Some id →
  steps (adds_only update_event)
        (process_metafield send API_VERSION domain product_id existing acc md).
Proof.
  intros Hid. unfold process_metafield, retry_after_422. cbn zeta. rewrite Hid.
  steps_auto; apply steps_http; cbn; eauto.
Qed.

Lemma process_metafield_update_events domain product_id existing acc md id σ :
  let namespace := default (py "custom") (md_namespace md) in
  let key := default [] (md_key md) in
  lookup_existing existing namespace key = Some id →
  ∃ evs,
    trace (process_metafield send API_VERSION domain product_id existing acc md σ).2
    = trace σ ++ evs
    ∧ Forall update_event evs
    ∧ (value_to_send md = SkipAttribute → evs = [])
    ∧ ∀ fv, value_to_send md = SendValue fv →
        ∃ rest, evs = Sent (first_attempt MetafieldWrite PUT
                              (metafield_url API_VERSION domain product_id (Some id))
                              (metafield_payload (Some id) namespace key fv (type_of md)))
                      :: rest.
Proof.
  intros namespace key Hid.
  destruct (value_to_send md) as [|fv] eqn:Hv.
  - exists []. unfold process_metafield. destruct acc as [count errors].
    rewrite Hv. cbn. rewrite app_nil_r. by repeat split.
  - unfold process_metafield. destruct acc as [count errors]. cbn zeta.
    fold namespace key. rewrite Hv, Hid.
    unfold send_keeping_method, mbind, M_bind.
    match goal with
    | |- context [try_except (bind (bind (http send ?r) ?f) ?k) ?h σ] =>
        destruct (first_request update_event r f k h σ) as (rest & Ht & Hp)
    end.
    + intros rs. unfold retry_after_422. steps_auto; apply steps_http; cbn; eauto.
    + intros e. steps_auto.
    + eexists. split; [exact Ht|]. split; [|split; [done|]].
      * constructor; [|done]. cbn. eauto.
      * intros fv' [= <-]. by eexists.
Qed.

Lemma create_metafields_run product_id mfs dom σ :
  let domain := domain_or_default STORE_DOMAIN dom in
  let rq := metafield_list_request API_VERSION domain product_id in
  let a := send (remote σ) rq in
  ∃ acc σ2 writes,
    for_each mfs (0, [])
             (process_metafield send API_VERSION domain product_id (listed_identities a.1))
             (advance σ a.2 [Sent rq])
    = (Returns acc, σ2)
    ∧ create_metafields send STORE_DOMAIN API_VERSION product_id mfs dom σ
      = (Returns {| mfr_success := bool_decide (acc.2 = []);
                    mfr_success_count := acc.1; mfr_errors := acc.2 |}, σ2)
    ∧ trace σ2 = trace σ ++ Sent rq :: writes
    ∧ Forall (from_sites [MetafieldWrite; MetafieldRetry]) writes.
Proof.
  intros domain rq a.
  destruct (for_each_returns mfs
              (process_metafield send API_VERSION domain product_id
                                 (listed_identities a.1))
              (process_metafield_returns domain product_id (listed_identities a.1))
              (0, []) (advance σ a.2 [Sent rq])) as [acc Hacc].
  destruct (steps_for_each (adds_only (from_sites [MetafieldWrite; MetafieldRetry]))
              mfs _ (process_metafield_steps domain product_id (listed_identities a.1))
              (0, []) (advance σ a.2 [Sent rq])) as [(writes & Ht & Hp) _].
  destruct (for_each mfs _ _ _) as [o σ2] eqn:Hrun. cbn in Hacc, Ht. subst o.
  exists acc, σ2, writes. split; [done|]. split.
  - unfold create_metafields, mbind, M_bind.
    rewrite try_except_bind, fetch_existing_run. fold domain rq a.
    rewrite try_except_bind, Hrun. by destruct acc.
  - split; [|done]. rewrite Ht. cbn. by rewrite <- app_assoc.
Qed.

(** *** The choices of a subcategory key *)

Lemma retry_after_422_run domain product_id existing_id namespace key mf_type
    response fv σ :
  retry_after_422 send API_VERSION domain product_id existing_id namespace key
                  mf_type response fv σ
  = match retry_of response fv with
    | None => (Returns false, σ)
    | Some v =>
        let rq := retry_request API_VERSION domain product_id existing_id
                                namespace key mf_type v in
        let a := send (remote σ) rq in
        (Returns (accepted a.1), advance σ a.2 [Sent rq])
    end.
Proof.
  unfold retry_after_422, retry_of, mbind, M_bind. rewrite try_except_bind.
  unfold json_of. destruct (rs_json response) as [err_data|]; [|done].
  cbn [ret option_bind]. change (Some err_data ≫= _) with (retry_value err_data fv).
  destruct (retry_value err_data fv) as [v|]; [|done].
  rewrite try_except_bind. unfold http.
  by destruct (send (remote σ) _) as [[rr|e] w].
Qed.

Lemma process_metafield_skips domain product_id existing acc md σ :
  value_to_send md = SkipAttribute →
  process_metafield send API_VERSION domain product_id existing acc md σ
  = (Returns acc, σ).
Proof.
  intros Hv. unfold process_metafield. destruct acc as [count errors].
  by rewrite Hv.
Qed.

Lemma process_metafield_refused domain product_id existing count errors md fv
    response w1 σ :
  let mf_type := type_of md in
  let namespace := default (py "custom") (md_namespace md) in
  let key := default [] (md_key md) in
  let existing_id := lookup_existing existing namespace key in
  let first := first_attempt MetafieldWrite (metafield_method existing_id)
                 (metafield_url API_VERSION domain product_id existing_id)
                 (metafield_payload existing_id namespace key fv mf_type) in
  let failure := BadStatus (metafield_label md) 422 in
  is_list_type mf_type = true →
  is_subcategory_key namespace key = true →
  value_to_send md = SendValue fv →
  send (remote σ) first = (Answer response, w1) →
  rs_status response = 422 →
  process_metafield send API_VERSION domain product_id existing (count, errors) md σ
  = match retry_of response fv with
    | None => (Returns (count, errors ++ [failure]), advance σ w1 [Sent first])
    | Some v =>
        let rq := retry_request API_VERSION domain product_id existing_id
                                namespace key mf_type v in
        let a := send w1 rq in
        (Returns (if accepted a.1 then (count + 1, errors)
                  else (count, errors ++ [failure])),
         advance σ a.2 [Sent first; Sent rq])
    end.
Proof.
  intros mf_type namespace key existing_id first failure Hlist Hsub Hv Hsend Hstatus.
  unfold process_metafield. cbn zeta.
  fold mf_type namespace key existing_id. rewrite Hv.
  unfold send_keeping_method, mbind, M_bind.
  rewrite try_except_bind, bind_unfold. fold first.
  rewrite (http_answer _ _ _ _ Hsend), Hstatus.
  change (is_redirect 422) with false. cbn [ret]. rewrite Hstatus.
  change (is_200_201 422) with false. change (422 =? 422) with true.
  rewrite Hlist, Hsub. cbn [andb]. rewrite try_except_bind, retry_after_422_run.
  destruct (retry_of response fv) as [v|]; [|done].
  cbn zeta. cbn [remote advance]. rewrite advance_advance.
  by destruct (accepted _).
Qed.

Lemma value_to_send_filter md :
  let mf_type := type_of md in
  let namespace := default (py "custom") (md_namespace md) in
  let key := default [] (md_key md) in
  let formatted_value := normalize_value (default (PyStr []) (md_value md)) mf_type in
  let allowed := Categories.get_metafield_choices key in
  is_list_type mf_type = true →
  is_subcategory_key namespace key = true →
  (allowed = [] → value_to_send md = SendValue formatted_value)
  ∧ (allowed ≠ [] → decoded formatted_value = None →
     value_to_send md = SendValue formatted_value)
  ∧ (∀ items,
       allowed ≠ [] →
       decoded formatted_value = Some (PyList items) →
       forallb hashable items = true →
       let filtered := filter (λ v, Str.strip (py_str v) ∈ allowed) items in
       value_to_send md
       = if filtered is [] then SkipAttribute
         else SendValue (PyStr (Json.dumps (PyList filtered)))).
Proof.
  intros mf_type namespace key formatted_value allowed Hlist Hsub.
  unfold value_to_send. cbn zeta. fold mf_type namespace key formatted_value.
  rewrite Hlist, Hsub. cbn [andb]. unfold filter_to_choices. fold allowed.
  fold (decoded formatted_value).
  assert (Hset : (list_to_set allowed : gset pystr) = ∅ ↔ allowed = []).
  { split; [|by intros ->]. destruct allowed as [|c l]; [done|].
    intros Hs.
    assert (c ∈ (list_to_set (c :: l) : gset pystr)) as Hin
      by (apply elem_of_list_to_set; left).
    rewrite Hs in Hin. by apply elem_of_empty in Hin. }
  split; [|split].
  - intros Hnil. by rewrite decide_True by (by apply Hset).
  - intros Hne Hdec. rewrite decide_False by (by rewrite Hset). by rewrite Hdec.
  - intros items Hne Hdec Hhash.
    rewrite decide_False by (by rewrite Hset). rewrite Hdec, Hhash.
    rewrite andb_false_r.
    assert (Hf : filter (λ v, Str.strip (py_str v) ∈ (list_to_set allowed : gset pystr))
                        items
                 = filter (λ v, Str.strip (py_str v) ∈ allowed) items).
    { apply list_filter_iff. intros v. by rewrite elem_of_list_to_set. }
    by rewrite Hf.
Qed.

Lemma text_in_elem s allowed : text_in s allowed = true → PyStr s ∈ allowed.
Proof.
  unfold text_in. rewrite existsb_exists. intros (a & Hin & Ha).
  apply list_elem_of_In in Hin. destruct a; try done.
  by apply bool_decide_eq_true in Ha as ->.
Qed.

Lemma first_matching_elem s allowed a :
  first_matching s allowed = Returns (Some a) →
  PyStr a ∈ allowed ∧ (Str.strip a = s ∨ py_lower (Str.strip a) = py_lower s).
Proof.
  induction allowed as [|x l IH]; [done|]. cbn.
  destruct x; try done.
  destruct (bool_decide (Str.strip s0 = s)) eqn:H1; cbn [orb].
  { intros [= ->]. apply bool_decide_eq_true in H1. split; [by left|by left]. }
  destruct (bool_decide (py_lower (Str.strip s0) = py_lower s)) eqn:H2.
  { intros [= ->]. apply bool_decide_eq_true in H2. split; [by left|by right]. }
  intros Hrest. destruct (IH Hrest) as [Hin Hm]. split; [by right|done].
Qed.

Lemma match_all_canonical allowed items filtered :
  match_all allowed items = Some filtered →
  ∀ c, c ∈ filtered →
    PyStr c ∈ allowed
    ∧ ∃ item, item ∈ items
              ∧ (c = Str.strip (py_str item)
                 ∨ Str.strip c = Str.strip (py_str item)
                 ∨ py_lower (Str.strip c) = py_lower (Str.strip (py_str item))).
Proof.
  revert filtered. induction items as [|v r IH]; intros filtered; cbn [match_all].
  { intros [= <-] c Hc. by apply elem_of_nil in Hc. }
  destruct (_match_choice allowed v) as [m|e] eqn:Hm; [|done].
  destruct (match_all allowed r) as [rest|]; [|done]. cbn [option_bind mbind].
  assert (Hrest : ∀ c, c ∈ rest →
    PyStr c ∈ allowed
    ∧ ∃ item, item ∈ v :: r
              ∧ (c = Str.strip (py_str item)
                 ∨ Str.strip c = Str.strip (py_str item)
                 ∨ py_lower (Str.strip c) = py_lower (Str.strip (py_str item)))).
  { intros c Hc. destruct (IH rest eq_refl c Hc) as (Hin & item & Hitem & Hmatch).
    split; [done|]. exists item. split; [by right|done]. }
  destruct m as [[|c0 a]|]; cbn; intros [= <-]; [done| |done].
  intros c [->|Hc]%elem_of_cons; [|by apply Hrest].
  unfold _match_choice in Hm.
  destruct (text_in (Str.strip (py_str v)) allowed) eqn:Ht.
  - injection Hm as Hm. rewrite <- Hm. split; [by apply text_in_elem|].
    exists v. split; [by left|by left].
  - apply first_matching_elem in Hm as [Hin Hmatch]. split; [done|].
    exists v. split; [by left|]. right. done.
Qed.

Lemma retry_value_canonical err_data fv v :
  retry_value err_data fv = Some v →
  ∃ err_str allowed items filtered,
    choices_error_text err_data = Some err_str
    ∧ allowed_from_error err_str = Some allowed
    ∧ decoded fv = Some (PyList items)
    ∧ filtered ≠ []
    ∧ v = PyStr (Json.dumps (PyList (PyStr <$> filtered)))
    ∧ ∀ c, c ∈ filtered →
        PyStr c ∈ allowed
        ∧ ∃ item, item ∈ items
                  ∧ (c = Str.strip (py_str item)
                     ∨ Str.strip c = Str.strip (py_str item)
                     ∨ py_lower (Str.strip c) = py_lower (Str.strip (py_str item))).
Proof.
  unfold retry_value. fold (decoded fv).
  destruct (choices_error_text err_data) as [err_str|]; [|done]. cbn [mbind option_bind].
  destruct (allowed_from_error err_str) as [allowed|] eqn:Hallowed; [|done]. cbn [mbind option_bind].
  destruct (decoded fv) as [parsed|]; [|done]. cbn [mbind option_bind].
  destruct parsed as [| | | | |items|]; try done.
  destruct allowed as [|a0 allowed]; [done|].
  destruct (match_all (a0 :: allowed) items) as [filtered|] eqn:Hall; [|done].
  cbn [mbind option_bind]. destruct filtered as [|c0 filtered]; [done|].
  intros Hv%(inj Some). subst v.
  exists err_str, (a0 :: allowed), items, (c0 :: filtered).
  do 5 (split; [done|]). by eapply match_all_canonical.
Qed.


(** *** Further properties of the media functions *)

(** [manage_product_media] never raises and never deletes an image of
    the keep list, whatever the platform answers: its requests are the
    fetch of the product and then deletions of images whose id is not
    among the normalised keep-list entries.  When the product cannot be
    read -- the transport fails, the status is an error or the body is
    not JSON -- the fetch is the only request and the result reports
    failure. *)
Theorem manage_product_media_spares_kept product_id keep σ :
  let fetch := manage_fetch_request STORE_DOMAIN API_VERSION product_id in
  let a := send (remote σ) fetch in
  let run := manage_product_media send STORE_DOMAIN API_VERSION product_id keep σ in
  ∃ result deleted,
    run.1 = Returns result
    ∧ trace run.2
      = trace σ ++ Sent fetch
                   :: (Sent <$> (manage_delete_request STORE_DOMAIN API_VERSION product_id
                                   <$> deleted))
    ∧ Forall (λ media_id, media_id ∉ normalize_media_id <$> keep) deleted
    ∧ (fetched_body a.1 = None → deleted = [] ∧ mr_success result = false).
Proof.
  intros fetch a run. unfold run, manage_product_media, mbind, M_bind.
  rewrite try_except_bind. fold fetch. unfold http. fold a.
  destruct a as [[response|e] w1] eqn:Ha; cbn [fst snd fetched_body].
  2: { eexists _, []. cbn. by repeat split. }
  destruct (rs_ok response) eqn:Hok; cbn [negb].
  2: { eexists _, []. cbn. by repeat split. }
  rewrite try_except_bind. unfold json_of.
  destruct (rs_json response) as [b|] eqn:Hjson.
  2: { eexists _, []. cbn. by repeat split. }
  cbn [ret]. rewrite try_except_bind, delete_loop. unfold try_except, ret.
  eexists _, _. cbn [fst snd remote advance trace].
  split; [reflexivity|]. split; [by rewrite <- app_assoc|]. split; [|done].
  rewrite media_to_remove_filter. apply Forall_forall. intros media_id Hin.
  apply list_elem_of_filter in Hin as [Hnot _]. unfold keep_set in Hnot.
  by rewrite elem_of_list_to_set in Hnot.
Qed.

Lemma new_upload_ids_existing existing keep_ids media_id :
  media_id ∈ new_upload_ids existing keep_ids → media_id ∈ image_key <$> existing.
Proof.
  unfold new_upload_ids. intros (img & -> & Hin)%list_elem_of_fmap.
  rewrite stable_sort_perm in Hin. apply list_elem_of_filter in Hin as [_ Hin].
  by apply list_elem_of_fmap_2.
Qed.

Lemma place_item_existing existing new_ids st item :
  (∀ media_id, media_id ∈ new_ids → media_id ∈ image_key <$> existing) →
  (∀ k v, st.1 !! k = Some v → v ∈ image_key <$> existing) →
  ∀ k v, (place_item existing new_ids st item).1 !! k = Some v →
         v ∈ image_key <$> existing.
Proof.
  intros Hnew Hst k v. destruct st as [position_map processed]. unfold place_item.
  set (position := default _ (oi_position item)).
  assert (Hins : ∀ image_id, image_id ∈ image_key <$> existing →
    (<[position := image_id]> position_map) !! k = Some v →
    v ∈ image_key <$> existing).
  { intros image_id Hid. rewrite lookup_insert.
    case_decide; [by intros [= <-]|by apply Hst]. }
  repeat case_decide; cbn [fst].
  - by apply Hins.
  - destruct (list_find _ _) as [[j img_id]|] eqn:Hfind; cbn [fst]; [|by apply Hst].
    apply list_find_Some in Hfind as (Hl & _). apply Hins.
    apply list_elem_of_lookup. by exists j.
  - destruct (new_ids !! processed) as [image_id|] eqn:Hl; cbn [fst].
    + apply Hins, Hnew. apply list_elem_of_lookup. by exists processed.
    + destruct (stable_sort _ _) as [|first rest] eqn:Hsort; cbn [fst]; [by apply Hst|].
      apply Hins. apply list_elem_of_fmap_2.
      assert (Hin : first ∈ stable_sort position_key_le
                (filter (λ img, image_key img ∉ map_values position_map) existing))
        by (rewrite Hsort; left).
      rewrite stable_sort_perm in Hin. by apply list_elem_of_filter in Hin as [_ Hin].
  - by apply Hst.
Qed.

(** The position map only names images of the product: whatever the
    order instructions and the keep list say, every id the map assigns a
    position to is the id of an image in the fetched product, so no
    position is written for an image that is not there; and the map has
    at most one entry for each instruction. *)
Theorem position_map_names_product_images media_order existing keep :
  let position_map := compute_position_map media_order existing keep in
  (∀ position media_id,
     position_map !! position = Some media_id → media_id ∈ image_key <$> existing)
  ∧ (size position_map ≤ length media_order)%nat.
Proof.
  cbn zeta. unfold compute_position_map.
  set (new_ids := new_upload_ids existing (keep_set keep)).
  assert (Hfold : ∀ order st,
    (∀ k v, st.1 !! k = Some v → v ∈ image_key <$> existing) →
    (∀ k v, (foldl (place_item existing new_ids) st order).1 !! k = Some v →
            v ∈ image_key <$> existing)
    ∧ (size (foldl (place_item existing new_ids) st order).1
       ≤ size st.1 + length order)%nat).
  { induction order as [|item order IH]; intros st Hst; cbn [foldl length].
    - split; [done|lia].
    - destruct (IH (place_item existing new_ids st item)) as [Hv Hs].
      { apply place_item_existing; [|done]. apply new_upload_ids_existing. }
      split; [done|].
      assert (size (place_item existing new_ids st item).1 ≤ S (size st.1))%nat; [|lia].
      destruct st as [position_map processed]. unfold place_item.
      set (position := default _ (oi_position item)).
      assert (Hins : ∀ image_id,
        (size (<[position := image_id]> position_map) ≤ S (size position_map))%nat).
      { intros image_id. destruct (position_map !! position) eqn:Hl.
        - rewrite map_size_insert_Some by done. lia.
        - by rewrite map_size_insert_None. }
      repeat case_decide; cbn [fst]; repeat case_match; cbn [fst]; try apply Hins; lia. }
  destruct (Hfold media_order (∅, O)) as [Hv Hs];
    [cbn [fst]; intros k v Hkv; by rewrite lookup_empty in Hkv|].
  split; [done|]. cbn [fst] in Hs. rewrite map_size_empty in Hs. done.
Qed.

(** *** Further properties of [create_product] *)

Lemma from_sites_mono sites sites' :
  Forall (λ s, s ∈ sites') sites → ∀ ev, from_sites sites ev → from_sites sites' ev.
Proof.
  intros Hsub [r|d]; cbn; [|done].
  intros Hin. by eapply Forall_forall in Hsub.
Qed.

Ltac sites_call lem :=
  eapply steps_weaken; cycle 1; [apply lem|apply from_sites_mono; compute_done].
Ltac sites_auto :=
  repeat first
    [ steps_step
    | sites_call manage_product_media_steps
    | sites_call reorder_by_order_steps
    | sites_call reorder_fallback_steps
    | sites_call upload_steps
    | sites_call create_metafields_steps ].

(** The sites of step 1, and of steps 2 and 3. *)
Lemma core_write_sites m u payload :
  steps (adds_only (from_sites [CoreWrite])) (core_write send m u payload).
Proof. unfold core_write. steps_auto. Qed.

Lemma resolve_product_sites existing expected_title result :
  steps (adds_only (from_sites [TitleSearch; RecentProducts]))
        (resolve_product send created_within_last_minute STORE_DOMAIN API_VERSION
           existing expected_title result).
Proof.
  unfold resolve_product, disambiguate_created, search_by_title, search_recent.
  steps_auto.
Qed.

Lemma media_step_sites pd product_id actual :
  steps (adds_only (from_sites
           [SkuFetch; ManageFetch; ManageDelete; UploadAttach; UploadFile;
            UploadRefetch; ReorderFetch; ReorderPosition; ReorderCover;
            FallbackReorderFetch; FallbackReorderPosition]))
        (media_step send STORE_DOMAIN API_VERSION pd product_id actual).
Proof.
  unfold media_step, reorder_step, fetch_custom_sku, read_outcome. sites_auto.
Qed.

Lemma metafield_step_sites pd product_id actual :
  steps (adds_only (from_sites [MetafieldList; MetafieldWrite; MetafieldRetry]))
        (metafield_step send STORE_DOMAIN API_VERSION assemble_metafields
           pd product_id actual).
Proof. unfold metafield_step. sites_auto. Qed.

Lemma tax_step_sites taxable product_id :
  steps (adds_only (from_sites [TaxFetch; TaxUpdate]))
        (tax_step send STORE_DOMAIN API_VERSION taxable product_id).
Proof. unfold tax_step. repeat first [steps_step | apply update_product_taxable_steps]. Qed.

(** The ways a run of [create_product] can go: it fails during step
    1, or goes on to steps 2 to 5 with a product that has a non-zero
    id. *)
Lemma create_product_cases (Q : outcome creation * state → Prop) pd σ :
  (∀ σ1, adds_only (from_sites [CoreWrite; TitleSearch; RecentProducts]) σ σ1 →
         Q (Returns failed, σ1)) →
  (∀ product product_id actual σ1,
     adds_only (from_sites [CoreWrite; TitleSearch; RecentProducts]) σ σ1 →
     prod_id product = Some product_id → product_id ≠ 0 →
     Q (try_except
          (after_core send process_product STORE_DOMAIN API_VERSION assemble_metafields
                      pd (taxable_of (pd_charge_vat pd)) product product_id actual)
          (λ _, ret failed) σ1)) →
  Q (run_create_product pd σ).
Proof.
  intros Hfail Hgo. unfold create_product.
  destruct (core_target STORE_DOMAIN API_VERSION (pd_product_id pd)) as [method u].
  cbn zeta.
  destruct (Str.strip (default [] (pd_title pd))) as [|c0 title].
  { by apply Hfail. }
  generalize (c0 :: title). clear c0 title. intros expected_title.
  unfold mbind, M_bind. rewrite try_except_bind.
  destruct (core_payload pd method) as [payload|e]; cbn [of_outcome ret raise].
  2: { by apply Hfail. }
  rewrite try_except_bind.
  assert (H1 : adds_only (from_sites [CoreWrite; TitleSearch; RecentProducts]) σ
                 (core_write send method u payload σ).2).
  { eapply (steps_weaken (from_sites [CoreWrite])); [|apply core_write_sites].
    apply from_sites_mono. compute_done. }
  destruct (core_write send method u payload σ) as [[[response actual]|e] σ1];
    cbn [snd] in H1.
  2: { by apply Hfail. }
  destruct (negb (is_200_201 (rs_status response))); [by apply Hfail|].
  destruct (rs_json response) as [result|]; [|by apply Hfail].
  destruct (b_errors result); [by apply Hfail|].
  rewrite try_except_bind.
  assert (H2 : adds_only (from_sites [CoreWrite; TitleSearch; RecentProducts]) σ1
                 (resolve_product send created_within_last_minute STORE_DOMAIN
                    API_VERSION (pd_product_id pd) expected_title result σ1).2).
  { eapply (steps_weaken (from_sites [TitleSearch; RecentProducts]));
      [|apply resolve_product_sites].
    apply from_sites_mono. compute_done. }
  destruct (resolve_product _ _ _ _ _ _ _ σ1) as [[[product|]|e] σ2]; cbn [snd] in H2.
  2,3: apply Hfail; by etrans.
  assert (H3 : adds_only (from_sites [CoreWrite; TitleSearch; RecentProducts]) σ σ2)
    by (by etrans).
  destruct (product_is_empty product); [by apply Hfail|].
  destruct (prod_id product) as [product_id|] eqn:Hid; [|by apply Hfail].
  destruct (Z.eqb_spec product_id 0); [by apply Hfail|].
  by apply Hgo.
Qed.

Lemma after_core_result pd taxable product product_id actual σ :
  let r := try_except
             (after_core send process_product STORE_DOMAIN API_VERSION
                         assemble_metafields pd taxable product product_id actual)
             (λ _, ret failed) σ in
  r.1 = Returns failed
  ∨ r.1 = Returns {| cr_success := true; cr_product := Some product |}.
Proof.
  cbn zeta. unfold after_core, mbind, M_bind.
  rewrite try_except_bind. destruct (media_step _ _ _ _ _ _ σ) as [[[]|e] σ1]; [|by left].
  rewrite try_except_bind.
  destruct (metafield_step _ _ _ _ _ _ _ σ1) as [[[]|e] σ2]; [|by left].
  rewrite try_except_bind.
  destruct (variant_step _ _ _ _ _ σ2) as [[[]|e] σ3]; [|by left].
  rewrite try_except_bind.
  destruct (tax_step _ _ _ _ _ σ3) as [[[]|e] σ4]; [|by left].
  rewrite try_except_bind.
  destruct (verify_step _ _ _ _ _ σ4) as [[[]|e] σ5]; [by right|by left].
Qed.

(** [create_product] never raises: every run returns a result.  A
    result that reports success carries the product, which has a
    non-zero id; a result that reports failure carries none. *)
Theorem create_product_always_returns pd σ :
  ∃ c, (run_create_product pd σ).1 = Returns c
       ∧ (cr_success c = true →
          ∃ product product_id,
            cr_product c = Some product ∧ prod_id product = Some product_id
            ∧ product_id ≠ 0)
       ∧ (cr_success c = false → cr_product c = None).
Proof.
  apply (create_product_cases
           (λ r, ∃ c, r.1 = Returns c
                      ∧ (cr_success c = true →
                         ∃ product product_id,
                           cr_product c = Some product
                           ∧ prod_id product = Some product_id ∧ product_id ≠ 0)
                      ∧ (cr_success c = false → cr_product c = None))).
  - intros σ1 _. exists failed. by repeat split.
  - intros product product_id actual σ1 _ Hid Hne.
    destruct (after_core_result pd (taxable_of (pd_charge_vat pd)) product product_id
                                actual σ1) as [Hr|Hr]; rewrite Hr.
    + exists failed. by repeat split.
    + eexists. split; [done|]. split; [|done]. intros _. by exists product, product_id.
Qed.

(** A request that [validate_product_data] rejects is rejected by
    [create_product] as well, before anything is sent: with a missing or
    blank title the run returns the failure result and leaves the
    platform, the trace and the configuration as they were.  The same
    holds when the title is there but building the payload raises. *)
Theorem create_product_rejects_without_request pd σ :
  v_valid (validate_product_data pd) = false
  ∨ (∃ e, core_payload pd (core_target STORE_DOMAIN API_VERSION (pd_product_id pd)).1
          = Raises e) →
  run_create_product pd σ = (Returns failed, σ).
Proof.
  intros Hbad. unfold create_product.
  destruct (core_target STORE_DOMAIN API_VERSION (pd_product_id pd)) as [method u].
  cbn [fst] in Hbad. cbn zeta.
  destruct (Str.strip (default [] (pd_title pd))) as [|c0 title] eqn:Htitle; [done|].
  destruct Hbad as [Hvalid|[e He]].
  { unfold validate_product_data in Hvalid. rewrite Htitle in Hvalid. done. }
  unfold mbind, M_bind. rewrite try_except_bind, He. done.
Qed.

(** What step 4 does: nothing when the variant generator cannot be
    imported, else one call, for the product of the run. *)
Lemma variant_step_run pd product_id product actual σ :
  let r := variant_step process_product pd product_id product actual σ in
  r.1 = Returns tt
  ∧ config_STORE_DOMAIN r.2 = config_STORE_DOMAIN σ
  ∧ match process_product with
    | None => trace r.2 = trace σ
    | Some _ =>
        ∃ d, trace r.2 = trace σ ++ [Delegated d]
             ∧ dl_product_id d = product_id
             ∧ dl_title d = default (py "Unknown Product") (prod_title product)
             ∧ dl_colour_images d = colour_images_for_bandit (pd_colour_images pd)
    end.
Proof.
  cbn zeta. unfold variant_step. destruct process_product as [run|]; [|done].
  generalize (default (py "Unknown Product") (prod_title product))
             (colour_images_for_bandit (pd_colour_images pd)).
  intros title ci.
  destruct actual as [[|c d]|];
    unfold mbind, M_bind, try_finally, try_except, bind, get_config,
      set_store_domains, call_process_product, ret; cbn;
    destruct (run _ _) as [[b|e] w]; cbn;
    (split; [done|]); (split; [done|]); eexists; by repeat split.
Qed.

(** The variant generator is called at most once in a run of
    [create_product], for the product the run settled on, with its id
    and title: in what the run adds to the trace, everything before the
    call comes from steps 1 to 3 and everything after it from the tax
    fixup and the read-back.  A run that reports success has made the
    call exactly once, unless the generator cannot be imported, in which
    case no run makes it. *)
Theorem create_product_delegates_once pd σ :
  let r := run_create_product pd σ in
  ∃ before delegations after,
    trace r.2 = trace σ ++ before ++ delegations ++ after
    ∧ Forall (from_sites
                [CoreWrite; TitleSearch; RecentProducts; SkuFetch; ManageFetch;
                 ManageDelete; UploadAttach; UploadFile; UploadRefetch; ReorderFetch;
                 ReorderPosition; ReorderCover; FallbackReorderFetch;
                 FallbackReorderPosition; MetafieldList; MetafieldWrite;
                 MetafieldRetry]) before
    ∧ Forall (from_sites [TaxFetch; TaxUpdate; Verify]) after
    ∧ (delegations = []
       ∨ ∃ d, delegations = [Delegated d]
              ∧ dl_colour_images d = colour_images_for_bandit (pd_colour_images pd))
    ∧ (process_product = None → delegations = [])
    ∧ ∀ c, r.1 = Returns c → cr_success c = true →
        ∃ product product_id,
          cr_product c = Some product ∧ prod_id product = Some product_id
          ∧ (is_Some process_product →
             ∃ d, delegations = [Delegated d]
                  ∧ dl_product_id d = product_id
                  ∧ dl_title d = default (py "Unknown Product") (prod_title product)).
Proof.
  set (early := [CoreWrite; TitleSearch; RecentProducts; SkuFetch; ManageFetch;
                 ManageDelete; UploadAttach; UploadFile; UploadRefetch; ReorderFetch;
                 ReorderPosition; ReorderCover; FallbackReorderFetch;
                 FallbackReorderPosition; MetafieldList; MetafieldWrite;
                 MetafieldRetry]).
  set (late := [TaxFetch; TaxUpdate; Verify]).
  assert (Hweak : ∀ sites σ1 σ2,
    adds_only (from_sites sites) σ1 σ2 →
    Forall (λ s, s ∈ early) sites → adds_only (from_sites early) σ1 σ2).
  { intros sites σ1 σ2 [(evs & Ht & Hp) Hc] Hsub. split; [|done]. exists evs.
    split; [done|]. eapply Forall_impl; [exact Hp|]. by apply from_sites_mono. }
  assert (Hlate : ∀ sites σ1 σ2,
    adds_only (from_sites sites) σ1 σ2 →
    Forall (λ s, s ∈ late) sites → adds_only (from_sites late) σ1 σ2).
  { intros sites σ1 σ2 [(evs & Ht & Hp) Hc] Hsub. split; [|done]. exists evs.
    split; [done|]. eapply Forall_impl; [exact Hp|]. by apply from_sites_mono. }
  assert (Hearly_fail : ∀ σ1, adds_only (from_sites early) σ σ1 →
    ∃ before delegations after,
      trace σ1 = trace σ ++ before ++ delegations ++ after
      ∧ Forall (from_sites early) before ∧ Forall (from_sites late) after
      ∧ (delegations = []
         ∨ ∃ d, delegations = [Delegated d]
                ∧ dl_colour_images d = colour_images_for_bandit (pd_colour_images pd))
      ∧ (process_product = None → delegations = [])
      ∧ ∀ c, Returns failed = Returns c → cr_success c = true →
          ∃ product product_id,
            cr_product c = Some product ∧ prod_id product = Some product_id
            ∧ (is_Some process_product →
               ∃ d, delegations = [Delegated d]
                    ∧ dl_product_id d = product_id
                    ∧ dl_title d = default (py "Unknown Product") (prod_title product))).
  { intros σ1 [(evs & Ht & Hp) _]. exists evs, [], []. rewrite app_nil_r.
    do 3 (split; [done|]). split; [by left|]. split; [done|]. by intros c [= <-]. }
  apply (create_product_cases
    (λ r, ∃ before delegations after,
      trace r.2 = trace σ ++ before ++ delegations ++ after
      ∧ Forall (from_sites early) before ∧ Forall (from_sites late) after
      ∧ (delegations = []
         ∨ ∃ d, delegations = [Delegated d]
                ∧ dl_colour_images d = colour_images_for_bandit (pd_colour_images pd))
      ∧ (process_product = None → delegations = [])
      ∧ ∀ c, r.1 = Returns c → cr_success c = true →
          ∃ product product_id,
            cr_product c = Some product ∧ prod_id product = Some product_id
            ∧ (is_Some process_product →
               ∃ d, delegations = [Delegated d]
                    ∧ dl_product_id d = product_id
                    ∧ dl_title d = default (py "Unknown Product") (prod_title product)))).
  - intros σ1 H1. apply Hearly_fail. eapply Hweak; [exact H1|compute_done].
  - intros product product_id actual σ1 H1 Hid _.
    eapply Hweak in H1; [|compute_done].
    unfold after_core, mbind, M_bind. rewrite try_except_bind.
    pose proof (media_step_sites pd product_id actual σ1) as H2.
    eapply Hweak in H2; [|compute_done].
    destruct (media_step _ _ _ _ _ _ σ1) as [[[]|e] σ2]; cbn [snd] in H2.
    2: { apply Hearly_fail. by etrans. }
    rewrite try_except_bind.
    pose proof (metafield_step_sites pd product_id actual σ2) as H3.
    eapply Hweak in H3; [|compute_done].
    destruct (metafield_step _ _ _ _ _ _ _ σ2) as [[[]|e] σ3]; cbn [snd] in H3.
    2: { apply Hearly_fail. by do 2 (etrans; [eassumption|]). }
    assert (Hbefore : adds_only (from_sites early) σ σ3)
      by (by do 2 (etrans; [eassumption|])).
    clear H1 H2 H3. destruct Hbefore as [(before & Htb & Hpb) _].
    rewrite try_except_bind.
    destruct (variant_step_run pd product_id product actual σ3) as (Hr & _ & Hd).
    destruct (variant_step _ _ _ _ _ σ3) as [o σ4]. cbn [fst snd] in Hr, Hd. subst o.
    assert (Hdel : ∃ delegations,
      trace σ4 = trace σ3 ++ delegations
      ∧ (delegations = []
         ∨ ∃ d, delegations = [Delegated d]
                ∧ dl_colour_images d = colour_images_for_bandit (pd_colour_images pd))
      ∧ (process_product = None → delegations = [])
      ∧ (is_Some process_product →
         ∃ d, delegations = [Delegated d]
              ∧ dl_product_id d = product_id
              ∧ dl_title d = default (py "Unknown Product") (prod_title product))).
    { destruct process_product as [run|].
      - destruct Hd as (d & Ht & Hi & Hti & Hci). exists [Delegated d].
        split; [done|]. split; [right; by exists d|]. split; [done|].
        intros _. by exists d.
      - exists []. rewrite app_nil_r. split; [done|]. split; [by left|].
        split; [done|]. by intros [? [=]]. }
    destruct Hdel as (delegations & Htd & Hshape & Hnone & Hsome).
    rewrite try_except_bind.
    pose proof (tax_step_sites (taxable_of (pd_charge_vat pd)) product_id σ4) as H5.
    eapply Hlate in H5; [|compute_done].
    destruct (tax_step _ _ _ _ _ σ4) as [[[]|e] σ5]; cbn [snd] in H5.
    2: { destruct H5 as [(after & Hta & Hpa) _]. exists before, delegations, after.
         cbn. rewrite Hta, Htd, Htb, <- !app_assoc.
         do 5 (split; [done|]). by intros c [= <-]. }
    rewrite try_except_bind.
    pose proof (verify_step_steps actual product_id σ5) as H6.
    eapply Hlate in H6; [|compute_done].
    assert (Hafter : adds_only (from_sites late) σ4
              (verify_step send STORE_DOMAIN API_VERSION actual product_id σ5).2)
      by (by etrans).
    destruct (verify_step _ _ _ _ _ σ5) as [[[]|e] σ6]; cbn [snd] in Hafter;
      destruct Hafter as [(after & Hta & Hpa) _]; exists before, delegations, after;
      cbn; rewrite Hta, Htd, Htb, <- !app_assoc; do 5 (split; [done|]).
    + intros c [= <-] _. exists product, product_id. by repeat split.
    + by intros c [= <-].
Qed.

(** *** Further properties of [create_metafields] *)

Lemma returns_in_ret {A} (Q : A → Prop) a : Q a → returns_in (W := W) Q (ret a).
Proof. by intros Ha σ. Qed.

Lemma returns_in_raise {A} (Q : A → Prop) e : returns_in (W := W) Q (raise e).
Proof. by intros σ. Qed.

Lemma returns_in_bind {A B} (Q : B → Prop) (m : M (W := W) A) (k : A → M B) :
  (∀ a, returns_in Q (k a)) → returns_in Q (bind m k).
Proof.
  intros Hk σ. rewrite bind_unfold. destruct (m σ) as [[a|e] σ1]; [apply Hk|done].
Qed.

Lemma returns_in_try_except {A} (Q : A → Prop) (m : M (W := W) A) h :
  returns_in Q m → (∀ e, returns_in Q (h e)) → returns_in Q (try_except m h).
Proof.
  intros Hm Hh σ. unfold try_except. specialize (Hm σ).
  destruct (m σ) as [[a|e] σ1]; [done|apply Hh].
Qed.

Ltac returns_step :=
  unfold mbind, M_bind;
  lazymatch goal with
  | |- returns_in _ (ret _) => apply returns_in_ret
  | |- returns_in _ (raise _) => apply returns_in_raise
  | |- returns_in _ (bind _ _) => apply returns_in_bind; intros ?
  | |- returns_in _ (try_except _ _) => apply returns_in_try_except; [|intros ?]
  | |- returns_in _ (match ?x with _ => _ end) => destruct x
  end.

(** One round of the loop counts the entry as written, or records one
    failure for it, or leaves both as they are. *)
Lemma process_metafield_accounts domain product_id existing count errors md :
  returns_in (λ acc : Z * list failure,
                (acc.1 = count + 1 ∧ acc.2 = errors)
                ∨ (acc.1 = count ∧ ∃ f, acc.2 = errors ++ [f])
                ∨ (acc.1 = count ∧ acc.2 = errors))
             (process_metafield send API_VERSION domain product_id existing
                                (count, errors) md).
Proof.
  unfold process_metafield. repeat returns_step; cbn [fst snd]; eauto 6.
Qed.

Lemma for_each_accounts domain product_id existing mfs : ∀ count errors,
  returns_in (λ acc : Z * list failure,
                count ≤ acc.1
                ∧ acc.1 + Z.of_nat (length acc.2)
                  ≤ count + Z.of_nat (length errors) + Z.of_nat (length mfs))
             (for_each mfs (count, errors)
                       (process_metafield send API_VERSION domain product_id existing)).
Proof.
  induction mfs as [|md mfs IH]; intros count errors σ; cbn [for_each length].
  - cbn. lia.
  - unfold mbind, M_bind. rewrite bind_unfold.
    pose proof (process_metafield_accounts domain product_id existing count errors md σ)
      as Hstep.
    destruct (process_metafield _ _ _ _ _ _ _ σ) as [[[count1 errors1]|e] σ1];
      cbn [fst snd] in *; [|done].
    specialize (IH count1 errors1 σ1).
    destruct (for_each _ _ _ σ1) as [[[count2 errors2]|e] σ2]; cbn [fst snd] in *; [|done].
    destruct Hstep as [[-> ->]|[[-> [f ->]]|[-> ->]]];
      rewrite ?length_app in IH; cbn [length] in IH; lia.
Qed.

(** [create_metafields] never raises and keeps count of the entries:
    every entry is counted as written or recorded as failed at most
    once, so the number of successes and the number of errors add up to
    at most the number of entries (an entry the choice filter leaves out
    is in neither); and the result reports success exactly when no error
    was recorded. *)
Theorem create_metafields_accounts product_id mfs dom σ :
  ∃ result,
    (create_metafields send STORE_DOMAIN API_VERSION product_id mfs dom σ).1
    = Returns result
    ∧ (mfr_success result = true ↔ mfr_errors result = [])
    ∧ 0 ≤ mfr_success_count result
    ∧ mfr_success_count result + Z.of_nat (length (mfr_errors result))
      ≤ Z.of_nat (length mfs).
Proof.
  destruct (create_metafields_run product_id mfs dom σ)
    as (acc & σ2 & writes & Hloop & -> & _).
  eexists. split; [done|]. cbn [mfr_success mfr_errors mfr_success_count].
  split; [apply bool_decide_eq_true|].
  match type of Hloop with
  | for_each _ _ ?step ?s = _ =>
      pose proof (for_each_accounts (domain_or_default STORE_DOMAIN dom) product_id
                    (listed_identities
                       (send (remote σ)
                          (metafield_list_request API_VERSION
                             (domain_or_default STORE_DOMAIN dom) product_id)).1)
                    mfs 0 [] s) as Hacc
  end.
  rewrite Hloop in Hacc. cbn [fst snd length] in Hacc. lia.
Qed.

(** *** Identities and media ids *)

Lemma existing_identities_app rows rows' :
  existing_identities (rows ++ rows')
  = foldl (λ m mf,
             let ns := default [] (row_namespace mf) in
             let k := default [] (row_key mf) in
             if negb (bool_decide (ns = [])) && negb (bool_decide (k = []))
             then <[(ns, k) := row_id mf]> m else m)
          (existing_identities rows) rows'.
Proof. unfold existing_identities. by rewrite foldl_app. Qed.

Lemma identities_fold_other (identity : pystr * pystr) rows :
  ∀ m : gmap (pystr * pystr) (option Z),
  Forall (λ mf, (default [] (row_namespace mf), default [] (row_key mf)) ≠ identity) rows →
  foldl (λ m mf,
           let ns := default [] (row_namespace mf) in
           let k := default [] (row_key mf) in
           if negb (bool_decide (ns = [])) && negb (bool_decide (k = []))
           then <[(ns, k) := row_id mf]> m else m)
        m rows !! identity
  = m !! identity.
Proof.
  induction rows as [|mf rows IH]; intros m Hall; [done|].
  apply Forall_cons in Hall as [Hmf Hall]. cbn [foldl]. rewrite IH by done.
  cbn zeta. destruct (_ && _); [|done]. by rewrite lookup_insert_ne.
Qed.

(** The identity dict is keyed by (namespace, key) and the last listed
    row of an identity wins: its id is the one an update is addressed
    to.  A row without a namespace or without a key is not recorded, and
    an identity that no row has is absent, so that the entry is
    created. *)
Theorem listed_identity_is_last_row rows namespace key :
  (∀ before mf after,
     rows = before ++ mf :: after →
     row_namespace mf = Some namespace → row_key mf = Some key →
     namespace ≠ [] → key ≠ [] →
     Forall (λ mf', (default [] (row_namespace mf'), default [] (row_key mf'))
                    ≠ (namespace, key)) after →
     existing_identities rows !! (namespace, key) = Some (row_id mf)
     ∧ lookup_existing (existing_identities rows) namespace key
       = match row_id mf with
         | Some id => if id =? 0 then None else Some id
         | None => None
         end)
  ∧ (Forall (λ mf, (default [] (row_namespace mf), default [] (row_key mf))
                   ≠ (namespace, key)) rows →
     lookup_existing (existing_identities rows) namespace key = None)
  ∧ (namespace = [] ∨ key = [] →
     lookup_existing (existing_identities rows) namespace key = None).
Proof.
  split; [|split].
  - intros before mf after -> Hns Hkey Hne1 Hne2 Hafter.
    assert (Hl : existing_identities (before ++ mf :: after) !! (namespace, key)
                 = Some (row_id mf)).
    { rewrite existing_identities_app. cbn [foldl]. rewrite identities_fold_other by done.
      cbn zeta. rewrite Hns, Hkey. cbn [default from_option]. unfold id.
      rewrite !bool_decide_false by done. cbn [negb andb].
      by rewrite lookup_insert_eq. }
    split; [done|]. unfold lookup_existing. by rewrite Hl.
  - intros Hall. unfold lookup_existing.
    change (existing_identities rows) with (existing_identities ([] ++ rows)).
    rewrite existing_identities_app, identities_fold_other by done.
    change (existing_identities []) with (∅ : gmap (pystr * pystr) (option Z)).
    by rewrite lookup_empty.
  - intros Hblank. unfold lookup_existing.
    assert (Hl : existing_identities rows !! (namespace, key) = None); [|by rewrite Hl].
    unfold existing_identities.
    assert (Hfold : ∀ m : gmap (pystr * pystr) (option Z),
      m !! (namespace, key) = None →
      foldl (λ m mf,
               let ns := default [] (row_namespace mf) in
               let k := default [] (row_key mf) in
               if negb (bool_decide (ns = [])) && negb (bool_decide (k = []))
               then <[(ns, k) := row_id mf]> m else m)
            m rows !! (namespace, key) = None).
    { induction rows as [|mf rows IH]; intros m Hm; [done|]. cbn [foldl].
      apply IH. cbn zeta.
      destruct (decide (default [] (row_namespace mf) = [])) as [E1|E1].
      { by rewrite (bool_decide_true _ E1). }
      destruct (decide (default [] (row_key mf) = [])) as [E2|E2].
      { rewrite (bool_decide_true _ E2). by rewrite andb_false_r. }
      rewrite !bool_decide_false by done. cbn [negb andb].
      rewrite lookup_insert_ne; [done|]. intros [= <- <-]. by destruct Hblank. }
    by apply Hfold.
Qed.

Lemma last_segment_aux_plain sep s : ∀ cur,
  sep ∉ s → Str.last_segment_aux sep cur s = rev cur ++ s.
Proof.
  induction s as [|c r IH]; intros cur Hsep; cbn.
  - by rewrite app_nil_r.
  - apply not_elem_of_cons in Hsep as [Hc Hr].
    destruct (N.eqb_spec c sep) as [->|_]; [done|].
    rewrite IH by done. cbn. by rewrite <- app_assoc.
Qed.

Lemma last_segment_after sep before s :
  sep ∉ s → Str.last_segment sep (before ++ sep :: s) = s.
Proof.
  intros Hsep. unfold Str.last_segment. generalize (@nil N).
  induction before as [|c r IH]; intros cur; cbn.
  - rewrite N.eqb_refl. by rewrite last_segment_aux_plain.
  - destruct (c =? sep)%N; apply IH.
Qed.

Lemma startswith_elem p s c : Str.startswith p s = true → c ∈ p → c ∈ s.
Proof.
  revert s. induction p as [|a p IH]; intros s Hp Hc; [by apply elem_of_nil in Hc|].
  apply startswith_cons in Hp as (s' & -> & Hp).
  apply elem_of_cons in Hc as [->|Hc]; [by left|]. right. by apply IH.
Qed.

(** The two normalisations of a kept media id agree: the global id
    that [upload_media_to_product] attaches for an entry of the keep
    list is reduced by [manage_product_media] to the same key as the
    entry itself, for an entry without a slash (a plain id) and for an
    entry that is a global id already. *)
Theorem attached_id_is_kept_id s :
  47%N ∉ s ∨ Str.startswith (py "gid://shopify/") s = true →
  Str.startswith (py "gid://shopify/") (media_global_id (PyStr s)) = true
  ∧ normalize_media_id (PyStr (media_global_id (PyStr s)))
    = normalize_media_id (PyStr s)
  ∧ (47%N ∉ s → normalize_media_id (PyStr s) = s).
Proof.
  intros Hs. unfold media_global_id. cbn [py_str].
  assert (Hplain : 47%N ∉ s → Str.startswith (py "gid://") s = false
                              ∧ Str.startswith (py "gid://shopify/") s = false).
  { intros Hno. split.
    - destruct (Str.startswith (py "gid://") s) eqn:E; [|done].
      destruct Hno. eapply startswith_elem; [exact E|]. compute_done.
    - destruct (Str.startswith (py "gid://shopify/") s) eqn:E; [|done].
      destruct Hno. eapply startswith_elem; [exact E|]. compute_done. }
  assert (Hprefixed : 47%N ∉ s →
    normalize_media_id (PyStr (py "gid://shopify/MediaImage/" ++ s)) = s).
  { intros Hno. unfold normalize_media_id.
    change (Str.startswith (py "gid://") (py "gid://shopify/MediaImage/" ++ s)) with true.
    cbn match.
    change (py "gid://shopify/MediaImage/" ++ s)
      with (py "gid://shopify/MediaImage" ++ 47%N :: s).
    by apply last_segment_after. }
  assert (Hself : 47%N ∉ s → normalize_media_id (PyStr s) = s).
  { intros Hno. unfold normalize_media_id. by rewrite (proj1 (Hplain Hno)). }
  split; [|split; [|done]].
  - destruct (forallb PyDecimal.is_digit s && negb (bool_decide (s = []))); [done|].
    destruct (Str.startswith (py "gid://shopify/") s) eqn:E; [done|done].
  - destruct Hs as [Hno|Hgid].
    + rewrite (proj2 (Hplain Hno)). rewrite Hself by done.
      destruct (_ && _); by apply Hprefixed.
    + rewrite Hgid.
      destruct (forallb PyDecimal.is_digit s && negb (bool_decide (s = []))) eqn:Hd;
        [|done].
      apply andb_true_iff in Hd as [Hd _].
      apply startswith_cons in Hgid as (s' & -> & _). cbn in Hd. done.
Qed.

(** *** What a create never does *)

Lemma from_sites_never sites excluded :
  Forall (λ s, s ∉ excluded) sites →
  ∀ ev, from_sites sites ev → never_from excluded ev.
Proof.
  intros Hsites [r|d]; cbn; [|done].
  intros Hin. by eapply Forall_forall in Hsites.
Qed.

Ltac never_call lem :=
  eapply steps_weaken; cycle 1; [apply lem|apply from_sites_never; compute_done].

Lemma variant_step_never excluded pd product_id product actual :
  steps (adds_only (never_from excluded))
        (variant_step process_product pd product_id product actual).
Proof.
  intros σ. destruct (variant_step_run pd product_id product actual σ) as (_ & Hc & Ht).
  split; [|done]. destruct process_product.
  - destruct Ht as (d & Ht & _). exists [Delegated d]. split; [done|]. by repeat constructor.
  - exists []. by rewrite app_nil_r.
Qed.

(** A run of [create_product] for a request without a [product_id]
    never prunes media: it sends no request of [manage_product_media],
    neither the fetch nor a deletion, whatever the platform answers. *)
Theorem create_never_prunes pd σ :
  pd_product_id pd = None →
  ∃ evs, trace (run_create_product pd σ).2 = trace σ ++ evs
         ∧ Forall (never_from [ManageFetch; ManageDelete]) evs.
Proof.
  intros Hnew.
  enough (adds_only (never_from [ManageFetch; ManageDelete]) σ
                    (run_create_product pd σ).2) as [Hevs _] by done.
  apply (create_product_cases
           (λ r, adds_only (never_from [ManageFetch; ManageDelete]) σ r.2)).
  - intros σ1 [(evs & Ht & Hp) Hc]. split; [|done]. exists evs. split; [done|].
    eapply Forall_impl; [exact Hp|]. apply from_sites_never. compute_done.
  - intros product product_id actual σ1 [(evs & Ht & Hp) Hc] _ _.
    etrans.
    { split; [|exact Hc]. exists evs. split; [done|].
      eapply Forall_impl; [exact Hp|]. apply from_sites_never. compute_done. }
    assert (Hs : steps (adds_only (never_from [ManageFetch; ManageDelete]))
              (try_except
                 (after_core send process_product STORE_DOMAIN API_VERSION
                    assemble_metafields pd (taxable_of (pd_charge_vat pd))
                    product product_id actual)
                 (λ _, ret failed))); [|apply Hs].
    unfold after_core, media_step, reorder_step, fetch_custom_sku, read_outcome.
    rewrite Hnew.
    change (bool_decide (is_Some (@None pyval))) with false.
    repeat first
      [ steps_step
      | never_call reorder_by_order_steps
      | never_call reorder_fallback_steps
      | never_call upload_steps
      | never_call metafield_step_sites
      | never_call tax_step_sites
      | never_call verify_step_steps
      | apply variant_step_never ].
Qed.

(** *** Further properties of [update_product_taxable] *)

(** [update_product_taxable] never raises, and it returns [True] only
    when both of its requests were sent and answered 200 with JSON: the
    fetch of the product, whose body has to carry the product, and the
    update that writes the variants back with the flag set.  In every
    other case -- a transport failure, an error status, a body without
    product -- it returns [False]. *)
Theorem update_product_taxable_result product_id taxable σ :
  let a1 := send (remote σ) (tax_fetch_request STORE_DOMAIN API_VERSION product_id) in
  ∃ updated,
    (update_product_taxable send STORE_DOMAIN API_VERSION product_id taxable σ).1
    = Returns updated
    ∧ (updated = true
       ↔ ∃ r1 fetched_json fetched r2,
           a1.1 = Answer r1 ∧ rs_status r1 = 200
           ∧ rs_json r1 = Some fetched_json ∧ b_product fetched_json = Some fetched
           ∧ (send a1.2 (tax_update_request STORE_DOMAIN API_VERSION
                           product_id taxable fetched)).1 = Answer r2
           ∧ rs_status r2 = 200 ∧ is_Some (rs_json r2)).
Proof.
  intros a1. unfold update_product_taxable, mbind, M_bind.
  rewrite try_except_bind. unfold http at 1. fold a1.
  destruct a1 as [[r1|e] w1] eqn:Ha; cbn [fst snd].
  2: { exists false. split; [done|]. split; [done|]. by intros (? & ? & ? & ? & [=] & _). }
  destruct (Z.eqb_spec (rs_status r1) 200) as [Hs1|Hs1]; cbn [negb].
  2: { exists false. split; [done|]. split; [done|].
       intros (? & ? & ? & ? & [= <-] & ? & _). done. }
  rewrite try_except_bind. unfold json_of.
  destruct (rs_json r1) as [fetched_json|] eqn:Hj1.
  2: { exists false. split; [done|]. split; [done|].
       intros (? & ? & ? & ? & [= <-] & _ & Hj & _). congruence. }
  cbn [ret]. destruct (b_product fetched_json) as [fetched|] eqn:Hp.
  2: { exists false. split; [done|]. split; [done|].
       intros (? & ? & ? & ? & [= <-] & _ & Hj & Hp' & _). congruence. }
  rewrite try_except_bind. unfold http.
  fold (tax_update_request STORE_DOMAIN API_VERSION product_id taxable fetched).
  cbn [remote].
  destruct (send w1 (tax_update_request STORE_DOMAIN API_VERSION product_id taxable
                       fetched)) as [[r2|e] w2] eqn:Hu.
  2: { exists false. split; [done|]. split; [done|].
       intros (? & ? & p & ? & [= <-] & _ & Hj & Hp' & Hu' & _).
       assert (p = fetched) as -> by congruence. by rewrite Hu in Hu'. }
  destruct (Z.eqb_spec (rs_status r2) 200) as [Hs2|Hs2].
  2: { exists false. split; [done|]. split; [done|].
       intros (? & ? & p & ? & [= <-] & _ & Hj & Hp' & Hu' & Hs' & _).
       assert (p = fetched) as -> by congruence. rewrite Hu in Hu'.
       injection Hu' as <-. done. }
  rewrite try_except_bind. destruct (rs_json r2) as [updated_json|] eqn:Hj2.
  - exists true. split; [done|]. split; [|done]. intros _.
    exists r1, fetched_json, fetched, r2. rewrite Hu, Hj2. by repeat split.
  - exists false. split; [done|]. split; [done|].
    intros (? & ? & p & ? & [= <-] & _ & Hj & Hp' & Hu' & _ & [? Hsome]).
    assert (p = fetched) as -> by congruence. rewrite Hu in Hu'.
    injection Hu' as <-. congruence.
Qed.

(** *** The fallback reorder *)

Lemma fallback_loop product_id existing ids : ∀ σ position errors,
  let plan := fallback_plan STORE_DOMAIN API_VERSION product_id existing position ids in
  let failures :=
    omap (λ p : pystr * http_result, position_failure p.1 p.2)
         (zip plan.*1 (answers send (remote σ) plan.*2)) in
  Forall is_answer (answers send (remote σ) plan.*2) →
  for_each ids (position, errors)
           (fallback_position send STORE_DOMAIN API_VERSION product_id existing) σ
  = (Returns (position + Z.of_nat (length ids), errors ++ failures),
     advance σ (after_requests send (remote σ) plan.*2) (Sent <$> plan.*2)).
Proof.
  induction ids as [|media_id ids IH]; intros σ position errors.
  - cbn. intros _. rewrite app_nil_r, advance_nil. unfold ret. do 3 f_equal. lia.
  - cbn zeta. cbn [for_each fallback_plan].
    unfold mbind, M_bind. rewrite bind_unfold. unfold fallback_position at 1.
    destruct (list_find _ (reverse existing)) as [[j img]|].
    + cbn [app fmap list_fmap fst snd answers after_requests zip zip_with].
      intros [Hfirst Hrest]%Forall_cons.
      unfold mbind, M_bind. rewrite bind_unfold.
      match goal with
      | |- context [http send ?r σ] => set (rq := r) in *
      end.
      destruct (send (remote σ) rq) as [[rs|e] w] eqn:Hs; [|done].
      rewrite (http_answer _ _ _ _ Hs).
      cbn [fst snd] in Hrest |- *.
      cbn [omap list_omap fst snd position_failure].
      destruct (rs_ok rs); unfold ret.
      * rewrite IH by done. cbn [remote advance]. rewrite advance_advance.
        cbn [app length]. do 3 f_equal. lia.
      * rewrite IH by done. cbn [remote advance]. rewrite advance_advance.
        cbn [app length]. rewrite <- app_assoc. cbn [app]. do 3 f_equal. lia.
    + cbn [app]. intros Hrest. unfold ret. rewrite IH by done.
      cbn [length]. do 3 f_equal. lia.
Qed.

Lemma fallback_plan_position product_id existing ids : ∀ position i media_id j img,
  ids !! i = Some media_id →
  list_find (λ img, image_key img = normalize_media_id media_id) (reverse existing)
  = Some (j, img) →
  (normalize_media_id media_id,
   {| rq_site := FallbackReorderPosition; rq_method := PUT;
      rq_url := image_url API_VERSION STORE_DOMAIN product_id (image_key img);
      rq_payload := position_payload (img_id img) (position + Z.of_nat i);
      rq_allow_redirects := true |})
  ∈ fallback_plan STORE_DOMAIN API_VERSION product_id existing position ids.
Proof.
  induction ids as [|x ids IH]; intros position i media_id j img Hi Hfind; [done|].
  cbn [fallback_plan]. destruct i as [|i]; cbn in Hi.
  - injection Hi as ->. rewrite Hfind. apply elem_of_app. left.
    rewrite Z.add_0_r. by left.
  - apply elem_of_app. right.
    replace (position + Z.of_nat (S i)) with (position + 1 + Z.of_nat i) by lia.
    by eapply IH.
Qed.

(** The fallback reorder writes to each image the place of its id in
    the list.  When the product is fetched and no update fails in the
    transport, [reorder_product_media] sends, after the fetch, one update
    for each id of the list that names an image of the product, in the
    order of the list, and the position it writes is the place of the id
    in the list counted from 1 -- an id that names no image sends nothing
    but still takes up its place; an update answered with an error status
    adds one error and the updates after it are still sent; the result
    reports success exactly when there is no error. *)
Theorem reorder_product_media_positions product_id ids σ response b w1 :
  let fetch := fallback_fetch_request STORE_DOMAIN API_VERSION product_id in
  let existing := prod_images (default empty_product (b_product b)) in
  let plan := fallback_plan STORE_DOMAIN API_VERSION product_id existing 1 ids in
  let errors :=
    omap (λ p : pystr * http_result, position_failure p.1 p.2)
         (zip plan.*1 (answers send w1 plan.*2)) in
  ids ≠ [] →
  send (remote σ) fetch = (Answer response, w1) →
  rs_ok response = true →
  rs_json response = Some b →
  Forall is_answer (answers send w1 plan.*2) →
  (∃ σ',
     reorder_product_media send STORE_DOMAIN API_VERSION product_id ids σ
     = (Returns {| res_success := bool_decide (errors = []);
                   res_errors := Some errors |}, σ')
     ∧ trace σ' = trace σ ++ Sent fetch :: (Sent <$> plan.*2))
  ∧ ∀ i media_id j img,
      ids !! i = Some media_id →
      list_find (λ img, image_key img = normalize_media_id media_id) (reverse existing)
      = Some (j, img) →
      (normalize_media_id media_id,
       {| rq_site := FallbackReorderPosition; rq_method := PUT;
          rq_url := image_url API_VERSION STORE_DOMAIN product_id (image_key img);
          rq_payload := position_payload (img_id img) (1 + Z.of_nat i);
          rq_allow_redirects := true |}) ∈ plan.
Proof.
  intros fetch existing plan errors Hne Hsend Hok Hjson Hanswers.
  split; [|intros i media_id j img; apply fallback_plan_position].
  unfold reorder_product_media, mbind, M_bind.
  destruct ids as [|id0 ids]; [done|]. generalize dependent (id0 :: ids).
  clear id0 ids. intros ids plan errors _ Hanswers.
  rewrite try_except_bind.
  change (http send _ σ) with (http send fetch σ).
  rewrite (http_answer _ _ _ _ Hsend), Hok.
  cbn [negb]. rewrite try_except_bind. unfold json_of. rewrite Hjson. cbn [ret].
  rewrite try_except_bind. fold existing.
  rewrite fallback_loop by done. fold plan. cbn [app]. fold errors.
  unfold try_except, ret. eexists. split; [reflexivity|].
  cbn [trace advance]. by rewrite <- app_assoc.
Qed.

(** *** Reordering without a product *)

Lemma try_except_handled {A} (m : M (W := W) A) (h : exn → A) σ :
  ∃ a, (try_except m (λ e, ret (h e)) σ).1 = Returns a.
Proof. unfold try_except. destruct (m σ) as [[a|e] σ1]; cbn; eauto. Qed.

(** [reorder_product_media_by_order] never raises.  With an empty
    order it sends nothing and reports success; with an order, when the
    product cannot be read -- the transport fails, the status is an error
    or the body is not JSON -- the fetch is its only request, no position
    and no main image is written, and it reports failure. *)
Theorem reorder_by_order_needs_product product_id media_order keep shopify_domain σ :
  let fetch := reorder_fetch_request API_VERSION
                 (domain_or_default STORE_DOMAIN shopify_domain) product_id in
  let a := send (remote σ) fetch in
  let run := reorder_product_media_by_order send STORE_DOMAIN API_VERSION
               product_id media_order keep shopify_domain σ in
  (∃ result, run.1 = Returns result)
  ∧ (media_order = [] →
     run = (Returns {| res_success := true; res_errors := None |}, σ))
  ∧ (media_order ≠ [] → fetched_body a.1 = None →
     ∃ result, run = (Returns result, advance σ a.2 [Sent fetch])
               ∧ res_success result = false).
Proof.
  intros fetch a run. split.
  { unfold run, reorder_product_media_by_order.
    apply (try_except_handled _
             (λ e, {| res_success := false;
                      res_errors := Some [Raised (py "reordering product media by order")
                                                 e] |})). }
  split.
  - intros ->. done.
  - intros Hne Hnone. unfold run, reorder_product_media_by_order.
    destruct media_order as [|item order]; [done|].
    unfold mbind, M_bind. rewrite try_except_bind. fold fetch. unfold http. fold a.
    destruct a as [[response|e] w1]; cbn [fst snd fetched_body] in *.
    2: { by eexists. }
    destruct (rs_ok response); cbn [negb].
    2: { by eexists. }
    rewrite try_except_bind. unfold json_of. rewrite Hnone. by eexists.
Qed.

(** *** The uploads *)

Lemma upload_file_run domain product_id i errors file σ :
  ∃ errors' again σ',
    upload_file send API_VERSION domain product_id (i, errors) file σ
    = (Returns (S i, errors'), σ')
    ∧ trace σ' = trace σ
                 ++ Sent (upload_request API_VERSION domain product_id i file) :: again
    ∧ config_STORE_DOMAIN σ' = config_STORE_DOMAIN σ
    ∧ (again = []
       ∨ ∃ target, again = [Sent (second_attempt UploadFile POST target
                                    (FilePayload (S i) (file_content_type file)))]).
Proof.
  unfold upload_file, send_keeping_method, mbind, M_bind. cbn zeta.
  fold (upload_url API_VERSION domain product_id file).
  fold (upload_request API_VERSION domain product_id i file).
  set (first := upload_request API_VERSION domain product_id i file).
  rewrite try_except_bind, bind_unfold. unfold http at 1.
  destruct (send (remote σ) first) as [[r1|e] w1].
  2: { eexists _, [], _. cbn. split; [done|]. split; [done|]. split; [done|]. by left. }
  destruct (is_redirect (rs_status r1)).
  - unfold http.
    match goal with
    | |- context [send ?w ?rq] =>
        lazymatch rq with
        | second_attempt _ _ _ _ => destruct (send w rq) as [[r2|e] w2]
        end
    end.
    + cbn [remote]. destruct (is_200_201 (rs_status r2)).
      * rewrite try_except_bind. unfold json_of.
        destruct (rs_json r2); eexists _, [_], _; cbn;
          (split; [done|]); (split; [by rewrite <- app_assoc|]); (split; [done|]);
          right; by eexists.
      * eexists _, [_], _. cbn. split; [done|]. split; [by rewrite <- app_assoc|].
        split; [done|]. right. by eexists.
    + eexists _, [_], _. cbn. split; [done|]. split; [by rewrite <- app_assoc|].
      split; [done|]. right. by eexists.
  - cbn [ret]. destruct (is_200_201 (rs_status r1)).
    + rewrite try_except_bind. unfold json_of.
      destruct (rs_json r1); eexists _, [], _; cbn;
        (split; [done|]); (split; [done|]); (split; [done|]); by left.
    + eexists _, [], _. cbn. split; [done|]. split; [done|]. split; [done|]. by left.
Qed.

Lemma upload_loop domain product_id files : ∀ i errors σ,
  ∃ errors' evs σ',
    for_each files (i, errors) (upload_file send API_VERSION domain product_id) σ
    = (Returns ((i + length files)%nat, errors'), σ')
    ∧ trace σ' = trace σ ++ evs
    ∧ config_STORE_DOMAIN σ' = config_STORE_DOMAIN σ
    ∧ upload_events API_VERSION domain product_id i files evs.
Proof.
  induction files as [|file files IH]; intros i errors σ; cbn [for_each length].
  - exists errors, [], σ. rewrite app_nil_r, Nat.add_0_r. by repeat split.
  - unfold mbind, M_bind. rewrite bind_unfold.
    destruct (upload_file_run domain product_id i errors file σ)
      as (errors1 & again & σ1 & -> & Ht1 & Hc1 & Hagain).
    destruct (IH (S i) errors1 σ1) as (errors2 & tail & σ2 & -> & Ht2 & Hc2 & Htail).
    exists errors2, (Sent (upload_request API_VERSION domain product_id i file)
                     :: again ++ tail), σ2.
    split; [do 3 f_equal; lia|]. split.
    { rewrite Ht2, Ht1, <- app_assoc. done. }
    split; [congruence|]. cbn [upload_events]. by exists again, tail.
Qed.

(** [upload_media_to_product] attempts every file.  It never raises;
    with no file and no id to attach it sends nothing and reports
    success.  Otherwise what it sends is, in this order: the requests that
    attach the kept ids, if there are any; for each new file in turn one
    upload, numbered from 1, to the media endpoint for a video and to the
    images endpoint for anything else, sent again when it is redirected
    -- whatever became of the files before it; and last the fetch of the
    product, from the configured store domain. *)
Theorem upload_attempts_every_file product_id files ids shopify_domain σ :
  let domain := domain_or_default STORE_DOMAIN shopify_domain in
  let run := upload_media_to_product send STORE_DOMAIN API_VERSION
               product_id files ids shopify_domain σ in
  (files = [] → default [] ids = [] →
   run = (Returns {| res_success := true; res_errors := None |}, σ))
  ∧ (files ≠ [] ∨ default [] ids ≠ [] →
     ∃ errors attach uploads,
       run.1 = Returns {| res_success := bool_decide (errors = []);
                          res_errors := Some errors |}
       ∧ trace run.2
         = trace σ ++ attach ++ uploads
                   ++ [Sent (upload_refetch_request STORE_DOMAIN API_VERSION product_id)]
       ∧ Forall (from_sites [UploadAttach]) attach
       ∧ (default [] ids = [] → attach = [])
       ∧ upload_events API_VERSION domain product_id 0 files uploads).
Proof.
  intros domain run. unfold run, upload_media_to_product. cbn zeta. fold domain.
  split.
  - intros -> ->. done.
  - intros Hsome.
    assert (Hlen : (length files + length (default [] ids) =? 0)%nat = false).
    { apply Nat.eqb_neq. destruct files, (default [] ids); cbn; try lia.
      by destruct Hsome. }
    rewrite Hlen. unfold mbind, M_bind. rewrite try_except_bind.
    assert (Hattach : ∃ errors0 attach σ1,
      (if default [] ids is [] then ret []
       else attach_existing send API_VERSION domain product_id (default [] ids) []) σ
      = (Returns errors0, σ1)
      ∧ trace σ1 = trace σ ++ attach
      ∧ Forall (from_sites [UploadAttach]) attach
      ∧ (default [] ids = [] → attach = [])).
    { destruct (default [] ids) as [|id0 rest] eqn:Hids.
      - exists [], [], σ. rewrite app_nil_r. by repeat split.
      - assert (Hs : steps (adds_only (from_sites [UploadAttach]))
                  (attach_existing send API_VERSION domain product_id (id0 :: rest) []))
          by (unfold attach_existing; steps_auto).
        destruct (Hs σ) as [(attach & Ht & Hp) _].
        destruct (try_except_handled
                    (bind (send_keeping_method send UploadAttach POST
                             {| url_host := domain;
                                url_path := api_path API_VERSION (py "/graphql.json") |}
                             (AttachPayload (media_global_id <$> id0 :: rest)
                                (py "gid://shopify/Product/" ++ Str.of_Z product_id)))
                          (λ response,
                             if rs_status response =? 200 then
                               bind (json_of response) (λ data,
                                 match b_errors data, b_file_update data with
                                 | Some _, _ => ret ([] ++ [Rejected (py "GraphQL errors")])
                                 | None, Some (user_errors, files) =>
                                     let errors :=
                                       [] ++ ((λ _, Rejected (py "User error"))
                                                <$> user_errors) in
                                     if files is [] then
                                       ret (errors ++ [Rejected (py "No files were attached")])
                                     else ret errors
                                 | None, None =>
                                     ret ([] ++ [Rejected (py "Invalid response format")])
                                 end)
                             else ret ([] ++ [BadStatus (py "attach") (rs_status response)])))
                    (λ e, [] ++ [Raised (py "attaching existing media files") e]) σ)
          as [errors0 Hr].
        change (try_except _ _ σ)
          with (attach_existing send API_VERSION domain product_id (id0 :: rest) [] σ)
          in Hr.
        destruct (attach_existing _ _ _ _ _ _ σ) as [o σ1]. cbn in Hr, Ht. subst o.
        exists errors0, attach, σ1. by repeat split. }
    destruct Hattach as (errors0 & attach & σ1 & -> & Ht1 & Hp1 & Hnone).
    rewrite try_except_bind.
    destruct (upload_loop domain product_id files O errors0 σ1)
      as (errors & uploads & σ2 & -> & Ht2 & _ & Hup).
    rewrite try_except_bind.
    assert (Hrefetch : ∃ σ3,
      try_except
        (bind (http send (upload_refetch_request STORE_DOMAIN API_VERSION product_id))
              (λ get_response,
                 if rs_status get_response =? 200
                 then bind (json_of get_response) (λ _, ret tt)
                 else ret tt))
        (λ _, ret tt) σ2 = (Returns tt, σ3)
      ∧ trace σ3 = trace σ2
                   ++ [Sent (upload_refetch_request STORE_DOMAIN API_VERSION product_id)]).
    { rewrite try_except_bind. unfold http.
      destruct (send (remote σ2) _) as [[r|e] w]; [|by eexists].
      destruct (rs_status r =? 200); [|by eexists].
      rewrite try_except_bind. unfold json_of. destruct (rs_json r); by eexists. }
    destruct Hrefetch as (σ3 & Hr3 & Ht3).
    change (try_except _ (λ _, ret ()) σ2)
      with (try_except
        (bind (http send (upload_refetch_request STORE_DOMAIN API_VERSION product_id))
              (λ get_response,
                 if rs_status get_response =? 200
                 then bind (json_of get_response) (λ _, ret tt)
                 else ret tt))
        (λ _, ret tt) σ2).
    rewrite Hr3. unfold try_except, ret. cbn [fst snd].
    exists errors, attach, uploads. split; [done|].
    split; [by rewrite Ht3, Ht2, Ht1, <- !app_assoc|]. done.
Qed.

End ClientFacts.

(** The example of the specification, from the theorem: with images
    101, 102 and 103 on the product and a keep list that names 101 as
    text and 103 as a global id, the run deletes 102 and nothing else. *)
Lemma manage_product_media_prunes_witness :
  let existing := [Worlds.simple_image 101 1; Worlds.simple_image 102 2;
                   Worlds.simple_image 103 3] in
  let keep := [PyStr (py "101"); PyStr (py "gid://shopify/ProductImage/103")] in
  let world :=
    [Worlds.answer 200 (Worlds.product_body (Worlds.simple_product 7 (py "P") existing));
     Worlds.answer 200 Worlds.no_body] in
  let run :=
    manage_product_media (H := Reference.builtins) Worlds.play
      (py "shop.example") (py "2024-01") 7 keep
      (Worlds.initial world (py "shop.example")) in
  trace run.2
  = [Sent (manage_fetch_request (py "shop.example") (py "2024-01") 7);
     Sent (manage_delete_request (py "shop.example") (py "2024-01") 7 (py "102"))]
  ∧ ∃ result, run.1 = Returns result ∧ mr_success result = true.
Proof.
  cbn zeta.
  edestruct (manage_product_media_prunes (H := Reference.builtins) Worlds.play
               (py "shop.example") (py "2024-01") 7
               [PyStr (py "101"); PyStr (py "gid://shopify/ProductImage/103")]
               (Worlds.initial
                  [Worlds.answer 200
                     (Worlds.product_body
                        (Worlds.simple_product 7 (py "P")
                           [Worlds.simple_image 101 1; Worlds.simple_image 102 2;
                            Worlds.simple_image 103 3]));
                   Worlds.answer 200 Worlds.no_body]
                  (py "shop.example")))
    as (σ' & result & Hrun & Htrace & Herrors & Hsuccess);
    [reflexivity | reflexivity | reflexivity |].
  rewrite Hrun. cbn [fst snd]. split.
  - rewrite Htrace. vm_compute. reflexivity.
  - exists result. split; [done|]. apply Hsuccess. vm_compute. reflexivity.
Defined.

(** ** [create_metafields] against the metafield platform *)

Section PlatformFacts.
Context `{PyBuiltins}.
Variable STORE_DOMAIN API_VERSION : pystr.

Implicit Types (σ : @state Worlds.store).

(** A write of an attribute the dict does not know, to a platform that
    does not have it: it is created. *)
Lemma process_metafield_creates domain product_id existing count errors md fv σ :
  let namespace := default (py "custom") (md_namespace md) in
  let key := default [] (md_key md) in
  value_to_send md = SendValue fv →
  lookup_existing existing namespace key = None →
  existsb (λ a, bool_decide (Worlds.at_namespace a = namespace)
                && bool_decide (Worlds.at_key a = key))
          (Worlds.st_attributes (remote σ)) = false →
  process_metafield Worlds.metafield_platform API_VERSION domain product_id
                    existing (count, errors) md σ
  = (Returns (count + 1, errors),
     advance σ
       (Worlds.with_attributes (remote σ)
          (Worlds.st_attributes (remote σ)
           ++ [{| Worlds.at_id := Worlds.st_next_id (remote σ);
                  Worlds.at_namespace := namespace; Worlds.at_key := key;
                  Worlds.at_value := fv; Worlds.at_type := type_of md |}])
          (Worlds.st_next_id (remote σ) + 1))
       [Sent (first_attempt MetafieldWrite POST
                (metafield_url API_VERSION domain product_id None)
                (metafield_payload None namespace key fv (type_of md)))]).
Proof.
  intros namespace key Hv Hid Hfree.
  unfold process_metafield. cbn zeta. fold namespace key. rewrite Hv, Hid.
  unfold send_keeping_method, mbind, M_bind.
  rewrite try_except_bind, bind_unfold.
  erewrite http_answer; cycle 1.
  { cbn [Worlds.metafield_platform first_attempt rq_method rq_payload
         metafield_payload metafield_method].
    rewrite Hfree. reflexivity. }
  reflexivity.
Qed.


(** A write of an attribute whose id the dict gives, to a platform
    that has an attribute at that address: its value is replaced. *)
Lemma process_metafield_replaces domain product_id existing count errors md fv id σ :
  let namespace := default (py "custom") (md_namespace md) in
  let key := default [] (md_key md) in
  let u := metafield_url API_VERSION domain product_id (Some id) in
  value_to_send md = SendValue fv →
  lookup_existing existing namespace key = Some id →
  existsb (λ a, bool_decide (Worlds.attribute_path (Worlds.st_base (remote σ))
                                                   (Worlds.at_id a) = url_path u))
          (Worlds.st_attributes (remote σ)) = true →
  process_metafield Worlds.metafield_platform API_VERSION domain product_id
                    existing (count, errors) md σ
  = (Returns (count + 1, errors),
     advance σ
       (Worlds.with_attributes (remote σ)
          (Worlds.set_value (url_path u) fv (remote σ)
             <$> Worlds.st_attributes (remote σ))
          (Worlds.st_next_id (remote σ)))
       [Sent (first_attempt MetafieldWrite PUT u
                (metafield_payload (Some id) namespace key fv (type_of md)))]).
Proof.
  intros namespace key u Hv Hid Hthere.
  unfold process_metafield. cbn zeta. fold namespace key. rewrite Hv, Hid.
  unfold send_keeping_method, mbind, M_bind.
  rewrite try_except_bind, bind_unfold.
  erewrite http_answer; cycle 1.
  { cbn [Worlds.metafield_platform first_attempt rq_method rq_payload rq_url
         metafield_payload metafield_method].
    fold u. rewrite Hthere. reflexivity. }
  reflexivity.
Qed.


Lemma create_metafields_single domain_opt product_id md σ acc σ1 :
  let domain := domain_or_default STORE_DOMAIN domain_opt in
  let rq := metafield_list_request API_VERSION domain product_id in
  let a := Worlds.metafield_platform (remote σ) rq in
  process_metafield Worlds.metafield_platform API_VERSION domain product_id
                    (listed_identities a.1) (0, []) md (advance σ a.2 [Sent rq])
  = (Returns acc, σ1) →
  create_metafields Worlds.metafield_platform STORE_DOMAIN API_VERSION
                    product_id [md] domain_opt σ
  = (Returns {| mfr_success := bool_decide (acc.2 = []);
                mfr_success_count := acc.1; mfr_errors := acc.2 |}, σ1).
Proof.
  intros domain rq a Hrun.
  unfold create_metafields, mbind, M_bind.
  rewrite try_except_bind, fetch_existing_run. fold domain rq a.
  rewrite try_except_bind. cbn [for_each]. unfold mbind, M_bind.
  rewrite bind_unfold, Hrun. by destruct acc.
Qed.

Lemma listing_of_platform (s : Worlds.store) rq :
  rq_method rq = GET →
  Worlds.metafield_platform s rq
  = (Worlds.answer 200
       {| b_errors := None; b_product := None; b_products := None;
          b_metafields := Some (Worlds.row_of <$> take 250 (Worlds.st_attributes s));
          b_file_update := None |}, s).
Proof. intros Hm. unfold Worlds.metafield_platform. by rewrite Hm. Qed.

Lemma listed_identities_answer b :
  listed_identities (Worlds.answer 200 b)
  = existing_identities (default [] (b_metafields b)).
Proof. reflexivity. Qed.

Lemma write_twice product_id md dom fv (s0 : Worlds.store) :
  let namespace := default (py "custom") (md_namespace md) in
  let key := default [] (md_key md) in
  let domain := domain_or_default STORE_DOMAIN dom in
  let id := Worlds.st_next_id s0 in
  let stored := {| Worlds.at_id := id; Worlds.at_namespace := namespace;
                   Worlds.at_key := key; Worlds.at_value := fv;
                   Worlds.at_type := type_of md |} in
  let ok := {| mfr_success := true; mfr_success_count := 1; mfr_errors := [] |} in
  let write := create_metafields Worlds.metafield_platform STORE_DOMAIN API_VERSION
                                 product_id [md] dom in
  let first := write (Worlds.initial s0 STORE_DOMAIN) in
  let second := write first.2 in
  value_to_send md = SendValue fv →
  namespace ≠ [] → key ≠ [] →
  Worlds.st_attributes s0 = [] →
  id ≠ 0 →
  Worlds.st_base s0 = metafields_base API_VERSION domain product_id →
  first.1 = Returns ok
  ∧ Worlds.st_attributes (remote first.2) = [stored]
  ∧ second.1 = Returns ok
  ∧ Worlds.st_attributes (remote second.2) = [stored]
  ∧ trace second.2
    = trace first.2
      ++ [Sent (metafield_list_request API_VERSION domain product_id);
          Sent (first_attempt MetafieldWrite PUT
                  (metafield_url API_VERSION domain product_id (Some id))
                  (metafield_payload (Some id) namespace key fv (type_of md)))].
Proof.
  intros namespace key domain id stored ok write first second
         Hv Hns Hkey Hempty Hid Hbase.
  assert (Hfirst : first
    = (Returns ok,
       advance (advance (Worlds.initial s0 STORE_DOMAIN) s0
                  [Sent (metafield_list_request API_VERSION domain product_id)])
         (Worlds.with_attributes s0 [stored] (id + 1))
         [Sent (first_attempt MetafieldWrite POST
                  (metafield_url API_VERSION domain product_id None)
                  (metafield_payload None namespace key fv (type_of md)))])).
  { unfold first, write.
    erewrite create_metafields_single; cycle 1.
    { rewrite listing_of_platform by done. cbn [fst snd remote Worlds.initial].
      rewrite Hempty.
      rewrite (process_metafield_creates _ _ _ _ _ _ fv); [reflexivity|done| |].
      - unfold lookup_existing. rewrite listed_identities_answer.
        change (existing_identities _) with (∅ : gmap (pystr * pystr) (option Z)).
        by rewrite lookup_empty.
      - cbn [remote advance]. by rewrite Hempty. }
    cbn [fst snd remote advance Worlds.initial]. rewrite Hempty. reflexivity. }

  set (s1 := Worlds.with_attributes s0 [stored] (id + 1)) in Hfirst.
  set (u := metafield_url API_VERSION domain product_id (Some id)).
  assert (Hpath : Worlds.attribute_path (Worlds.st_base s1) id = url_path u).
  { unfold Worlds.attribute_path. cbn [s1 Worlds.with_attributes Worlds.st_base].
    by rewrite Hbase. }
  assert (Hsecond : second
    = (Returns ok,
       advance (advance first.2 s1
                  [Sent (metafield_list_request API_VERSION domain product_id)])
         (Worlds.with_attributes s1 [stored] (id + 1))
         [Sent (first_attempt MetafieldWrite PUT u
                  (metafield_payload (Some id) namespace key fv (type_of md)))])).
  { unfold second, write. rewrite Hfirst. cbn [snd].
    erewrite create_metafields_single; cycle 1.
    { rewrite listing_of_platform by done. cbn [fst snd remote advance].
      rewrite (process_metafield_replaces _ _ _ _ _ _ fv id); [reflexivity|done| |].
      - unfold lookup_existing. rewrite listed_identities_answer.
        change (existing_identities _)
          with (if negb (bool_decide (namespace = [])) && negb (bool_decide (key = []))
                then <[(namespace, key) := Some id]>
                       (∅ : gmap (pystr * pystr) (option Z))
                else ∅).
        rewrite !bool_decide_false by done. cbn [negb andb].
        rewrite lookup_insert_eq. by destruct (Z.eqb_spec id 0).
      - cbn [remote advance s1 Worlds.with_attributes Worlds.st_attributes existsb
             stored Worlds.at_id].
        fold stored s1 u. by rewrite Hpath, bool_decide_true. }
    cbn [fst snd remote advance s1 Worlds.with_attributes Worlds.st_attributes
         Worlds.st_next_id fmap list_fmap].
    fold stored s1 u. unfold Worlds.set_value at 1.
    cbn [stored Worlds.at_id]. fold stored. rewrite decide_True by done.
    reflexivity. }
  rewrite Hsecond. rewrite Hfirst at 1 2. cbn [fst snd remote advance trace].
  repeat split; try done.
  by rewrite <- !app_assoc.
Qed.



End PlatformFacts.



(** ** Closed instances *)







(** A bare label of a list type is wrapped as a one-element array. *)
Lemma normalize_value_shapes_witness :
  normalize_value (H := Reference.builtins) (PyStr (py " Bars "))
                  (py "list.single_line_text_field")
  = PyStr (pyq "['Bars']").
Proof.
  destruct (normalize_value_shapes (H := Reference.builtins)) as (Hlist & _).
  destruct (Hlist (py " Bars ") (py "list.single_line_text_field"))
    as (t & -> & _ & _ & ->); [vm_compute; reflexivity|].
  vm_compute. reflexivity.
Defined.

(** The example of the specification, from the theorem: the upload
    instruction at position 1 and the instruction for the kept image 101
    at position 2, with the one new image 201 on the product. *)
Lemma reorder_position_map_and_cover_witness :
  compute_position_map (H := Reference.builtins)
    [{| oi_type := Some (py "upload"); oi_id := Some (PyInt 0); oi_position := Some 1 |};
     {| oi_type := Some (py "shopify"); oi_id := Some (PyStr (py "101"));
        oi_position := Some 2 |}]
    [Worlds.simple_image 101 1; Worlds.simple_image 201 2]
    [PyStr (py "101")]
  = {[1 := py "201"; 2 := py "101"]}.
Proof.
  eapply (proj1 (reorder_position_map_and_cover (H := Reference.builtins)
                   Worlds.play (py "shop.example") (py "2024-01")));
    [vm_compute; reflexivity | vm_compute; by repeat constructor
    | vm_compute; reflexivity | by repeat constructor
    | by repeat constructor].
Defined.


(** The text [ bars ], in another case and with blanks around it,
    resolves to the label [Bars], which is a choice of the key it is
    routed to. *)
Lemma resolved_label_is_choice_of_its_key_witness :
  py "Bars" ∈ Categories.get_metafield_choices (H := Reference.builtins)
                (Categories.get_subcategory_metafield_key (H := Reference.builtins)
                   (py " bars ")).
Proof.
  destruct (resolved_label_is_choice_of_its_key (H := Reference.builtins)
              (py " bars ") 79%nat) as (c & Hc & _ & Hin & _);
    [vm_compute; discriminate | vm_compute; reflexivity |].
  vm_compute in Hc. injection Hc as <-. exact Hin.
Defined.

(** The key [subcategory_1] offers the whole vocabulary. *)
Lemma overflow_key_choices_witness :
  Categories.get_metafield_choices (H := Reference.builtins) (py "subcategory_1")
  = Categories.SUBCATEGORIES.
Proof.
  rewrite (overflow_key_choices (H := Reference.builtins) (py "subcategory_1"));
    [vm_compute; reflexivity | vm_compute; discriminate | vm_compute; discriminate
    | vm_compute; discriminate].
Defined.

(** Whatever the namespace, [subcategory_2] has the choices from the
    sentinel on. *)
Lemma metafield_choices_by_key_alone_witness :
  get_metafield_choices (H := Reference.builtins) (py "anything.subcategory_2")
  = drop 109 Categories.SUBCATEGORIES.
Proof.
  destruct (metafield_choices_by_key_alone (H := Reference.builtins)
              (py "anything") (py "subcategory_2")) as [Hkey _].
  - vm_compute. intros Hin. repeat (apply elem_of_cons in Hin as [Hin|Hin]; [discriminate|]).
    by apply elem_of_nil in Hin.
  - etrans; [exact Hkey|]. vm_compute. reflexivity.
Defined.

(** A request with a blank title is turned down before anything is
    sent. *)
Lemma create_product_rejects_without_request_witness :
  let pd := {| pd_product_id := None; pd_title := Some (py "   ");
               pd_charge_vat := None; pd_sku := None; pd_media_files := [];
               pd_shopify_media_ids := []; pd_media_order := [];
               pd_metafields := []; pd_colour_images := None |} in
  let σ := Worlds.initial [Worlds.answer 201 Worlds.no_body] (py "shop.example") in
  create_product (H := Reference.builtins) Worlds.play None (λ _, false)
    (py "shop.example") (py "2024-01") (λ _ _, Returns PyNone) pd_metafields pd σ
  = (Returns failed, σ).
Proof.
  cbv zeta.
  apply (create_product_rejects_without_request (H := Reference.builtins)).
  left. vm_compute. reflexivity.
Defined.

(** The plain id [101] is attached under its global id, and that global
    id is reduced to [101] again. *)
Lemma attached_id_is_kept_id_witness :
  normalize_media_id (H := Reference.builtins)
    (PyStr (media_global_id (H := Reference.builtins) (PyStr (py "101"))))
  = py "101".
Proof.
  assert (Hplain : 47%N ∉ py "101").
  { vm_compute. intros Hin.
    repeat (apply elem_of_cons in Hin as [Hin|Hin]; [discriminate|]).
    by apply elem_of_nil in Hin. }
  destruct (attached_id_is_kept_id (H := Reference.builtins) (py "101"))
    as (_ & Hsame & Hkey); [by left|].
  etrans; [exact Hsame|]. by apply Hkey.
Defined.

(** A create whose core request fails in the transport: the one request
    it sends is no request of the pruning. *)
Lemma create_never_prunes_witness :
  let pd := {| pd_product_id := None; pd_title := Some (py "P");
               pd_charge_vat := None; pd_sku := None; pd_media_files := [];
               pd_shopify_media_ids := []; pd_media_order := [];
               pd_metafields := []; pd_colour_images := None |} in
  Forall (never_from [ManageFetch; ManageDelete])
    (trace (create_product (H := Reference.builtins) Worlds.play None (λ _, false)
              (py "shop.example") (py "2024-01") (λ _ _, Returns PyNone) pd_metafields
              pd (Worlds.initial [] (py "shop.example"))).2).
Proof.
  cbv zeta.
  destruct (create_never_prunes (H := Reference.builtins) Worlds.play None (λ _, false)
              (py "shop.example") (py "2024-01") (λ _ _, Returns PyNone) pd_metafields
              {| pd_product_id := None; pd_title := Some (py "P");
                 pd_charge_vat := None; pd_sku := None; pd_media_files := [];
                 pd_shopify_media_ids := []; pd_media_order := [];
                 pd_metafields := []; pd_colour_images := None |}
              (Worlds.initial [] (py "shop.example")) eq_refl)
    as (evs & Htrace & Hnever).
  rewrite Htrace. exact Hnever.
Defined.

(** A product with the images 101 and 102 and the list [102; 999; 101]:
    the fetch and both updates are answered, and the run succeeds, after
    three requests. *)
Lemma reorder_product_media_positions_witness :
  let images := [Worlds.simple_image 101 1; Worlds.simple_image 102 2] in
  let σ := Worlds.initial
             [Worlds.answer 200 (Worlds.product_body
                                   (Worlds.simple_product 7 (py "P") images));
              Worlds.answer 200 Worlds.no_body;
              Worlds.answer 200 Worlds.no_body]
             (py "shop.example") in
  let run := reorder_product_media (H := Reference.builtins) Worlds.play
               (py "shop.example") (py "2024-01") 7
               [PyStr (py "102"); PyStr (py "999"); PyStr (py "101")] σ in
  run.1 = Returns {| res_success := true; res_errors := Some [] |}
  ∧ length (trace run.2) = 3%nat.
Proof.
  cbv zeta.
  pose proof (reorder_product_media_positions (H := Reference.builtins) Worlds.play
                (py "shop.example") (py "2024-01") 7
                [PyStr (py "102"); PyStr (py "999"); PyStr (py "101")]
                (Worlds.initial
                   [Worlds.answer 200
                      (Worlds.product_body
                         (Worlds.simple_product 7 (py "P")
                            [Worlds.simple_image 101 1; Worlds.simple_image 102 2]));
                    Worlds.answer 200 Worlds.no_body;
                    Worlds.answer 200 Worlds.no_body]
                   (py "shop.example"))
                {| rs_status := 200; rs_location := None;
                   rs_json := Some (Worlds.product_body
                                      (Worlds.simple_product 7 (py "P")
                                         [Worlds.simple_image 101 1;
                                          Worlds.simple_image 102 2]));
                   rs_url := {| url_host := []; url_path := [] |};
                   rs_history := false |}
                (Worlds.product_body
                   (Worlds.simple_product 7 (py "P")
                      [Worlds.simple_image 101 1; Worlds.simple_image 102 2]))
                [Worlds.answer 200 Worlds.no_body; Worlds.answer 200 Worlds.no_body])
    as Hthm.
  cbv zeta in Hthm.
  destruct Hthm as [(σ' & Hrun & Htrace) _];
    [discriminate | reflexivity | reflexivity | reflexivity
    | vm_compute; by repeat constructor |].
  rewrite Hrun. cbn [fst snd]. split.
  - vm_compute. reflexivity.
  - rewrite Htrace. vm_compute. reflexivity.
Defined.

